(** * Contributor record validation: a shallow embedding

    The repository validates YAML contributor records against a zod schema
    and reports the outcome on the console.  Its sources hold several
    versions of the script and of the schema:

    - the validation script: [part_000] (synchronous), [part_002]
      (asynchronous, with cancellation and the avatar check) and
      [part_001] (as [part_002], the schema re-imported for every file);
    - the schema: [code/schema.ts] (roles object not strict) and [part_004]
      (strict roles object, enumerated roles);
    - the project registry: [part_003].

    JavaScript values, the zod parsers the schema is built from, exceptions
    and the console are modelled explicitly; the file system, the YAML
    parser and the contact schema of [@fujocoded/zod-transform-socials] are
    fields of a [World] record. *)

From Stdlib Require Import List String Ascii Bool Arith Lia.
From Stdlib Require Import DecimalString.
Import ListNotations.
Local Open Scope string_scope.
Local Open Scope list_scope.

Set Implicit Arguments.
Set Warnings "-register-all".

(** String concatenation, as in a template literal. *)
Infix "+++" := String.append (right associativity, at level 60).

(** ** JavaScript string operations used by the scripts *)

Module Js.

(** [s.includes(sub)] *)
Fixpoint includes (s sub : string) : bool :=
  if String.prefix sub s then true
  else match s with
       | EmptyString => false
       | String _ rest => includes rest sub
       end.

(** [s.endsWith(suffix)] *)
Definition endsWith (s suffix : string) : bool :=
  let n := String.length s in
  let m := String.length suffix in
  Nat.leb m n && String.eqb (String.substring (n - m) m s) suffix.

(** [s.split(".")], as a left-to-right scan carrying the current piece. *)
Fixpoint split_dot_from (piece s : string) : list string :=
  match s with
  | EmptyString => [piece]
  | String c rest =>
      if Ascii.eqb c "."%char
      then piece :: split_dot_from EmptyString rest
      else split_dot_from (piece +++ String c EmptyString) rest
  end.

Definition split_dot (s : string) : list string :=
  split_dot_from EmptyString s.

(** [l.join(sep)] *)
Definition join (sep : string) (l : list string) : string :=
  String.concat sep l.

(** [String(n)] for an array index or a length. *)
Definition of_nat (n : nat) : string :=
  NilZero.string_of_uint (Nat.to_uint n).

(** [l[i]] of a string array inside a template literal: a missing element
    prints as [undefined]. *)
Definition at_index (i : nat) (l : list string) : string :=
  nth i l "undefined".

(** [l.includes(x)] on a string array. *)
Definition mem (x : string) (l : list string) : bool :=
  existsb (String.eqb x) l.

End Js.

(** ** Values produced by the YAML parser *)

Inductive Value : Type :=
| VUndefined
| VNull
| VBool (b : bool)
| VNum (n : nat)
| VStr (s : string)
| VArr (items : list Value)
| VObj (fields : list (string * Value)).

(** [data[key]]: the first binding, [undefined] when the key is absent.
    The fields of an object are listed in the order [for ... in] visits
    them. *)
Fixpoint get (key : string) (fields : list (string * Value)) : Value :=
  match fields with
  | [] => VUndefined
  | (k, v) :: rest => if String.eqb k key then v else get key rest
  end.

(** zod's [ZodParsedType] names, as they appear in messages. *)
Definition parsedType (v : Value) : string :=
  match v with
  | VUndefined => "undefined"
  | VNull => "null"
  | VBool _ => "boolean"
  | VNum _ => "number"
  | VStr _ => "string"
  | VArr _ => "array"
  | VObj _ => "object"
  end.

(** ** zod issues *)

Inductive PathSeg : Type :=
| Key (k : string)
| Idx (i : nat).

Definition seg_string (p : PathSeg) : string :=
  match p with
  | Key k => k
  | Idx i => Js.of_nat i
  end.

(** [path.join(".")] *)
Definition path_join_dot (path : list PathSeg) : string :=
  Js.join "." (map seg_string path).

(** A [ZodIssue].  [keys] is set by [unrecognized_keys], [received] by
    [invalid_enum_value], [unionErrors] (one issue list per failed option)
    by [invalid_union]. *)
Inductive ZodIssue : Type :=
  mkIssue {
      code : string;
      path : list PathSeg;
      message : string;
      keys : list string;
      received : option string;
      unionErrors : list (list ZodIssue)
    }.

Definition basic_issue (c : string) (p : list PathSeg) (m : string) : ZodIssue :=
  mkIssue c p m [] None [].

(** [util.joinValues]: each value quoted, joined by the separator. *)
Definition joinValues (sep : string) (l : list string) : string :=
  Js.join sep (map (fun s => "'" +++ s +++ "'") l).

(** Issues with the messages of zod's default error map. *)
Definition invalid_type_issue (p : list PathSeg) (expected : string) (v : Value)
  : ZodIssue :=
  basic_issue "invalid_type" p
    (match v with
     | VUndefined => "Required"
     | _ => "Expected " +++ expected +++ ", received " +++ parsedType v
     end).

Definition invalid_enum_issue (p : list PathSeg) (options : list string)
  (got : string) : ZodIssue :=
  mkIssue "invalid_enum_value" p
    ("Invalid enum value. Expected " +++ joinValues " | " options
       +++ ", received '" +++ got +++ "'")
    [] (Some got) [].

Definition unrecognized_keys_issue (p : list PathSeg) (extra : list string)
  : ZodIssue :=
  mkIssue "unrecognized_keys" p
    ("Unrecognized key(s) in object: " +++ joinValues ", " extra)
    extra None [].

Definition invalid_union_issue (p : list PathSeg) (errs : list (list ZodIssue))
  : ZodIssue :=
  mkIssue "invalid_union" p "Invalid input" [] None errs.

Definition custom_issue (p : list PathSeg) (m : string) : ZodIssue :=
  basic_issue "custom" p m.

(** ** The zod parsers the schema is built from

    zod threads a parse context that collects issues.  [safeParse] runs
    every parser to completion in traversal order.  Under [safeParseAsync]
    a union waits for all its options ([Promise.all]) and reports its
    failure from a continuation, after every issue raised while the
    parsers were being started: [now] holds the issues added on the spot,
    [later] those added from such continuations, listed here in traversal
    order.  The properties below rely on [now] coming before [later], not
    on the order inside [later]. *)

Inductive ParseMode : Type := SyncMode | AsyncMode.

Inductive Status : Type := valid | dirty | aborted.

Record Outcome : Type :=
  mkOutcome {
      status : Status;
      now : list ZodIssue;
      later : list ZodIssue
    }.

(** The issues of a context once the parse has settled. *)
Definition issues (o : Outcome) : list ZodIssue := now o ++ later o.

Definition OK : Outcome := mkOutcome valid [] [].

(** [addIssueToContext(...); return INVALID] *)
Definition INVALID (i : ZodIssue) : Outcome := mkOutcome aborted [i] [].

Definition is_valid (o : Outcome) : bool :=
  match status o with valid => true | _ => false end.

Definition is_dirty (o : Outcome) : bool :=
  match status o with dirty => true | _ => false end.

Definition is_aborted (o : Outcome) : bool :=
  match status o with aborted => true | _ => false end.

(** [ParseStatus.mergeObjectSync] / [mergeArray]: [INVALID] as soon as one
    member is aborted, dirty when the parser or a member is. *)
Definition merge_status (self_dirty : bool) (members : list Outcome) : Status :=
  if existsb is_aborted members then aborted
  else if self_dirty || existsb is_dirty members then dirty
  else valid.

Definition merge (self_dirty : bool) (own : list ZodIssue)
  (members : list Outcome) : Outcome :=
  mkOutcome (merge_status self_dirty members)
    (List.concat (map now members) ++ own)
    (List.concat (map later members)).

(** Issues a union adds itself: on the spot in a synchronous parse, from
    the continuation of [Promise.all] in an asynchronous one. *)
Definition union_adds (mode : ParseMode) (st : Status) (l : list ZodIssue)
  : Outcome :=
  match mode with
  | SyncMode => mkOutcome st l []
  | AsyncMode => mkOutcome st [] l
  end.

Definition nonempty {A : Type} (l : list A) : bool :=
  match l with [] => false | _ :: _ => true end.

(** [ZodUnion._parse] once every option has run in its own child context:
    the first valid option wins, else the first dirty one (its issues are
    copied to the parent), else [invalid_union] carrying one [ZodError] per
    option (the synchronous loop keeps only the non-empty ones). *)
Definition handleResults (mode : ParseMode) (p : list PathSeg)
  (results : list Outcome) : Outcome :=
  if existsb is_valid results then OK
  else match find is_dirty results with
       | Some d => union_adds mode dirty (issues d)
       | None =>
           let errs :=
             match mode with
             | SyncMode => filter nonempty (map issues results)
             | AsyncMode => map issues results
             end in
           union_adds mode aborted [invalid_union_issue p errs]
       end.

Inductive UnknownKeys : Type := strip | strict.

Inductive Schema : Type :=
| ZString                                              (* z.string() *)
| ZEnum (values : list string)                         (* z.enum([...]) *)
| ZObject (shape : list (string * Schema)) (unknownKeys : UnknownKeys)
                                                (* z.object({...})[.strict()] *)
| ZUnion (options : list Schema)                       (* z.union([...]) *)
| ZArray (element : Schema)                            (* s.array() *)
| ZDefault (inner : Schema) (defaultValue : Value)     (* s.default(v) *)
| ZOpaque (run : ParseMode -> list PathSeg -> Value -> Outcome).
                                         (* a schema of another package *)

(** Keys of the data that the shape does not declare, in [for ... in]
    order. *)
Definition extraKeys (shapeKeys : list string) (fields : list (string * Value))
  : list string :=
  filter (fun k => negb (Js.mem k shapeKeys)) (map fst fields).

Definition unknown_keys_issues (uk : UnknownKeys) (p : list PathSeg)
  (extra : list string) : list ZodIssue :=
  match uk with
  | strip => []
  | strict => if nonempty extra then [unrecognized_keys_issue p extra] else []
  end.

(** [schema._parse] at field path [p]. *)
Fixpoint parse (mode : ParseMode) (s : Schema) (p : list PathSeg) (v : Value)
  {struct s} : Outcome :=
  match s with
  | ZString =>
      match v with
      | VStr _ => OK
      | _ => INVALID (invalid_type_issue p "string" v)
      end
  | ZEnum values =>
      match v with
      | VStr got =>
          if Js.mem got values then OK
          else INVALID (invalid_enum_issue p values got)
      | _ => INVALID (invalid_type_issue p (joinValues " | " values) v)
      end
  | ZObject shape uk =>
      match v with
      | VObj fields =>
          let members :=
            (fix each (sh : list (string * Schema)) : list Outcome :=
               match sh with
               | [] => []
               | (k, sk) :: rest =>
                   parse mode sk (p ++ [Key k]) (get k fields) :: each rest
               end) shape in
          let own := unknown_keys_issues uk p (extraKeys (map fst shape) fields) in
          merge (nonempty own) own members
      | _ => INVALID (invalid_type_issue p "object" v)
      end
  | ZUnion options =>
      handleResults mode p
        ((fix each (os : list Schema) : list Outcome :=
            match os with
            | [] => []
            | o :: rest => parse mode o p v :: each rest
            end) options)
  | ZArray element =>
      match v with
      | VArr items =>
          merge false []
            ((fix each (l : list Value) (i : nat) : list Outcome :=
                match l with
                | [] => []
                | x :: rest =>
                    parse mode element (p ++ [Idx i]) x :: each rest (S i)
                end) items 0)
      | _ => INVALID (invalid_type_issue p "array" v)
      end
  | ZDefault inner defaultValue =>
      parse mode inner p
        (match v with VUndefined => defaultValue | _ => v end)
  | ZOpaque run => run mode p v
  end.

(** The members of an object and of an array, as top-level functions. *)
Definition object_members (mode : ParseMode) (p : list PathSeg)
  (fields : list (string * Value)) (shape : list (string * Schema))
  : list Outcome :=
  map (fun ks => parse mode (snd ks) (p ++ [Key (fst ks)]) (get (fst ks) fields))
    shape.

Fixpoint array_members (mode : ParseMode) (element : Schema) (p : list PathSeg)
  (items : list Value) (i : nat) : list Outcome :=
  match items with
  | [] => []
  | x :: rest =>
      parse mode element (p ++ [Idx i]) x
        :: array_members mode element p rest (S i)
  end.

(** [schema.isOptional()]: [undefined] is accepted. *)
Definition isOptional (s : Schema) : bool :=
  is_valid (parse SyncMode s [] VUndefined).

(** ** The project registry ([part_003]) *)

Definition PROJECTS : list string :=
  [ "Volume 0 Kickstarter";
    "Volume 0";
    "Website";
    "Volume 0 Issue 1";
    "Fandom Cookies" ].

Definition VOLUME_0_ISSUE_1_ROLES : list string :=
  [ "Technical Writer";
    "Scenario Writer";
    "Beta Reading Coordinator";
    "Beta Reader";
    "Proofreader";
    "Artist";
    "Tasks Coordinator";
    "Communications";
    "Character Designer";
    "Additional Coding";
    "Data Collection & Entry" ].

Definition PROJECT_ROLES : list (string * list string) :=
  [ ("Volume 0 Issue 1", VOLUME_0_ISSUE_1_ROLES) ].

(** [table[project]], [None] for [undefined]. *)
Fixpoint lookup {A : Type} (project : string) (table : list (string * A))
  : option A :=
  match table with
  | [] => None
  | (k, a) :: rest => if String.eqb k project then Some a else lookup project rest
  end.

(** ** The schema *)

(** [Role(roleType)]: a bare role or a role with details. *)
Definition Role (roleType : Schema) : Schema :=
  ZUnion [ roleType;
           ZObject [ ("role", roleType); ("details", ZString) ] strip ].

(** [part_004]: one optional list of roles per project, roles taken from the
    project's enumeration when it has one, and no other key. *)
Module Schema004.

Definition roleTypeOf (project : string) : Schema :=
  match lookup project PROJECT_ROLES with
  | Some roles => ZEnum roles
  | None => ZString
  end.

Definition RolesFor (projects : list string) : Schema :=
  ZObject
    (map (fun project =>
            (project, ZDefault (ZArray (Role (roleTypeOf project))) (VArr [])))
       projects)
    strict.

Definition Roles : Schema := RolesFor PROJECTS.

(** [contacts] is [SocialsSchema.array().default([]).transform(...)]; the
    transform maps parsed values and adds no issue. *)
Definition TeamContributor (SocialsSchema : Schema) : Schema :=
  ZObject
    [ ("name", ZString);
      ("avatar", ZString);
      ("roles", Roles);
      ("contacts", ZDefault (ZArray SocialsSchema) (VArr [])) ]
    strip.

End Schema004.

(** [code/schema.ts].  The roles object is not strict, and [Role] receives
    [PROJECT_ROLES[project]] itself, a zod type or [undefined] (then
    [z.string()]): the table this snapshot was written against is a
    parameter, [part_003] holding lists of names. *)
Module SchemaFirst.

Definition Roles (projectRoles : list (string * Schema)) : Schema :=
  ZObject
    (map (fun project =>
            (project,
              ZDefault
                (ZArray
                   (Role (match lookup project projectRoles with
                          | Some roleType => roleType
                          | None => ZString
                          end)))
                (VArr [])))
       PROJECTS)
    strip.

Definition TeamContributor (projectRoles : list (string * Schema))
  (SocialsSchema : Schema) : Schema :=
  ZObject
    [ ("name", ZString);
      ("avatar", ZString);
      ("roles", Roles projectRoles);
      ("contacts", ZDefault (ZArray SocialsSchema) (VArr [])) ]
    strip.

End SchemaFirst.

(** ** Exceptions, the outside world and the console *)

(** The classes of [Error] the scripts tell apart.  None of them is named
    [AbortError]: [class X extends Error] keeps the name [Error]. *)
Inductive ErrorClass : Type :=
| InvalidRoleErrorClass
| InvalidProjectErrorClass
| TypeErrorClass
| OtherErrorClass.

Inductive Thrown : Type :=
| AbortError                                  (* [signal.reason] after [abort()] *)
| ErrorOf (cls : ErrorClass) (msg : string)   (* any other instance of [Error] *)
| NotAnError (shown : string).                (* a thrown value, [String(error)] *)

(** [error instanceof Error && error.name === "AbortError"] *)
Definition isAbortError (e : Thrown) : bool :=
  match e with AbortError => true | _ => false end.

(** [error instanceof Error ? error.message : String(error)] *)
Definition errorText (e : Thrown) : string :=
  match e with
  | AbortError => "This operation was aborted"
  | ErrorOf _ msg => msg
  | NotAnError shown => shown
  end.

(** How a call ends. *)
Inductive Completion (E A : Type) : Type :=
| Returns (a : A)
| Throws (e : E).

Arguments Returns {E A} a.
Arguments Throws {E A} e.

(** What node, the YAML parser and the contact package may raise: an
    [Error] of their own (never one named [AbortError], which only an
    [AbortSignal] produces) or some other value. *)
Inductive ExternalFailure : Type :=
| FailsWith (msg : string)
| ThrowsValue (shown : string).

Definition raised (f : ExternalFailure) : Thrown :=
  match f with
  | FailsWith msg => ErrorOf OtherErrorClass msg
  | ThrowsValue shown => NotAnError shown
  end.

Record World : Type :=
  mkWorld {
      (** [process.cwd()] *)
      cwd : string;
      (** [readdirSync(dir)] *)
      readdirSync : string -> Completion ExternalFailure (list string);
      (** [readFileSync(filePath, "utf-8")] *)
      readFileSync : string -> Completion ExternalFailure string;
      (** [parse(content)] of the yaml package *)
      yaml_parse : string -> Completion ExternalFailure Value;
      (** [access(p)] resolves: the file exists *)
      access : string -> bool;
      (** [path.resolve(from, to)], [path.join(dir, name)],
          [path.relative(from, to)], [path.dirname(p)] *)
      path_resolve : string -> string -> string;
      path_join : string -> string -> string;
      path_relative : string -> string -> string;
      path_dirname : string -> string;
      (** [SocialsSchema] of the contact package *)
      SocialsSchema : ParseMode -> list PathSeg -> Value -> Outcome;
      (** the exception escaping [transformSocial] for this record, if any *)
      transformSocial_raises : Value -> option ExternalFailure
    }.

Inductive Event : Type :=
| Clear                     (* [console.clear()] *)
| Log (line : string)       (* [console.log(line)] *)
| LogError (line : string). (* [console.error(line)] *)

Definition Console : Type := list Event.

Record ValidationResult : Type :=
  mkResult {
      file : string;
      isValid : bool;
      errors : list string;
      warnings : list string
    }.

(** The double quote of the template literals. *)
Definition dq : string := String (ascii_of_nat 34) EmptyString.

(** The line feed of the banner strings. *)
Definition nl : string := String (ascii_of_nat 10) EmptyString.

(** ** Sequencing calls that may throw *)

Definition bind {E A B : Type} (c : Completion E A) (k : A -> Completion E B)
  : Completion E B :=
  match c with
  | Returns a => k a
  | Throws e => Throws e
  end.

Notation "x <- c ;; k" := (bind c (fun x => k))
  (at level 61, c at next level, right associativity).

(** A call into node or a package: its failure becomes the exception. *)
Definition call {A : Type} (c : Completion ExternalFailure A)
  : Completion Thrown A :=
  match c with
  | Returns a => Returns a
  | Throws f => Throws (raised f)
  end.

(** [l.map(f)] where [f] may throw: the first exception ends the map. *)
Fixpoint map_throwing {E A B : Type} (f : A -> Completion E B) (l : list A)
  : Completion E (list B) :=
  match l with
  | [] => Returns []
  | a :: rest =>
      b <- f a ;;
      bs <- map_throwing f rest ;;
      Returns (b :: bs)
  end.

(** [try { body } catch (error) { handler }] *)
Definition try_catch {E A : Type} (body : Completion E A)
  (handler : E -> Completion E A) : Completion E A :=
  match body with
  | Returns a => Returns a
  | Throws e => handler e
  end.

(** ** Promises

    A promise is modelled by the way it settles.  [Promise.all] fulfils
    with the values in the order of its argument, whatever the order in
    which the promises settle; it rejects with the reason of the rejected
    promise that settles first, [rank i] being the moment promise [i]
    settles. *)

Fixpoint rejections {A : Type} (i : nat) (ps : list (Completion Thrown A))
  : list (nat * Thrown) :=
  match ps with
  | [] => []
  | Returns _ :: rest => rejections (S i) rest
  | Throws e :: rest => (i, e) :: rejections (S i) rest
  end.

Fixpoint fulfilled {A : Type} (ps : list (Completion Thrown A)) : list A :=
  match ps with
  | [] => []
  | Returns a :: rest => a :: fulfilled rest
  | Throws _ :: rest => fulfilled rest
  end.

Fixpoint earliest (rank : nat -> nat) (best : nat * Thrown)
  (l : list (nat * Thrown)) : Thrown :=
  match l with
  | [] => snd best
  | c :: rest =>
      earliest rank (if Nat.ltb (rank (fst c)) (rank (fst best)) then c else best) rest
  end.

Definition Promise_all {A : Type} (rank : nat -> nat)
  (ps : list (Completion Thrown A)) : Completion Thrown (list A) :=
  match rejections 0 ps with
  | [] => Returns (fulfilled ps)
  | first :: others => Throws (earliest rank first others)
  end.

(** ** The report ([printResults], the same text in [part_000] and
    [part_002]) *)

Section Report.

Variable w : World.
(** [TeamContributor.shape] and [PROJECTS_FILE] of the script. *)
Variable shape : list (string * Schema).
Variable PROJECTS_FILE : string.

Definition requiredFields : string :=
  Js.join ", "
    (map fst (filter (fun entry => negb (isOptional (snd entry))) shape)).

Definition fileErrors (result : ValidationResult) : Console :=
  if nonempty (errors result) then
    Log ("./team/" +++ path_relative w (cwd w) (file result) +++ ":")
      :: map (fun error => Log ("  - " +++ error)) (errors result)
  else [].

Definition summary (results : list ValidationResult) : string :=
  Js.of_nat (List.length (filter isValid results)) +++ "/"
    +++ Js.of_nat (List.length results) +++ " files valid".

Definition printResults (results : list ValidationResult) : Console :=
  let hasErrors := existsb (fun r => nonempty (errors r)) results in
  [Clear]
    ++ (if hasErrors then
          [ Log ("❌ Found errors:" +++ nl);
            Log "--------------------------------" ]
            ++ flat_map fileErrors results
            ++ [ Log ("--------------------------------" +++ nl) ]
        else [ Log "🎉 Great news:" ])
    ++ [ Log (summary results) ]
    ++ (if hasErrors then
          [ Log (nl +++ "💡 Tips:");
            Log ("   • Project names and roles must match those in ./"
                   +++ path_relative w (cwd w) PROJECTS_FILE);
            Log ("   • Ensure all required fields (" +++ requiredFields
                   +++ ") are present");
            Log "   • Verify contact URLs are valid" ]
        else []).

End Report.

(** [process.argv.includes("--watch") || process.argv.includes("-w")] *)
Definition isWatchMode (argv : list string) : bool :=
  Js.mem "--watch" argv || Js.mem "-w" argv.

(** How the script leaves the top level: [process.exit(status)], or the
    watchers keep the process alive. *)
Inductive ProcessEnd : Type :=
| Exit (status : nat)
| Watching
| Uncaught (e : Thrown).

(** ** [safeParse]: the result handed back to the script *)

Inductive SafeParseReturn : Type :=
| Success
| Failure (errs : list ZodIssue).   (* [validation.error.errors] *)

(** zod's [handleResult]: success is a valid status; a failure carries the
    issues of the context, and zod throws when there is none. *)
Definition handleResult (o : Outcome) : Completion Thrown SafeParseReturn :=
  match status o with
  | valid => Returns Success
  | _ =>
      if nonempty (issues o) then Returns (Failure (issues o))
      else Throws (ErrorOf OtherErrorClass
                     "Validation failed but no issues detected.")
  end.

Definition transformSocial_check (w : World) (data : Value)
  : Completion Thrown unit :=
  match transformSocial_raises w data with
  | Some f => Throws (raised f)
  | None => Returns tt
  end.

(** ** The asynchronous script with cancellation ([part_002]) *)

Module Part002.

Section Script.

Variable w : World.

Definition TEAM_DIR : string := path_resolve w (cwd w) "team".
Definition PROJECTS_FILE : string :=
  path_resolve w (cwd w) "team/_schema/projects.ts".

(** Modelled from the spec: the module [../team/_schema] behind
    [TeamContributorFunction({ image: z.string })] is not among the
    sources.  Section 4.1 describes its shape (name, avatar, strict roles
    object over the registry, contacts), which is the schema of
    [part_004], used here with [avatar] a string. *)
Definition TeamContributor : Schema :=
  Schema004.TeamContributor (ZOpaque (SocialsSchema w)).

Definition TeamContributor_shape : list (string * Schema) :=
  match TeamContributor with
  | ZObject shape _ => shape
  | _ => []
  end.

(** [new InvalidRoleError(projectName, filePath)] *)
Definition InvalidRoleError (projectName filePath : string) : Thrown :=
  ErrorOf InvalidRoleErrorClass
    ("Invalid role in project " +++ dq +++ projectName +++ dq
       +++ " for file ./" +++ path_relative w (cwd w) filePath +++ ".").

(** [new InvalidProjectError(projectName, filePath)] *)
Definition InvalidProjectError (projectName filePath : string) : Thrown :=
  ErrorOf InvalidProjectErrorClass
    ("Invalid project " +++ dq +++ projectName +++ dq
       +++ " for file ./" +++ path_relative w (cwd w) filePath +++ ".").

(** The first [if] of [formatValidationError]: what it throws, if
    anything.  [error.path[0].includes] exists on a string only. *)
Definition unknownProject (error : ZodIssue) (filePath : string)
  : option Thrown :=
  if String.eqb (code error) "unrecognized_keys" then
    match path error with
    | [Key first] =>
        if Js.includes first "roles" then
          let projectName := Js.at_index 0 (keys error) in
          Some (InvalidProjectError projectName filePath)
        else None
    | [Idx _] =>
        Some (ErrorOf TypeErrorClass
                "error.path[0].includes is not a function")
    | _ => None
    end
  else None.

(** The second [if]. *)
Definition invalidRole (error : ZodIssue) (filePath : string)
  : option Thrown :=
  if String.eqb (code error) "invalid_union" then
    let path := path_join_dot (path error) in
    if Js.includes path "roles." then
      let projectName := Js.at_index 1 (Js.split_dot path) in
      Some (InvalidRoleError projectName filePath)
    else None
  else None.

(** What the two [if]s of [formatValidationError] throw, if anything:
    the classifier escalates instead of formatting. *)
Definition escalation (error : ZodIssue) (filePath : string)
  : option Thrown :=
  match unknownProject error filePath with
  | Some e => Some e
  | None => invalidRole error filePath
  end.

Definition formatValidationError (error : ZodIssue) (filePath : string)
  : Completion Thrown string :=
  match unknownProject error filePath with
  | Some e => Throws e
  | None =>
      match invalidRole error filePath with
      | Some e => Throws e
      | None =>
          if nonempty (path error) then
            Returns (path_join_dot (path error) +++ ": " +++ message error)
          else Returns (message error)
      end
  end.

(** The callback of [superRefine]: the issue it adds, if any. *)
Definition avatarCheck (filePath avatar : string) : list ZodIssue :=
  let avatarPath := path_resolve w (path_dirname w filePath) avatar in
  if access w avatarPath then []
  else [ custom_issue [Key "avatar"]
           ("No avatar file found at ./"
              +++ path_relative w (cwd w) avatarPath) ].

(** [ZodEffects] with a refinement: the callback runs on the parsed
    record unless the inner parse was aborted, and an issue it adds makes
    the result dirty.  A record that was not aborted is an object with a
    string avatar; [path.resolve] throws on anything else. *)
Definition superRefine (filePath : string) (data : Value) (inner : Outcome)
  : Completion Thrown Outcome :=
  match status inner with
  | aborted => Returns inner
  | _ =>
      match data with
      | VObj fields =>
          match get "avatar" fields with
          | VStr avatar =>
              let added := avatarCheck filePath avatar in
              Returns
                (mkOutcome (if nonempty added then dirty else status inner)
                   (now inner) (later inner ++ added))
          | _ =>
              Throws (ErrorOf TypeErrorClass
                        "The paths[1] argument must be of type string")
          end
      | _ =>
          Throws (ErrorOf TypeErrorClass
                    "Cannot read properties of undefined")
      end
  end.

(** [TeamContributor.superRefine(...).safeParseAsync(data)] *)
Definition safeParseAsync (filePath : string) (data : Value)
  : Completion Thrown SafeParseReturn :=
  _ <- transformSocial_check w data ;;
  refined <- superRefine filePath data
               (parse AsyncMode TeamContributor [] data) ;;
  handleResult refined.

(** [validateTeamFile(filePath, signal)]; [aborted] is [signal.aborted]
    when the function is called, which is when its checkpoint runs. *)
Definition validateTeamFile (filePath : string) (aborted : bool)
  : Completion Thrown ValidationResult :=
  let result := mkResult filePath false [] [] in
  try_catch
    ((* signal?.throwIfAborted() *)
      _ <- (if aborted then Throws AbortError else Returns tt) ;;
      content <- call (readFileSync w filePath) ;;
      data <- call (yaml_parse w content) ;;
      validation <- safeParseAsync filePath data ;;
      match validation with
      | Success => Returns (mkResult filePath true [] [])
      | Failure errs =>
          formatted <-
            map_throwing (fun error => formatValidationError error filePath)
              errs ;;
          Returns (mkResult filePath false formatted [])
      end)
    (fun error =>
       if isAbortError error then Throws error
       else
         Returns
           (mkResult filePath false
              (errors result
                 ++ [ "Failed to parse file: " +++ errorText error ])
              [])).

Definition isRecordFile (file : string) : bool :=
  Js.endsWith file ".yaml" || Js.endsWith file ".yml".

(** The files a pass enumerates. *)
Definition recordFiles (names : list string) : list string :=
  map (path_join w TEAM_DIR) (filter isRecordFile names).

(** The files a pass enumerates, none when the directory cannot be
    read. *)
Definition enumerated : list string :=
  match readdirSync w TEAM_DIR with
  | Returns names => recordFiles names
  | Throws _ => []
  end.

(** [validateAllTeamFiles(signal)]: the promises it returns and what it
    prints.  An [async] function never throws at its call, so the
    [catch] only sees [readdirSync] fail. *)
Definition validateAllTeamFiles (aborted : bool)
  : Console * list (Completion Thrown ValidationResult) :=
  match readdirSync w TEAM_DIR with
  | Returns names =>
      ([], map (fun file => validateTeamFile file aborted)
             (recordFiles names))
  | Throws f =>
      ([ LogError ("Error reading team directory: "
                     +++ errorText (raised f)) ], [])
  end.

(** [await Promise.all(await validateAllTeamFiles(signal))]: the result
    set of a pass.  [rank] is the order in which the per-file promises
    settle. *)
Definition passResults (rank : nat -> nat) (aborted : bool)
  : Completion Thrown (list ValidationResult) :=
  Promise_all rank (snd (validateAllTeamFiles aborted)).

(** [runValidation(isWatchMode)].  [aborted] tells whether a later call
    has aborted the controller of this pass by the end of its [sleep]. *)
Definition runValidation (rank : nat -> nat) (aborted : bool)
  (isWatchMode : bool) : Console * Completion Thrown bool :=
  let started := [ Clear; Log "Running validation..." ] in
  let logged := fst (validateAllTeamFiles aborted) in
  match passResults rank aborted with
  | Returns results =>
      let hasErrors := existsb (fun r => negb (isValid r)) results in
      (started ++ logged
         ++ printResults w TeamContributor_shape PROJECTS_FILE results
         ++ (if isWatchMode then [ Log "Waiting for more changes..." ]
             else []),
        Returns hasErrors)
  | Throws error =>
      if isAbortError error then (started ++ logged, Returns false)
      else (started ++ logged, Throws error)
  end.

(** The top level.  Without the flag nothing aborts the only pass.  With
    it, [startWatchMode] greets and hands over to the watchers. *)
Definition main (rank : nat -> nat) (argv : list string)
  : Console * ProcessEnd :=
  if isWatchMode argv then ([ Log "Time to watch 👀" ], Watching)
  else
    let (printed, outcome) := runValidation rank false false in
    match outcome with
    | Returns hasErrors => (printed, Exit (if hasErrors then 1 else 0))
    | Throws e => (printed, Uncaught e)
    end.

End Script.

End Part002.

(** ** The classifier of [part_001]

    Of [part_001] the classifier is modelled: it adds the role name to
    [InvalidRoleError].  The rest of that script is [part_002] with the
    schema re-imported for every file and the console cleared in watch
    mode only. *)

Module Part001.

Section Script.

Variable w : World.

(** [new InvalidRoleError(roleName, projectName, filePath)]; a missing
    role name prints as [undefined]. *)
Definition InvalidRoleError (roleName : option string)
  (projectName filePath : string) : Thrown :=
  ErrorOf InvalidRoleErrorClass
    ("Invalid role "
       +++ match roleName with Some r => r | None => "undefined" end
       +++ " in project " +++ dq +++ projectName +++ dq
       +++ " for file ./" +++ path_relative w (cwd w) filePath +++ ".").

Definition InvalidProjectError (projectName filePath : string) : Thrown :=
  ErrorOf InvalidProjectErrorClass
    ("Invalid project " +++ dq +++ projectName +++ dq
       +++ " for file ./" +++ path_relative w (cwd w) filePath +++ ".").

Definition unknownProject (error : ZodIssue) (filePath : string)
  : option Thrown :=
  if String.eqb (code error) "unrecognized_keys" then
    match path error with
    | [Key first] =>
        if Js.includes first "roles" then
          let projectName := Js.at_index 0 (keys error) in
          Some (InvalidProjectError projectName filePath)
        else None
    | [Idx _] =>
        Some (ErrorOf TypeErrorClass
                "error.path[0].includes is not a function")
    | _ => None
    end
  else None.

(** [error.unionErrors.flatMap((e) => e.issues)
      .find((issue) => issue.code == "invalid_enum_value")?.received] *)
Definition receivedRole (error : ZodIssue) : option string :=
  match
    find (fun issue => String.eqb (code issue) "invalid_enum_value")
      (flat_map (fun e => e) (unionErrors error))
  with
  | Some issue => received issue
  | None => None
  end.

Definition invalidRole (error : ZodIssue) (filePath : string)
  : option Thrown :=
  if String.eqb (code error) "invalid_union" then
    let path := path_join_dot (path error) in
    if Js.includes path "roles." then
      let projectName := Js.at_index 1 (Js.split_dot path) in
      let roleName := receivedRole error in
      Some (InvalidRoleError roleName projectName filePath)
    else None
  else None.

Definition formatValidationError (error : ZodIssue) (filePath : string)
  : Completion Thrown string :=
  match unknownProject error filePath with
  | Some e => Throws e
  | None =>
      match invalidRole error filePath with
      | Some e => Throws e
      | None =>
          if nonempty (path error) then
            Returns (path_join_dot (path error) +++ ": " +++ message error)
          else Returns (message error)
      end
  end.

End Script.

End Part001.

(** ** The synchronous script ([part_000]) *)

Module Part000.

Section Script.

Variable w : World.
(** [TeamContributor] of [./schema.js]. *)
Variable TeamContributor : Schema.

Definition TEAM_DIR : string := path_resolve w (cwd w) "team".
Definition PROJECTS_FILE : string :=
  path_resolve w (cwd w) "code/data/projects.ts".

Definition TeamContributor_shape : list (string * Schema) :=
  match TeamContributor with
  | ZObject shape _ => shape
  | _ => []
  end.

Definition InvalidRoleError (projectName filePath : string) : Thrown :=
  ErrorOf InvalidRoleErrorClass
    ("Invalid role in project " +++ dq +++ projectName +++ dq
       +++ " for file " +++ filePath +++ ".").

Definition formatValidationError (error : ZodIssue) (filePath : string)
  : Completion Thrown string :=
  let escalated :=
    if String.eqb (code error) "invalid_union" then
      let path := path_join_dot (path error) in
      if Js.includes path "roles." then
        Some (InvalidRoleError (Js.at_index 1 (Js.split_dot path)) filePath)
      else None
    else None in
  match escalated with
  | Some e => Throws e
  | None =>
      if nonempty (path error) then
        Returns (path_join_dot (path error) +++ ": " +++ message error)
      else Returns (message error)
  end.

(** [TeamContributor.safeParse(data)] *)
Definition safeParse (data : Value) : Completion Thrown SafeParseReturn :=
  _ <- transformSocial_check w data ;;
  handleResult (parse SyncMode TeamContributor [] data).

(** [validateTeamFile(filePath)]: its [catch] lets nothing through, the
    result is always returned. *)
Definition validateTeamFile (filePath : string) : ValidationResult :=
  let result := mkResult filePath false [] [] in
  let attempt : Completion Thrown ValidationResult :=
    content <- call (readFileSync w filePath) ;;
    data <- call (yaml_parse w content) ;;
    validation <- safeParse data ;;
    match validation with
    | Success => Returns (mkResult filePath true [] [])
    | Failure errs =>
        formatted <-
          map_throwing (fun error => formatValidationError error filePath)
            errs ;;
        Returns (mkResult filePath false formatted [])
    end in
  match attempt with
  | Returns r => r
  | Throws error =>
      mkResult filePath false
        (errors result ++ [ "Failed to parse file: " +++ errorText error ])
        []
  end.

Definition isRecordFile (file : string) : bool :=
  Js.endsWith file ".yaml" || Js.endsWith file ".yml".

Definition recordFiles (names : list string) : list string :=
  map (path_join w TEAM_DIR) (filter isRecordFile names).

Definition enumerated : list string :=
  match readdirSync w TEAM_DIR with
  | Returns names => recordFiles names
  | Throws _ => []
  end.

Definition validateAllTeamFiles : Console * list ValidationResult :=
  match readdirSync w TEAM_DIR with
  | Returns names => ([], map validateTeamFile (recordFiles names))
  | Throws f =>
      ([ LogError ("Error reading team directory: "
                     +++ errorText (raised f)) ], [])
  end.

Definition runValidation (isWatchMode : bool) : Console :=
  let (logged, results) := validateAllTeamFiles in
  logged
    ++ printResults w TeamContributor_shape PROJECTS_FILE results
    ++ (if isWatchMode then [ Log "Waiting for more changes..." ] else []).

(** The top level: without the flag, one pass for the report and the
    directory validated once more for the exit status. *)
Definition main (argv : list string) : Console * ProcessEnd :=
  if isWatchMode argv then ([ Log "Time to watch 👀" ], Watching)
  else
    let printed := runValidation false in
    let (logged, results) := validateAllTeamFiles in
    let hasErrors := existsb (fun r => negb (isValid r)) results in
    (printed ++ logged, Exit (if hasErrors then 1 else 0)).

End Script.

End Part000.

(** ** A small repository to run the scripts on *)

Module Demo.

Definition record (name avatar : string) (roles : list (string * Value))
  : Value :=
  VObj [ ("name", VStr name); ("avatar", VStr avatar);
         ("roles", VObj roles) ].

(** A well-formed record. *)
Definition alice : Value :=
  record "Alice" "alice.png"
    [ ("Website", VArr [ VStr "Developer" ]);
      ("Volume 0 Issue 1",
        VArr [ VStr "Artist";
               VObj [ ("role", VStr "Proofreader");
                      ("details", VStr "chapter 2") ] ]) ].

(** Two keys under [roles] that are no project. *)
Definition bob : Value :=
  record "Bob" "alice.png"
    [ ("Bogus One", VArr []); ("Bogus Two", VArr []) ].

(** A number where a role of an unrestricted project is expected. *)
Definition carol : Value :=
  record "Carol" "alice.png" [ ("Website", VArr [ VNum 42 ]) ].

(** A role that the restricted project does not list. *)
Definition dave : Value :=
  record "Dave" "alice.png" [ ("Volume 0 Issue 1", VArr [ VStr "Wizard" ]) ].

(** A well-formed record whose avatar file is missing. *)
Definition erin : Value :=
  record "Erin" "erin.png" [ ("Website", VArr [ VStr "Developer" ]) ].

(** One key under [roles] that is no project. *)
Definition frank : Value :=
  record "Frank" "alice.png" [ ("Fanzine", VArr [ VStr "Editor" ]) ].

Definition files : list (string * Value) :=
  [ ("/repo/team/alice.yaml", alice);
    ("/repo/team/bob.yaml", bob);
    ("/repo/team/carol.yml", carol);
    ("/repo/team/dave.yaml", dave);
    ("/repo/team/erin.yaml", erin);
    ("/repo/team/frank.yaml", frank) ].

(** The text of a file stands for its path; [broken.yaml] is no YAML. *)
Definition parseDemo (content : string)
  : Completion ExternalFailure Value :=
  match lookup content files with
  | Some v => Returns v
  | None => Throws (FailsWith "Implicit map keys need to be followed by map values")
  end.

Definition stripPrefix (from to : string) : string :=
  if String.prefix (from +++ "/") to
  then String.substring (S (String.length from))
         (String.length to - S (String.length from)) to
  else to.

Definition world (names : Completion ExternalFailure (list string)) : World :=
  {| cwd := "/repo";
     readdirSync := fun _ => names;
     readFileSync := fun p => Returns p;
     yaml_parse := parseDemo;
     access := fun p => String.eqb p "/repo/team/alice.png";
     path_resolve := fun from to => from +++ "/" +++ to;
     path_join := fun dir name => dir +++ "/" +++ name;
     path_relative := stripPrefix;
     path_dirname := fun _ => "/repo/team";
     SocialsSchema := fun _ _ _ => OK;
     transformSocial_raises := fun _ => None |}.

Definition listing : list string :=
  [ "alice.yaml"; "bob.yaml"; "broken.yaml"; "carol.yml"; "dave.yaml";
    "erin.yaml"; "frank.yaml"; "README.md"; "alice.png" ].

Definition repo : World := world (Returns listing).

(** The same repository with no [team] directory. *)
Definition noTeamDir : World :=
  world (Throws (FailsWith "ENOENT: no such file or directory, scandir /repo/team")).

(** Promises settling in the order of their creation. *)
Definition inOrder : nat -> nat := fun i => i.

End Demo.

(** A record is shape-valid when the schema alone accepts it. *)
Definition shapeValid (w : World) (data : Value) : Prop :=
  parse AsyncMode (Part002.TeamContributor w) [] data = OK.

(** The condition the specification gives for the invalid-role escalation:
    a union failure whose field path begins with [roles.<project>] and
    whose nested failures include an enum mismatch. *)
Definition spec_role_escalation (error : ZodIssue) : bool :=
  String.eqb (code error) "invalid_union"
  && String.prefix "roles." (path_join_dot (path error))
  && existsb (fun issue => String.eqb (code issue) "invalid_enum_value")
       (flat_map (fun e => e) (unionErrors error)).

(** The condition of the scripts. *)
Definition code_role_escalation (error : ZodIssue) : bool :=
  String.eqb (code error) "invalid_union"
  && Js.includes (path_join_dot (path error)) "roles.".

(** The issue zod raises for the number in [carol.yml]. *)
Definition carol_issue : ZodIssue :=
  let p := [Key "roles"; Key "Website"; Idx 0] in
  invalid_union_issue p
    [ [ invalid_type_issue p "string" (VNum 42) ];
      [ invalid_type_issue p "object" (VNum 42) ] ].
(** Two runs see the same repository: the same working directory, listing,
    file contents, parser, files on disk, paths and contact schema. *)
Record sameWorld (w1 w2 : World) : Prop :=
  mkSame {
      same_cwd : cwd w1 = cwd w2;
      same_readdirSync : forall dir, readdirSync w1 dir = readdirSync w2 dir;
      same_readFileSync : forall p, readFileSync w1 p = readFileSync w2 p;
      same_yaml_parse : forall content, yaml_parse w1 content = yaml_parse w2 content;
      same_access : forall p, access w1 p = access w2 p;
      same_path_resolve : forall a b, path_resolve w1 a b = path_resolve w2 a b;
      same_path_join : forall a b, path_join w1 a b = path_join w2 a b;
      same_path_relative : forall a b, path_relative w1 a b = path_relative w2 a b;
      same_path_dirname : forall p, path_dirname w1 p = path_dirname w2 p;
      same_SocialsSchema :
        forall mode p v, SocialsSchema w1 mode p v = SocialsSchema w2 mode p v;
      same_transformSocial_raises :
        forall v, transformSocial_raises w1 v = transformSocial_raises w2 v
    }.

(** The call [f a] returns. *)
Definition returns {E A B : Type} (f : A -> Completion E B) (a : A) : Prop :=
  exists b, f a = Returns b.

Definition isInvalidType (issue : ZodIssue) : Prop :=
  code issue = "invalid_type".

(** ** What the schema of [part_004] accepts, read entry by entry

    A role is allowed for a project when the project lists no roles or
    lists this one; an entry is a bare role or an object with a role and
    string details; the roles of a project are absent or a list of entries;
    the roles object has no key but project names. *)

Definition roleAllowed (project role : string) : bool :=
  match lookup project PROJECT_ROLES with
  | Some roles => Js.mem role roles
  | None => true
  end.

Definition acceptedRole (project : string) (entry : Value) : bool :=
  match entry with
  | VStr role => roleAllowed project role
  | VObj fields =>
      match get "role" fields, get "details" fields with
      | VStr role, VStr _ => roleAllowed project role
      | _, _ => false
      end
  | _ => false
  end.

Definition acceptedRoleList (project : string) (v : Value) : bool :=
  match v with
  | VUndefined => true
  | VArr entries => forallb (acceptedRole project) entries
  | _ => false
  end.

Definition acceptedRoles (v : Value) : bool :=
  match v with
  | VObj roles =>
      forallb (fun key => Js.mem key PROJECTS) (map fst roles)
      && forallb (fun project => acceptedRoleList project (get project roles))
           PROJECTS
  | _ => false
  end.

Definition isString (v : Value) : bool :=
  match v with VStr _ => true | _ => false end.

Definition acceptedRecord (acceptedContacts : Value -> bool) (data : Value)
  : bool :=
  match data with
  | VObj fields =>
      isString (get "name" fields)
      && isString (get "avatar" fields)
      && acceptedRoles (get "roles" fields)
      && acceptedContacts (get "contacts" fields)
  | _ => false
  end.

(** The last lines of [formatValidationError]: the text of an issue that
    is not escalated. *)
Definition genericMessage (error : ZodIssue) : string :=
  if nonempty (path error)
  then path_join_dot (path error) +++ ": " +++ message error
  else message error.

(** A repository with one record file, [only.yaml], whose YAML parses as
    given; the rest is [Demo.repo]. *)
Definition oneFile (parsed : Completion ExternalFailure Value) : World :=
  {| cwd := "/repo";
     readdirSync := fun _ => Returns [ "only.yaml" ];
     readFileSync := fun p => Returns p;
     yaml_parse := fun _ => parsed;
     access := access Demo.repo;
     path_resolve := path_resolve Demo.repo;
     path_join := path_join Demo.repo;
     path_relative := path_relative Demo.repo;
     path_dirname := path_dirname Demo.repo;
     SocialsSchema := SocialsSchema Demo.repo;
     transformSocial_raises := fun _ => None |}.

(** A record with no name and a number for avatar. *)
Definition gina : Value :=
  VObj [ ("avatar", VNum 3); ("roles", VObj []) ].

(** A file is in order when it can be read, its YAML parses to a
    shape-valid record that the contact transform takes, and the avatar of
    the record exists beside it. *)
Definition inOrder002 (w : World) (filePath : string) : Prop :=
  exists content fields avatar,
    readFileSync w filePath = Returns content
    /\ yaml_parse w content = Returns (VObj fields)
    /\ transformSocial_raises w (VObj fields) = None
    /\ shapeValid w (VObj fields)
    /\ get "avatar" fields = VStr avatar
    /\ access w (path_resolve w (path_dirname w filePath) avatar) = true.

(** ** Watch mode ([part_002]): passes that overlap

    [runValidation] gives way at its [await]s; a watcher callback or the
    end of another pass may run in between.  One call is therefore three
    moves: entering (the controller is replaced, the opening line printed,
    the sleep started), the end of the sleep (every per-file check is
    started, which is where the signal is read) and the settling of
    [Promise.all] (the report, or nothing for an abort, then the
    [finally]).  A signal is the serial number of its controller. *)

Module Watch002.

(** What a watcher hands to its callback. *)
Inductive Change : Type :=
| TeamChange (eventType : string) (filename : option string)
| ProjectsChange (eventType : string)
| SchemaChange (eventType : string).

Inductive Move : Type :=
| Changed (c : Change)                       (* a watcher callback runs *)
| SleepOver (signal : nat) (w : World)       (* the repository as it is then *)
| Settled (signal : nat) (rank : nat -> nat) (* [Promise.all] settles *)
| Sigint.                                    (* the [SIGINT] handler runs *)

(** A call of [runValidation] that has not returned: asleep, or waiting
    for the checks it started on the repository it saw. *)
Record Pass : Type :=
  mkPass {
      pass_signal : nat;
      pass_checks : option (World * list (Completion Thrown ValidationResult))
    }.

Record State : Type :=
  mkState {
      currentValidationController : option nat;
      created : nat;                 (* controllers created so far *)
      abortedSignals : list nat;
      passes : list Pass;
      console : Console;
      exitStatus : option nat        (* set by [process.exit] *)
    }.

Section Script.

(** The repository when the script starts: its paths name the watched
    files. *)
Variable w0 : World.

Definition SCHEMA_FILE : string :=
  path_resolve w0 (cwd w0) "team/_schema/index.ts".

Definition isAborted (st : State) (signal : nat) : bool :=
  existsb (Nat.eqb signal) (abortedSignals st).

(** The first lines of [runValidation], up to the sleep. *)
Definition enter (st : State) : State :=
  mkState (Some (created st)) (S (created st))
    (match currentValidationController st with
     | Some s => s :: abortedSignals st
     | None => abortedSignals st
     end)
    (passes st ++ [ mkPass (created st) None ])
    (console st ++ [ Clear; Log "Running validation..." ])
    (exitStatus st).

Definition find_pass (signal : nat) (st : State) : option Pass :=
  find (fun p => Nat.eqb (pass_signal p) signal) (passes st).

Definition without_pass (signal : nat) (st : State) : list Pass :=
  filter (fun p => negb (Nat.eqb (pass_signal p) signal)) (passes st).

(** After the sleep: [validateAllTeamFiles(signal)]. *)
Definition sleepOver (signal : nat) (w : World) (st : State) : State :=
  match find_pass signal st with
  | Some (mkPass _ None) =>
      let (logged, promises) :=
        Part002.validateAllTeamFiles w (isAborted st signal) in
      mkState (currentValidationController st) (created st)
        (abortedSignals st)
        (without_pass signal st ++ [ mkPass signal (Some (w, promises)) ])
        (console st ++ logged)
        (exitStatus st)
  | _ => st
  end.

(** [if (currentValidationController?.signal === signal)
       currentValidationController = null] *)
Definition released (signal : nat) (st : State) : option nat :=
  match currentValidationController st with
  | Some s => if Nat.eqb s signal then None else Some s
  | None => None
  end.

(** The rest of [runValidation], called without argument by every caller
    of watch mode.  An exception other than the abort would come out of a
    call nobody awaits and end the process with status 1. *)
Definition settled (signal : nat) (rank : nat -> nat) (st : State) : State :=
  match find_pass signal st with
  | Some (mkPass _ (Some (w, promises))) =>
      let leave printed status :=
        mkState (released signal st) (created st) (abortedSignals st)
          (without_pass signal st) (console st ++ printed) status in
      match Promise_all rank promises with
      | Returns results =>
          leave
            (printResults w (Part002.TeamContributor_shape w)
               (Part002.PROJECTS_FILE w) results)
            (exitStatus st)
      | Throws error =>
          if isAbortError error then leave [] (exitStatus st)
          else leave [] (Some 1)
      end
  | _ => st
  end.

Definition log (line : string) (st : State) : State :=
  mkState (currentValidationController st) (created st) (abortedSignals st)
    (passes st) (console st ++ [ Log line ]) (exitStatus st).

(** The three watcher callbacks.  A missing file name prints as [null]. *)
Definition changed (c : Change) (st : State) : State :=
  match c with
  | TeamChange eventType filename =>
      let st' :=
        log (eventType +++ ": "
               +++ match filename with Some f => f | None => "null" end) st in
      match filename with
      | Some f => if Part002.isRecordFile f then enter st' else st'
      | None => st'
      end
  | ProjectsChange eventType =>
      enter (log (eventType +++ ": " +++ Part002.PROJECTS_FILE w0) st)
  | SchemaChange eventType =>
      enter (log (eventType +++ ": " +++ SCHEMA_FILE) st)
  end.

(** What a callback prints, and whether it goes on to call
    [runValidation]. *)
Definition callbackLine (c : Change) : string :=
  match c with
  | TeamChange eventType filename =>
      eventType +++ ": "
        +++ match filename with Some f => f | None => "null" end
  | ProjectsChange eventType => eventType +++ ": " +++ Part002.PROJECTS_FILE w0
  | SchemaChange eventType => eventType +++ ": " +++ SCHEMA_FILE
  end.

Definition triggers (c : Change) : bool :=
  match c with
  | TeamChange _ (Some f) => Part002.isRecordFile f
  | TeamChange _ None => false
  | _ => true
  end.

Definition isSigint (m : Move) : bool :=
  match m with Sigint => true | _ => false end.

(** At most one pass in flight holds a signal that is not aborted, and it
    is the signal of the current controller. *)
Definition oneLivePass (st : State) : Prop :=
  forall p,
    In p (passes st) ->
    isAborted st (pass_signal p) = false ->
    currentValidationController st = Some (pass_signal p).

(** What every state of watch mode keeps: signals are the serial numbers
    handed out so far, no two passes in flight share one, the current
    controller belongs to a pass in flight and is not aborted, and the
    checks of a pass only ever reject with the abort. *)
Record wellFormed (st : State) : Prop :=
  mkWellFormed {
      wf_fresh : forall p, In p (passes st) -> pass_signal p < created st;
      wf_aborted : forall s, In s (abortedSignals st) -> s < created st;
      wf_nodup : NoDup (map pass_signal (passes st));
      wf_current :
        forall s,
          currentValidationController st = Some s ->
          isAborted st s = false /\ In s (map pass_signal (passes st));
      wf_live : oneLivePass st;
      wf_checks :
        forall p w promises c e,
          In p (passes st) ->
          pass_checks p = Some (w, promises) ->
          In c promises -> c = Throws e -> e = AbortError
    }.

(** The [SIGINT] handler. *)
Definition sigint (st : State) : State :=
  mkState (currentValidationController st) (created st) (abortedSignals st)
    (passes st) (console st ++ [ Log (nl +++ "👋 Bye bye!") ]) (Some 0).

(** One move; nothing runs once the process has exited. *)
Definition step (st : State) (m : Move) : State :=
  match exitStatus st with
  | Some _ => st
  | None =>
      match m with
      | Changed c => changed c st
      | SleepOver signal w => sleepOver signal w st
      | Settled signal rank => settled signal rank st
      | Sigint => sigint st
      end
  end.

(** An exception that nothing catches ends the process with status 1. *)
Definition uncaught (st : State) : State :=
  mkState (currentValidationController st) (created st) (abortedSignals st)
    (passes st) (console st) (Some 1).

(** The three calls of [watch] in [startWatchMode], in their order: the
    team directory, the projects file, the schema file.  [watch] throws on
    a path that does not exist, and the first call that throws is the last
    one made. *)
Definition setWatchers (watch : string -> Completion ExternalFailure unit)
  : Completion Thrown unit :=
  _ <- call (watch (Part002.TEAM_DIR w0)) ;;
  _ <- call (watch (Part002.PROJECTS_FILE w0)) ;;
  call (watch SCHEMA_FILE).

(** [startWatchMode()]: the greeting, the first pass up to its sleep, then
    the watchers and the [SIGINT] handler.  A watcher that cannot be set
    throws out of the script. *)
Definition startWatchMode (watch : string -> Completion ExternalFailure unit)
  : State :=
  let st := enter (mkState None 0 [] [] [ Log "Time to watch 👀" ] None) in
  match setWatchers watch with
  | Returns _ => st
  | Throws _ => uncaught st
  end.

(** Watch mode from its start, then the moves. *)
Definition runFrom (watch : string -> Completion ExternalFailure unit)
  (moves : list Move) : State :=
  fold_left step moves (startWatchMode watch).

(** The three watched paths exist: every watcher is set. *)
Definition watchersSet : string -> Completion ExternalFailure unit :=
  fun _ => Returns tt.

(** Watch mode once its watchers are set, then the moves. *)
Definition run (moves : list Move) : State := runFrom watchersSet moves.

End Script.

End Watch002.

(** The role that a rejected entry of a restricted project states: the
    entry itself when it is a bare role, its [role] when it is an object;
    nothing when that is no string or is an allowed role. *)
Definition rejectedRoleName (allowed : list string) (entry : Value)
  : option string :=
  let stated :=
    match entry with
    | VStr role => Some role
    | VObj fields =>
        match get "role" fields with
        | VStr role => Some role
        | _ => None
        end
    | _ => None
    end in
  match stated with
  | Some role => if Js.mem role allowed then None else Some role
  | None => None
  end.

(** A record with three faults: no name, a key under [roles] that is no
    project, and a role that the restricted project does not list. *)
Definition hana : Value :=
  VObj [ ("avatar", VStr "alice.png");
         ("roles",
           VObj [ ("Fanzine", VArr [ VStr "Editor" ]);
                  ("Volume 0 Issue 1", VArr [ VStr "Wizard" ]) ]) ].

(** The three issues of [hana], as the asynchronous parse lists them. *)
Definition hana_issues : list ZodIssue :=
  let p := [Key "roles"; Key "Volume 0 Issue 1"; Idx 0] in
  [ invalid_type_issue [Key "name"] "string" VUndefined;
    unrecognized_keys_issue [Key "roles"] [ "Fanzine" ];
    invalid_union_issue p
      [ [ invalid_enum_issue p VOLUME_0_ISSUE_1_ROLES "Wizard" ];
        [ invalid_type_issue p "object" (VStr "Wizard") ] ] ].

(** The role entries of a project that its role schema rejects. *)
Definition rejectedEntries (project : string) (v : Value) : list Value :=
  match v with
  | VArr entries => filter (fun entry => negb (acceptedRole project entry)) entries
  | _ => []
  end.

(** A number as role of the unrestricted project [Website] and a role that
    the restricted project does not list. *)
Definition ivan : Value :=
  Demo.record "Ivan" "alice.png"
    [ ("Volume 0 Issue 1", VArr [ VStr "Wizard" ]);
      ("Website", VArr [ VNum 42 ]) ].

(** * Properties *)

Unset Implicit Arguments.

(** ** Maps that may throw, and [Promise.all] *)

Section Throwing.

Variables (E A B : Type) (f : A -> Completion E B).

Lemma map_throwing_stops (before : list A) (a : A) (after : list A) (e : E) :
  Forall (returns f) before ->
  f a = Throws e ->
  map_throwing f (before ++ a :: after) = Throws e.
Proof.
  intros Hb Ha. induction Hb as [|x l [b Hx] _ IH]; simpl.
  - now rewrite Ha.
  - now rewrite Hx, IH.
Qed.

Lemma map_throwing_first (l : list A) :
  (exists a e, In a l /\ f a = Throws e) ->
  exists before a after e,
    l = before ++ a :: after /\ Forall (returns f) before /\ f a = Throws e.
Proof.
  induction l as [|x l IH]; intros (a & e & Hin & Ha).
  - destruct Hin.
  - destruct (f x) as [b|e'] eqn:Hx.
    + destruct Hin as [->|Hin]; [congruence|].
      destruct IH as (before & a' & after & e2 & -> & Hb & Ha');
        [now exists a, e|].
      exists (x :: before), a', after, e2. repeat split; trivial.
      constructor; trivial. now exists b.
    + exists [], x, l, e'. repeat split; trivial.
Qed.

(** Either every element is mapped or the map throws what some element
    threw. *)
Lemma map_throwing_cases (l : list A) :
  (exists bs, map_throwing f l = Returns bs /\ List.length bs = List.length l)
  \/ (exists a e, In a l /\ f a = Throws e /\ map_throwing f l = Throws e).
Proof.
  induction l as [|x l IH]; simpl.
  - left. now exists [].
  - destruct (f x) as [b|e] eqn:Hx; simpl.
    + destruct IH as [(bs & -> & Hlen)|(a & e & Hin & Ha & ->)]; simpl.
      * left. exists (b :: bs). simpl. now rewrite Hlen.
      * right. exists a, e. auto.
    + right. exists x, e. auto.
Qed.

End Throwing.

Lemma earliest_all (rank : nat -> nat) (e : Thrown) (l : list (nat * Thrown))
  (best : nat * Thrown) :
  snd best = e -> Forall (fun c => snd c = e) l -> earliest rank best l = e.
Proof.
  intros Hbest Hl. revert best Hbest.
  induction Hl as [|c l Hc _ IH]; intros best Hbest; simpl; trivial.
  apply IH. now destruct (Nat.ltb _ _).
Qed.

Lemma rejections_map_throws (A B : Type) (e : Thrown) (l : list A) (i : nat) :
  rejections i (map (fun _ : A => @Throws Thrown B e) l)
  = map (fun k => (k, e)) (seq i (List.length l)).
Proof.
  revert i. induction l as [|x l IH]; intros i; simpl; trivial.
  now rewrite IH.
Qed.

(** When every promise rejects with the same reason, so does
    [Promise.all], whatever the order of settlement. *)
Lemma Promise_all_all_reject (A B : Type) (rank : nat -> nat) (e : Thrown)
  (l : list A) :
  l <> [] ->
  Promise_all rank (map (fun _ : A => @Throws Thrown B e) l) = Throws e.
Proof.
  intros Hl. unfold Promise_all. rewrite rejections_map_throws.
  destruct l as [|x l]; [congruence|]. simpl.
  f_equal. apply earliest_all; trivial.
  apply Forall_forall. intros c Hc. apply in_map_iff in Hc.
  now destruct Hc as (k & <- & _).
Qed.

(** ** The classifier of [part_002] *)

Section Classifier002.

Variable w : World.

Lemma formatValidationError_escalation (error : ZodIssue) (filePath : string) :
  match Part002.escalation w error filePath with
  | Some e => Part002.formatValidationError w error filePath = Throws e
  | None => exists s, Part002.formatValidationError w error filePath = Returns s
  end.
Proof.
  unfold Part002.escalation, Part002.formatValidationError.
  destruct (Part002.unknownProject w error filePath); trivial.
  destruct (Part002.invalidRole w error filePath); trivial.
  destruct (nonempty (path error)); eauto.
Qed.

Lemma escalation_is_no_abort (error : ZodIssue) (filePath : string) (e : Thrown) :
  Part002.escalation w error filePath = Some e -> isAbortError e = false.
Proof.
  unfold Part002.escalation, Part002.unknownProject, Part002.invalidRole.
  destruct (String.eqb (code error) "unrecognized_keys").
  - destruct (path error) as [|[first|i] [|]];
      try destruct (Js.includes first "roles");
      try (intros [= <-]; reflexivity);
      destruct (String.eqb (code error) "invalid_union");
      try destruct (Js.includes _ "roles.");
      try discriminate; intros [= <-]; reflexivity.
  - destruct (String.eqb (code error) "invalid_union");
      try destruct (Js.includes _ "roles.");
      try discriminate; intros [= <-]; reflexivity.
Qed.

(** The handler of [validateTeamFile] for anything but an abort. *)
Lemma validateTeamFile_failed_format (filePath content : string) (data : Value)
  (errs : list ZodIssue) (e : Thrown) :
  readFileSync w filePath = Returns content ->
  yaml_parse w content = Returns data ->
  Part002.safeParseAsync w filePath data = Returns (Failure errs) ->
  map_throwing (fun error => Part002.formatValidationError w error filePath) errs
  = Throws e ->
  isAbortError e = false ->
  Part002.validateTeamFile w filePath false
  = Returns (mkResult filePath false
               [ "Failed to parse file: " +++ errorText e ] []).
Proof.
  intros Hread Hparse Hsafe Hmap Habort.
  unfold Part002.validateTeamFile. simpl.
  rewrite Hread. simpl. rewrite Hparse. simpl. rewrite Hsafe. simpl.
  rewrite Hmap. simpl. now rewrite Habort.
Qed.

End Classifier002.

(** C5.  When an issue of a file makes the classifier escalate, the map
    over the issues stops at the first such issue and the handler of the
    file leaves exactly one error, the escalated message behind
    [Failed to parse file: ]; the other issues are not reported. *)
Theorem escalation_leaves_one_error (w : World) (filePath content : string)
  (data : Value) (errs : list ZodIssue) :
  readFileSync w filePath = Returns content ->
  yaml_parse w content = Returns data ->
  Part002.safeParseAsync w filePath data = Returns (Failure errs) ->
  (exists error,
      In error errs /\ Part002.escalation w error filePath <> None) ->
  exists before error after e,
    errs = before ++ error :: after
    /\ Forall (fun issue => Part002.escalation w issue filePath = None) before
    /\ Part002.escalation w error filePath = Some e
    /\ Part002.validateTeamFile w filePath false
       = Returns (mkResult filePath false
                    [ "Failed to parse file: " +++ errorText e ] []).
Proof.
  intros Hread Hparse Hsafe (error & Hin & Hesc).
  set (f := fun error => Part002.formatValidationError w error filePath).
  destruct (@map_throwing_first _ _ _ f errs)
    as (before & a & after & e & -> & Hbefore & Ha).
  { destruct (Part002.escalation w error filePath) as [e|] eqn:He;
      [|congruence].
    exists error, e. split; trivial.
    pose proof (formatValidationError_escalation w error filePath) as H.
    now rewrite He in H. }
  assert (Hea : Part002.escalation w a filePath = Some e).
  { pose proof (formatValidationError_escalation w a filePath) as H.
    destruct (Part002.escalation w a filePath) as [e'|].
    - unfold f in Ha. congruence.
    - destruct H as [s Hs]. unfold f in Ha. congruence. }
  exists before, a, after, e. repeat split; trivial.
  - apply Forall_forall. intros issue Hissue.
    rewrite Forall_forall in Hbefore. destruct (Hbefore issue Hissue) as [s Hs].
    pose proof (formatValidationError_escalation w issue filePath) as H.
    destruct (Part002.escalation w issue filePath); trivial.
    unfold f in Hs. congruence.
  - eapply validateTeamFile_failed_format; eauto.
    + now apply map_throwing_stops.
    + eapply escalation_is_no_abort; eauto.
Qed.

Lemma escalation_leaves_one_error_witness :
  Part002.safeParseAsync (oneFile (Returns hana)) "/repo/team/only.yaml" hana
  = Returns (Failure hana_issues)
  /\ (exists before error after e,
         hana_issues = before ++ error :: after
         /\ Forall
              (fun issue =>
                 Part002.escalation (oneFile (Returns hana)) issue
                   "/repo/team/only.yaml"
                 = None)
              before
         /\ Part002.escalation (oneFile (Returns hana)) error
              "/repo/team/only.yaml"
            = Some e
         /\ Part002.validateTeamFile (oneFile (Returns hana))
              "/repo/team/only.yaml" false
            = Returns (mkResult "/repo/team/only.yaml" false
                         [ "Failed to parse file: " +++ errorText e ] []))
  /\ Part002.validateTeamFile (oneFile (Returns hana))
       "/repo/team/only.yaml" false
     = Returns
         (mkResult "/repo/team/only.yaml" false
            [ "Failed to parse file: "
                +++ errorText
                      (Part002.InvalidProjectError (oneFile (Returns hana))
                         "Fanzine" "/repo/team/only.yaml") ]
            []).
Proof.
  split; [reflexivity|]. split; [|reflexivity].
  apply (@escalation_leaves_one_error (oneFile (Returns hana))
           "/repo/team/only.yaml" "/repo/team/only.yaml" hana hana_issues).
  - reflexivity.
  - reflexivity.
  - reflexivity.
  - exists (unrecognized_keys_issue [Key "roles"] [ "Fanzine" ]).
    split; [right; left; reflexivity|]. discriminate.
Defined.

(** ** The parsers of the schema *)

Lemma parse_ZObject (mode : ParseMode) (shape : list (string * Schema))
  (uk : UnknownKeys) (p : list PathSeg) (fields : list (string * Value)) :
  parse mode (ZObject shape uk) p (VObj fields)
  = let own := unknown_keys_issues uk p (extraKeys (map fst shape) fields) in
    merge (nonempty own) own (object_members mode p fields shape).
Proof.
  simpl. f_equal. unfold object_members.
  induction shape as [|[k sk] shape IH]; simpl; [reflexivity|].
  now rewrite IH.
Qed.

Lemma parse_ZArray (mode : ParseMode) (element : Schema) (p : list PathSeg)
  (items : list Value) :
  parse mode (ZArray element) p (VArr items)
  = merge false [] (array_members mode element p items 0).
Proof.
  simpl. f_equal. generalize 0.
  induction items as [|x items IH]; intros i; simpl; [reflexivity|].
  now rewrite IH.
Qed.

Lemma parse_ZDefault (mode : ParseMode) (inner : Schema) (d : Value)
  (p : list PathSeg) (v : Value) :
  parse mode (ZDefault inner d) p v
  = parse mode inner p (match v with VUndefined => d | _ => v end).
Proof. reflexivity. Qed.

Lemma parse_TeamContributor (mode : ParseMode) (S : Schema)
  (fields : list (string * Value)) :
  parse mode (Schema004.TeamContributor S) [] (VObj fields)
  = merge false []
      [ parse mode ZString [Key "name"] (get "name" fields);
        parse mode ZString [Key "avatar"] (get "avatar" fields);
        parse mode Schema004.Roles [Key "roles"] (get "roles" fields);
        parse mode (ZDefault (ZArray S) (VArr [])) [Key "contacts"]
          (get "contacts" fields) ].
Proof. reflexivity. Qed.

Lemma merge_status_member (self_dirty : bool) (members : list Outcome)
  (m : Outcome) :
  In m members -> status m <> valid -> merge_status self_dirty members <> valid.
Proof.
  intros Hin Hm. unfold merge_status.
  destruct (existsb is_aborted members) eqn:Ha; [discriminate|].
  replace (existsb is_dirty members) with true.
  - rewrite orb_true_r. discriminate.
  - symmetry. apply existsb_exists. exists m. split; trivial.
    unfold is_dirty. destruct (status m) eqn:Hs; trivial; [congruence|].
    assert (existsb is_aborted members = true); [|congruence].
    apply existsb_exists. exists m. split; trivial.
    unfold is_aborted. now rewrite Hs.
Qed.

Lemma merge_status_valid (self_dirty : bool) (members : list Outcome)
  (m : Outcome) :
  merge_status self_dirty members <> aborted -> In m members ->
  status m <> aborted.
Proof.
  unfold merge_status. intros H Hin Hm.
  destruct (existsb is_aborted members) eqn:Ha; [congruence|].
  assert (existsb is_aborted members = true); [|congruence].
  apply existsb_exists. exists m. split; trivial.
  unfold is_aborted. now rewrite Hm.
Qed.

(** A string parser only lets a string through. *)
Lemma parse_ZString_not_aborted (mode : ParseMode) (p : list PathSeg)
  (v : Value) :
  status (parse mode ZString p v) <> aborted -> exists s, v = VStr s.
Proof. destruct v; simpl; try congruence. eauto. Qed.

(** An asynchronous union adds nothing on the spot. *)
Lemma union_async_now (options : list Schema) (p : list PathSeg) (v : Value) :
  now (parse AsyncMode (ZUnion options) p v) = [].
Proof.
  simpl. unfold handleResults.
  destruct (existsb is_valid _); [reflexivity|].
  now destruct (find is_dirty _).
Qed.

Lemma array_members_union_async_now (options : list Schema) (p : list PathSeg)
  (items : list Value) (i : nat) :
  List.concat (map now (array_members AsyncMode (ZUnion options) p items i))
  = [].
Proof.
  revert i. induction items as [|x items IH]; intros i; [reflexivity|].
  cbn [array_members map List.concat]. now rewrite union_async_now, IH.
Qed.

(** Parsed asynchronously, the role list of a project adds at most a type
    error on the spot. *)
Lemma project_roles_async_now (roleType : Schema) (p : list PathSeg) (v : Value) :
  Forall isInvalidType
    (now (parse AsyncMode (ZDefault (ZArray (Role roleType)) (VArr [])) p v)).
Proof.
  rewrite parse_ZDefault.
  assert (H : forall v', Forall isInvalidType
                           (now (parse AsyncMode (ZArray (Role roleType)) p v'))).
  { intros v'. destruct v' as [| | | | |items|];
      try (repeat constructor; fail).
    rewrite parse_ZArray. unfold merge, Role. cbn [now].
    rewrite array_members_union_async_now. constructor. }
  apply H.
Qed.

Lemma roles_members_async_now (projects : list string) (p : list PathSeg)
  (fields : list (string * Value)) :
  Forall isInvalidType
    (List.concat
       (map now
          (object_members AsyncMode p fields
             (map (fun project =>
                     (project,
                       ZDefault (ZArray (Role (Schema004.roleTypeOf project)))
                         (VArr [])))
                projects)))).
Proof.
  induction projects as [|project projects IH]; [constructor|].
  unfold object_members in *. cbn [map List.concat fst snd].
  apply Forall_app. split; trivial. apply project_roles_async_now.
Qed.

Lemma RolesFor_keys (projects : list string) :
  map fst
    (map (fun project =>
            (project,
              ZDefault (ZArray (Role (Schema004.roleTypeOf project))) (VArr [])))
       projects)
  = projects.
Proof. rewrite map_map. apply map_id. Qed.

(** The roles object of [part_004], parsed on an object: the members, then
    the keys that are no project. *)
Lemma parse_Roles (mode : ParseMode) (p : list PathSeg)
  (roles : list (string * Value)) :
  exists members,
    parse mode Schema004.Roles p (VObj roles)
    = (let own := unknown_keys_issues strict p (extraKeys PROJECTS roles) in
       merge (nonempty own) own members)
    /\ (mode = AsyncMode ->
        Forall isInvalidType (List.concat (map now members))).
Proof.
  unfold Schema004.Roles, Schema004.RolesFor. rewrite parse_ZObject.
  rewrite RolesFor_keys. eexists. split; [reflexivity|].
  intros ->. apply roles_members_async_now.
Qed.

Lemma extraKeys_In (shapeKeys : list string) (fields : list (string * Value))
  (k : string) :
  In k (map fst fields) -> Js.mem k shapeKeys = false ->
  In k (extraKeys shapeKeys fields).
Proof.
  intros Hin Hmem. unfold extraKeys. apply filter_In. split; trivial.
  now rewrite Hmem.
Qed.

Lemma nonempty_In (A : Type) (x : A) (l : list A) : In x l -> nonempty l = true.
Proof. destruct l; simpl; [tauto|reflexivity]. Qed.

Lemma parse_ZString_now (mode : ParseMode) (p : list PathSeg) (v : Value) :
  Forall isInvalidType (now (parse mode ZString p v)).
Proof. destruct v; simpl; repeat constructor. Qed.

(** C6.  With the schema of [part_004], a record whose roles object has a
    key that is no project fails validation, in either parse mode, and the
    key is reported in an [unrecognized_keys] issue at [roles]: it is not
    dropped. *)
Theorem strict_roles_reject_unknown_keys (mode : ParseMode) (S : Schema)
  (fields roles : list (string * Value)) (k : string) :
  get "roles" fields = VObj roles ->
  In k (map fst roles) ->
  Js.mem k PROJECTS = false ->
  let o := parse mode (Schema004.TeamContributor S) [] (VObj fields) in
  handleResult o = Returns (Failure (issues o))
  /\ exists issue,
      In issue (issues o)
      /\ code issue = "unrecognized_keys"
      /\ path issue = [Key "roles"]
      /\ In k (keys issue).
Proof.
  intros Hroles Hk Hmem o.
  pose proof (extraKeys_In _ _ _ Hk Hmem) as Hextra.
  destruct (parse_Roles mode [Key "roles"] roles) as (members & HR & _).
  cbv zeta in HR. unfold unknown_keys_issues in HR.
  rewrite (nonempty_In _ _ _ Hextra) in HR. cbn [nonempty] in HR.
  set (u := unrecognized_keys_issue [Key "roles"] (extraKeys PROJECTS roles)) in *.
  set (R := parse mode Schema004.Roles [Key "roles"] (VObj roles)) in *.
  assert (HRst : status R <> valid).
  { rewrite HR. unfold merge, merge_status. cbn [status orb].
    destruct (existsb is_aborted members); discriminate. }
  assert (HRu : In u (now R)).
  { rewrite HR. unfold merge. cbn [now]. apply in_or_app. right. now left. }
  assert (Ho : o = merge false []
                     [ parse mode ZString [Key "name"] (get "name" fields);
                       parse mode ZString [Key "avatar"] (get "avatar" fields);
                       R;
                       parse mode (ZDefault (ZArray S) (VArr []))
                         [Key "contacts"] (get "contacts" fields) ]).
  { unfold o, R. rewrite parse_TeamContributor. now rewrite Hroles. }
  assert (Hu : In u (issues o)).
  { rewrite Ho. unfold issues, merge. cbn [now map List.concat].
    apply in_or_app. left. rewrite app_nil_r.
    apply in_or_app. right. apply in_or_app. right.
    apply in_or_app. left. exact HRu. }
  split.
  - assert (Hst : status o <> valid).
    { rewrite Ho. unfold merge. cbn [status].
      apply merge_status_member with (m := R); trivial. simpl. auto. }
    unfold handleResult. rewrite (nonempty_In _ _ _ Hu).
    destruct (status o); congruence.
  - exists u. repeat split; trivial.
Qed.

Lemma strict_roles_reject_unknown_keys_witness :
  let o :=
    parse AsyncMode (Schema004.TeamContributor (ZOpaque (fun _ _ _ => OK))) []
      Demo.bob in
  handleResult o = Returns (Failure (issues o))
  /\ exists issue,
      In issue (issues o)
      /\ code issue = "unrecognized_keys"
      /\ path issue = [Key "roles"]
      /\ In "Bogus Two" (keys issue).
Proof.
  apply (@strict_roles_reject_unknown_keys AsyncMode
           (ZOpaque (fun _ _ _ => OK))
           [ ("name", VStr "Bob"); ("avatar", VStr "alice.png");
             ("roles", VObj [ ("Bogus One", VArr []); ("Bogus Two", VArr []) ]) ]
           [ ("Bogus One", VArr []); ("Bogus Two", VArr []) ] "Bogus Two").
  - reflexivity.
  - simpl. auto.
  - reflexivity.
Defined.

(** C6, as stated, on [code/schema.ts].  This snapshot builds the roles
    object without [strict()]: the same record, whose roles hold two keys
    that are no project, passes validation in either mode, whatever the
    roles of the projects; the keys are dropped without a word. *)
Lemma first_schema_drops_unknown_keys :
  (In "Bogus One" (map fst [ ("Bogus One", VArr []); ("Bogus Two", VArr []) ])
   /\ Js.mem "Bogus One" PROJECTS = false)
  /\ forall (mode : ParseMode) (projectRoles : list (string * Schema)),
      handleResult
        (parse mode
           (SchemaFirst.TeamContributor projectRoles (ZOpaque (fun _ _ _ => OK)))
           [] Demo.bob)
      = Returns Success.
Proof.
  split; [split; [simpl; auto|reflexivity]|].
  intros mode projectRoles. reflexivity.
Qed.

(** ** The avatar check and the report of one file ([part_002]) *)

Section File002.

Variable w : World.

(** The refinement always comes back on a record that is an object: a
    parse that was not aborted has seen a string avatar. *)
Lemma superRefine_spec (filePath : string) (fields : list (string * Value)) :
  let o := parse AsyncMode (Part002.TeamContributor w) [] (VObj fields) in
  exists r added,
    Part002.superRefine w filePath (VObj fields) o = Returns r
    /\ now r = now o
    /\ later r = later o ++ added
    /\ ((status o = aborted /\ added = [] /\ status r = aborted)
        \/ (exists avatar,
               get "avatar" fields = VStr avatar
               /\ added = Part002.avatarCheck w filePath avatar
               /\ status r
                  = if nonempty added then dirty else status o)).
Proof.
  intros o. unfold Part002.superRefine.
  destruct (status o) eqn:Hst.
  1, 2:
    assert (Hav : exists avatar, get "avatar" fields = VStr avatar)
      by (apply (parse_ZString_not_aborted AsyncMode [Key "avatar"]);
          apply (merge_status_valid false
                   [ parse AsyncMode ZString [Key "name"] (get "name" fields);
                     parse AsyncMode ZString [Key "avatar"]
                       (get "avatar" fields);
                     parse AsyncMode Schema004.Roles [Key "roles"]
                       (get "roles" fields);
                     parse AsyncMode
                       (ZDefault (ZArray (ZOpaque (SocialsSchema w))) (VArr []))
                       [Key "contacts"] (get "contacts" fields) ]);
          [ change (status o <> aborted); congruence | simpl; auto ]);
    destruct Hav as [avatar Hav]; rewrite Hav;
    eexists; exists (Part002.avatarCheck w filePath avatar);
    (split; [reflexivity|]); cbn [now later status];
    repeat split; right; exists avatar; auto.
  exists o, []. rewrite app_nil_r. repeat split. left. auto.
Qed.

Lemma invalid_type_is_formatted (filePath : string) (issue : ZodIssue) :
  isInvalidType issue ->
  returns (fun error => Part002.formatValidationError w error filePath) issue.
Proof.
  intros H. red in H.
  pose proof (formatValidationError_escalation w issue filePath) as Hf.
  unfold Part002.escalation, Part002.unknownProject, Part002.invalidRole in Hf.
  rewrite H in Hf. exact Hf.
Qed.

Lemma unrecognized_role_key_escalates (filePath k : string)
  (rest : list string) :
  Part002.formatValidationError w
    (unrecognized_keys_issue [Key "roles"] (k :: rest)) filePath
  = Throws (Part002.InvalidProjectError w k filePath).
Proof. reflexivity. Qed.

End File002.

(** C3.  With the asynchronous parse of [part_002] and the schema of
    [part_004], a record whose roles object holds keys that are no project
    gets exactly one error: the invalid-project message naming the first
    such key in the order of the record.  Type errors raised before it are
    not escalated, union failures are reported after it, and the generic
    text of [unrecognized_keys] is never printed. *)
Theorem unknown_project_is_reported (w : World) (filePath content : string)
  (fields roles : list (string * Value)) (k : string) (rest : list string) :
  readFileSync w filePath = Returns content ->
  yaml_parse w content = Returns (VObj fields) ->
  transformSocial_raises w (VObj fields) = None ->
  get "roles" fields = VObj roles ->
  extraKeys PROJECTS roles = k :: rest ->
  Part002.validateTeamFile w filePath false
  = Returns
      (mkResult filePath false
         [ "Failed to parse file: "
             +++ errorText (Part002.InvalidProjectError w k filePath) ]
         []).
Proof.
  intros Hread Hparse Hraise Hroles Hextra.
  destruct (superRefine_spec w filePath fields)
    as (r & added & Hrefine & Hnow & Hlater & Hstatus).
  set (o := parse AsyncMode (Part002.TeamContributor w) [] (VObj fields)) in *.
  destruct (parse_Roles AsyncMode [Key "roles"] roles) as (members & HR & Hpre).
  specialize (Hpre eq_refl). cbv zeta in HR.
  unfold unknown_keys_issues in HR. rewrite Hextra in HR. cbn [nonempty] in HR.
  set (u := unrecognized_keys_issue [Key "roles"] (k :: rest)) in *.
  set (R := parse AsyncMode Schema004.Roles [Key "roles"] (VObj roles)) in *.
  set (N := parse AsyncMode ZString [Key "name"] (get "name" fields)).
  set (A := parse AsyncMode ZString [Key "avatar"] (get "avatar" fields)).
  set (C := parse AsyncMode
              (ZDefault (ZArray (ZOpaque (SocialsSchema w))) (VArr []))
              [Key "contacts"] (get "contacts" fields)).
  assert (Ho : o = merge false [] [N; A; R; C]).
  { unfold o, Part002.TeamContributor. rewrite parse_TeamContributor.
    now rewrite Hroles. }
  assert (HRst : status R <> valid).
  { rewrite HR. unfold merge, merge_status. cbn [status orb].
    destruct (existsb is_aborted members); discriminate. }
  assert (Host : status o <> valid).
  { rewrite Ho. unfold merge. cbn [status].
    apply merge_status_member with (m := R); trivial. simpl. auto. }
  assert (Hissues :
           issues r
           = (now N ++ now A ++ List.concat (map now members))
               ++ u :: (now C ++ later r)).
  { unfold issues. rewrite Hnow, Ho. unfold merge. cbn [now map List.concat].
    rewrite HR. unfold merge. cbn [now].
    rewrite !app_nil_r, <- !app_assoc. reflexivity. }
  assert (Hrst : status r <> valid).
  { destruct Hstatus as [(_ & _ & ->)|(avatar & _ & _ & ->)]; [discriminate|].
    destruct (nonempty added); [discriminate|trivial]. }
  assert (Hsafe : Part002.safeParseAsync w filePath (VObj fields)
                  = Returns (Failure (issues r))).
  { unfold Part002.safeParseAsync, transformSocial_check. rewrite Hraise.
    cbn [bind]. fold o. rewrite Hrefine. cbn [bind].
    assert (Hne : nonempty (issues r) = true).
    { apply nonempty_In with (x := u). rewrite Hissues.
      apply in_or_app. right. now left. }
    unfold handleResult. rewrite Hne.
    destruct (status r) eqn:Hr; congruence. }
  eapply validateTeamFile_failed_format; eauto.
  rewrite Hissues. apply map_throwing_stops.
  - apply Forall_impl with (P := isInvalidType);
      [apply invalid_type_is_formatted|].
    repeat (apply Forall_app; split); trivial; apply parse_ZString_now.
  - apply unrecognized_role_key_escalates.
Qed.

Lemma unknown_project_is_reported_witness :
  Part002.validateTeamFile Demo.repo "/repo/team/frank.yaml" false
  = Returns
      (mkResult "/repo/team/frank.yaml" false
         [ "Failed to parse file: "
             +++ errorText
                   (Part002.InvalidProjectError Demo.repo "Fanzine"
                      "/repo/team/frank.yaml") ]
         []).
Proof.
  apply (unknown_project_is_reported Demo.repo "/repo/team/frank.yaml"
           "/repo/team/frank.yaml"
           [ ("name", VStr "Frank"); ("avatar", VStr "alice.png");
             ("roles", VObj [ ("Fanzine", VArr [ VStr "Editor" ]) ]) ]
           [ ("Fanzine", VArr [ VStr "Editor" ]) ] "Fanzine" []);
    reflexivity.
Defined.

(** C3, as stated.  [bob.yaml] holds two keys under [roles] that are no
    project; its report names the first and nowhere the second. *)
Lemma second_unknown_project_is_not_named :
  (In "Bogus Two" (map fst [ ("Bogus One", VArr []); ("Bogus Two", VArr []) ])
   /\ Js.mem "Bogus Two" PROJECTS = false)
  /\ exists r,
      Part002.validateTeamFile Demo.repo "/repo/team/bob.yaml" false
      = Returns r
      /\ forallb (fun error => negb (Js.includes error "Bogus Two")) (errors r)
         = true.
Proof.
  split; [split; [simpl; auto|reflexivity]|].
  eexists. split; reflexivity.
Qed.

(** C7.  For a shape-valid record the refinement decides alone: when the
    avatar, resolved against the directory of the record file, exists the
    file is valid with no error; when it does not, the file has exactly
    one error, at [avatar], naming the resolved path relative to the
    working directory.  On any record the refinement leaves the issues of
    the schema as they are and adds at most one after them. *)
Theorem missing_avatar_adds_one_error (w : World) (filePath content : string)
  (data : Value) :
  readFileSync w filePath = Returns content ->
  yaml_parse w content = Returns data ->
  transformSocial_raises w data = None ->
  shapeValid w data ->
  exists fields avatar,
    data = VObj fields
    /\ get "avatar" fields = VStr avatar
    /\ (let avatarPath := path_resolve w (path_dirname w filePath) avatar in
        Part002.validateTeamFile w filePath false
        = Returns
            (if access w avatarPath then mkResult filePath true [] []
             else
               mkResult filePath false
                 [ "avatar: No avatar file found at ./"
                     +++ path_relative w (cwd w) avatarPath ]
                 []))
    /\ forall record,
        let o := parse AsyncMode (Part002.TeamContributor w) [] (VObj record) in
        exists r added,
          Part002.superRefine w filePath (VObj record) o = Returns r
          /\ issues r = issues o ++ added
          /\ List.length added <= 1.
Proof.
  intros Hread Hparse Hraise Hvalid. unfold shapeValid in Hvalid.
  destruct data as [| | | | | |fields]; try discriminate Hvalid.
  destruct (superRefine_spec w filePath fields)
    as (r & added & Hrefine & Hnow & Hlater & Hstatus).
  rewrite Hvalid in Hrefine, Hnow, Hlater, Hstatus.
  cbn [status now later OK app] in Hnow, Hlater, Hstatus.
  destruct Hstatus as [(Habs & _)|(avatar & Hav & Hadded & Hst)];
    [discriminate|].
  exists fields, avatar. split; [reflexivity|]. split; [exact Hav|].
  split.
  2: { intros record o.
       destruct (superRefine_spec w filePath record)
         as (r' & added' & Hr' & Hnow' & Hlater' & Hst').
       exists r', added'. split; [exact Hr'|]. split.
       - unfold issues. fold o in Hnow', Hlater'.
         now rewrite Hnow', Hlater', app_assoc.
       - destruct Hst' as [(_ & -> & _)|(a & _ & -> & _)]; [simpl; lia|].
         unfold Part002.avatarCheck. destruct (access w _); simpl; lia. }
  intros avatarPath.
  assert (Hsafe :
           Part002.safeParseAsync w filePath (VObj fields)
           = Returns (if access w avatarPath then Success else Failure added)).
  { unfold Part002.safeParseAsync, transformSocial_check. rewrite Hraise.
    cbn [bind]. rewrite Hvalid, Hrefine. cbn [bind].
    unfold handleResult, issues. rewrite Hst, Hnow, Hlater, Hadded.
    unfold Part002.avatarCheck. fold avatarPath.
    now destruct (access w avatarPath). }
  unfold Part002.validateTeamFile. cbn [bind try_catch].
  rewrite Hread. cbn [call bind]. rewrite Hparse. cbn [call bind].
  rewrite Hsafe. cbn [bind]. rewrite Hadded. unfold Part002.avatarCheck.
  fold avatarPath. now destruct (access w avatarPath).
Qed.

Lemma missing_avatar_adds_one_error_witness :
  exists fields avatar,
    Demo.erin = VObj fields
    /\ get "avatar" fields = VStr avatar
    /\ (let avatarPath :=
          path_resolve Demo.repo
            (path_dirname Demo.repo "/repo/team/erin.yaml") avatar in
        Part002.validateTeamFile Demo.repo "/repo/team/erin.yaml" false
        = Returns
            (if access Demo.repo avatarPath
             then mkResult "/repo/team/erin.yaml" true [] []
             else
               mkResult "/repo/team/erin.yaml" false
                 [ "avatar: No avatar file found at ./"
                     +++ path_relative Demo.repo (cwd Demo.repo) avatarPath ]
                 []))
    /\ forall record,
        let o :=
          parse AsyncMode (Part002.TeamContributor Demo.repo) [] (VObj record) in
        exists r added,
          Part002.superRefine Demo.repo "/repo/team/erin.yaml" (VObj record) o
          = Returns r
          /\ issues r = issues o ++ added
          /\ List.length added <= 1.
Proof.
  apply (missing_avatar_adds_one_error Demo.repo "/repo/team/erin.yaml"
           "/repo/team/erin.yaml" Demo.erin); reflexivity.
Defined.

(** ** When the classifiers escalate to an invalid role *)

Lemma not_both_codes (error : ZodIssue) :
  String.eqb (code error) "invalid_union" = true ->
  String.eqb (code error) "unrecognized_keys" = false.
Proof. intros H. apply String.eqb_eq in H. now rewrite H. Qed.

Lemma role_escalation_002 (w : World) (error : ZodIssue) (filePath : string) :
  Part002.formatValidationError w error filePath
  = (if code_role_escalation error then
       Throws
         (Part002.InvalidRoleError w
            (Js.at_index 1 (Js.split_dot (path_join_dot (path error))))
            filePath)
     else
       match Part002.unknownProject w error filePath with
       | Some e => Throws e
       | None =>
           Returns
             (if nonempty (path error)
              then path_join_dot (path error) +++ ": " +++ message error
              else message error)
       end).
Proof.
  unfold Part002.formatValidationError, code_role_escalation,
    Part002.invalidRole.
  destruct (String.eqb (code error) "invalid_union") eqn:Hu.
  - unfold Part002.unknownProject. rewrite (not_both_codes _ Hu). cbn [andb].
    destruct (Js.includes _ "roles."); trivial.
    now destruct (nonempty (path error)).
  - cbn [andb]. destruct (Part002.unknownProject w error filePath); trivial.
    now destruct (nonempty (path error)).
Qed.

Lemma role_escalation_001 (w : World) (error : ZodIssue) (filePath : string) :
  Part001.formatValidationError w error filePath
  = (if code_role_escalation error then
       Throws
         (Part001.InvalidRoleError w (Part001.receivedRole error)
            (Js.at_index 1 (Js.split_dot (path_join_dot (path error))))
            filePath)
     else
       match Part001.unknownProject w error filePath with
       | Some e => Throws e
       | None =>
           Returns
             (if nonempty (path error)
              then path_join_dot (path error) +++ ": " +++ message error
              else message error)
       end).
Proof.
  unfold Part001.formatValidationError, code_role_escalation,
    Part001.invalidRole.
  destruct (String.eqb (code error) "invalid_union") eqn:Hu.
  - unfold Part001.unknownProject. rewrite (not_both_codes _ Hu). cbn [andb].
    destruct (Js.includes _ "roles."); trivial.
    now destruct (nonempty (path error)).
  - cbn [andb]. destruct (Part001.unknownProject w error filePath); trivial.
    now destruct (nonempty (path error)).
Qed.

(** The first [if] never throws an invalid-role error. *)
Lemma unknownProject_class_002 (w : World) (error : ZodIssue)
  (filePath msg : string) :
  Part002.unknownProject w error filePath
  <> Some (ErrorOf InvalidRoleErrorClass msg).
Proof.
  unfold Part002.unknownProject, Part002.InvalidProjectError.
  destruct (String.eqb _ _); [|discriminate].
  destruct (path error) as [|[first|i] [|]]; try discriminate.
  destruct (Js.includes first "roles"); discriminate.
Qed.

Lemma unknownProject_class_001 (w : World) (error : ZodIssue)
  (filePath msg : string) :
  Part001.unknownProject w error filePath
  <> Some (ErrorOf InvalidRoleErrorClass msg).
Proof.
  unfold Part001.unknownProject, Part001.InvalidProjectError.
  destruct (String.eqb _ _); [|discriminate].
  destruct (path error) as [|[first|i] [|]]; try discriminate.
  destruct (Js.includes first "roles"); discriminate.
Qed.

(** A role outside an enumeration fails both options of [Role]. *)
Lemma role_outside_enum (mode : ParseMode) (values : list string)
  (p : list PathSeg) (role : string) :
  Js.mem role values = false ->
  issues (parse mode (Role (ZEnum values)) p (VStr role))
  = [ invalid_union_issue p
        [ [ invalid_enum_issue p values role ];
          [ invalid_type_issue p "object" (VStr role) ] ] ].
Proof. intros H. simpl. rewrite H. now destruct mode. Qed.

Lemma detailed_role_outside_enum (mode : ParseMode) (values : list string)
  (p : list PathSeg) (role details : string) :
  Js.mem role values = false ->
  issues
    (parse mode (Role (ZEnum values)) p
       (VObj [ ("role", VStr role); ("details", VStr details) ]))
  = [ invalid_union_issue p
        [ [ invalid_type_issue p (joinValues " | " values)
              (VObj [ ("role", VStr role); ("details", VStr details) ]) ];
          [ invalid_enum_issue (p ++ [Key "role"]) values role ] ] ].
Proof. intros H. simpl. rewrite H. now destruct mode. Qed.

Lemma restricted_project (project : string) (roles : list string) :
  lookup project PROJECT_ROLES = Some roles ->
  project = "Volume 0 Issue 1" /\ roles = VOLUME_0_ISSUE_1_ROLES.
Proof.
  unfold PROJECT_ROLES. cbn [lookup].
  destruct (String.eqb "Volume 0 Issue 1" project) eqn:E; [|discriminate].
  apply String.eqb_eq in E. intros [= <-]. now split.
Qed.

(** ** One file never stops the pass ([part_002]) *)

Section Isolation.

Variable w : World.

Lemma raised_is_no_abort (f : ExternalFailure) : isAbortError (raised f) = false.
Proof. now destruct f. Qed.

Lemma safeParseAsync_throws (filePath : string) (data : Value) (e : Thrown) :
  Part002.safeParseAsync w filePath data = Throws e -> isAbortError e = false.
Proof.
  unfold Part002.safeParseAsync, transformSocial_check.
  destruct (transformSocial_raises w data) as [f|]; cbn [bind].
  - intros [= <-]. apply raised_is_no_abort.
  - destruct (Part002.superRefine w filePath data _) as [r|e'] eqn:Hr;
      cbn [bind].
    + unfold handleResult.
      destruct (status r); try discriminate;
        destruct (nonempty (issues r)); try discriminate;
        intros [= <-]; reflexivity.
    + intros [= <-]. unfold Part002.superRefine in Hr.
      destruct (status _); try discriminate;
        destruct data as [| | | | | |fields]; try (injection Hr as <-; reflexivity);
        destruct (get "avatar" fields); try discriminate;
        injection Hr as <-; reflexivity.
Qed.

Lemma safeParseAsync_failure (filePath : string) (data : Value)
  (errs : list ZodIssue) :
  Part002.safeParseAsync w filePath data = Returns (Failure errs) ->
  errs <> [].
Proof.
  unfold Part002.safeParseAsync, transformSocial_check.
  destruct (transformSocial_raises w data); cbn [bind]; [discriminate|].
  destruct (Part002.superRefine w filePath data _) as [r|e']; cbn [bind];
    [|discriminate].
  unfold handleResult.
  destruct (status r); try discriminate;
    destruct (issues r); cbn [nonempty]; try discriminate;
    intros [= <-]; discriminate.
Qed.

Lemma map_format_throws (filePath : string) (errs : list ZodIssue)
  (e : Thrown) :
  map_throwing (fun error => Part002.formatValidationError w error filePath)
    errs = Throws e ->
  isAbortError e = false.
Proof.
  intros H.
  destruct (map_throwing_cases _ _ _
              (fun error => Part002.formatValidationError w error filePath) errs)
    as [(bs & Hbs & _)|(a & e' & _ & Ha & Hm)]; [congruence|].
  assert (e' = e) by congruence. subst e'.
  pose proof (formatValidationError_escalation w a filePath) as Hf.
  destruct (Part002.escalation w a filePath) as [e'|] eqn:He.
  - assert (e' = e) by congruence. subst e'.
    eapply escalation_is_no_abort; eauto.
  - destruct Hf as [s Hs]. congruence.
Qed.

(** Without cancellation [validateTeamFile] always returns the result of
    its file: valid with no error, or invalid with at least one. *)
Lemma validateTeamFile_returns (filePath : string) :
  exists r,
    Part002.validateTeamFile w filePath false = Returns r
    /\ file r = filePath
    /\ ((isValid r = true /\ errors r = [])
        \/ (isValid r = false /\ errors r <> [])).
Proof.
  unfold Part002.validateTeamFile. cbn [bind].
  destruct (readFileSync w filePath) as [content|f]; cbn [call bind try_catch].
  2: { rewrite raised_is_no_abort. eexists. split; [reflexivity|].
       split; trivial. right. split; trivial. discriminate. }
  destruct (yaml_parse w content) as [data|f]; cbn [call bind try_catch].
  2: { rewrite raised_is_no_abort. eexists. split; [reflexivity|].
       split; trivial. right. split; trivial. discriminate. }
  destruct (Part002.safeParseAsync w filePath data) as [[|errs]|e] eqn:Hsafe;
    cbn [bind try_catch].
  - eexists. split; [reflexivity|]. split; trivial. left. now split.
  - destruct (map_throwing _ errs) as [formatted|e] eqn:Hmap;
      cbn [bind try_catch].
    + eexists. split; [reflexivity|]. split; trivial. right. split; trivial.
      cbn [errors].
      destruct (map_throwing_cases _ _ _
                  (fun error => Part002.formatValidationError w error filePath)
                  errs) as [(bs & Hbs & Hlen)|(a & e' & _ & _ & Hm)];
        [|congruence].
      assert (bs = formatted) by congruence. subst bs.
      pose proof (safeParseAsync_failure _ _ _ Hsafe) as Hne.
      destruct formatted; [|discriminate].
      destruct errs; [congruence|discriminate].
    + rewrite (map_format_throws _ _ _ Hmap). eexists.
      split; [reflexivity|]. split; trivial. right. split; trivial.
      discriminate.
  - rewrite (safeParseAsync_throws _ _ _ Hsafe). eexists.
    split; [reflexivity|]. split; trivial. right. split; trivial.
    discriminate.
Qed.

Lemma validateAllTeamFiles_promises (aborted : bool) :
  snd (Part002.validateAllTeamFiles w aborted)
  = map (fun file => Part002.validateTeamFile w file aborted)
      (Part002.enumerated w).
Proof.
  unfold Part002.validateAllTeamFiles, Part002.enumerated.
  now destruct (readdirSync w (Part002.TEAM_DIR w)).
Qed.

Lemma passResults_not_aborted (rank : nat -> nat) :
  exists results,
    Part002.passResults w rank false = Returns results
    /\ map file results = Part002.enumerated w
    /\ Forall2
         (fun filePath r =>
            Part002.validateTeamFile w filePath false = Returns r)
         (Part002.enumerated w) results.
Proof.
  unfold Part002.passResults. rewrite validateAllTeamFiles_promises.
  induction (Part002.enumerated w) as [|filePath files IH].
  - exists []. repeat split. constructor.
  - destruct IH as (results & Hall & Hfiles & Heach).
    destruct (validateTeamFile_returns filePath) as (r & Hr & Hfile & _).
    exists (r :: results). unfold Promise_all in *. cbn [map rejections fulfilled].
    rewrite Hr.
    assert (Hshift : forall i,
               rejections i
                 (map (fun file => Part002.validateTeamFile w file false) files)
               = []).
    { clear - Heach. induction Heach as [|x y l l' Hxy _ IHe]; intros i;
        [reflexivity|]. cbn [map rejections]. rewrite Hxy. apply IHe. }
    rewrite Hshift in *. injection Hall as Hall.
    rewrite Hall. cbn [map]. rewrite Hfile, Hfiles. repeat split.
    now constructor.
Qed.

End Isolation.

Lemma map_throwing_returns (E A B : Type) (f : A -> Completion E B)
  (l : list A) (bs : list B) :
  map_throwing f l = Returns bs -> Forall2 (fun a b => f a = Returns b) l bs.
Proof.
  revert bs. induction l as [|a l IH]; intros bs; cbn [map_throwing bind].
  - intros [= <-]. constructor.
  - destruct (f a) as [b|e] eqn:Ha; cbn [bind]; [|discriminate].
    destruct (map_throwing f l) as [bs'|e]; cbn [bind]; [|discriminate].
    intros [= <-]. constructor; auto.
Qed.

Lemma map_throwing_throws (E A B : Type) (f : A -> Completion E B)
  (l : list A) (e : E) :
  map_throwing f l = Throws e ->
  exists before a after,
    l = before ++ a :: after
    /\ Forall (returns f) before
    /\ f a = Throws e.
Proof.
  induction l as [|x l IH]; cbn [map_throwing bind]; [discriminate|].
  destruct (f x) as [b|e'] eqn:Hx; cbn [bind].
  - destruct (map_throwing f l) as [bs|e'']; cbn [bind]; [discriminate|].
    intros [= ->]. destruct (IH eq_refl) as (before & a & after & -> & Hb & Ha).
    exists (x :: before), a, after. repeat split; trivial.
    constructor; trivial. now exists b.
  - intros [= ->]. now exists [], x, l.
Qed.

(** What the result of a file holds, failure by failure. *)
Lemma validateTeamFile_converts (w : World) (filePath : string) :
  exists r,
    Part002.validateTeamFile w filePath false = Returns r
    /\ file r = filePath
    /\ match readFileSync w filePath with
       | Throws f =>
           isValid r = false
           /\ errors r = [ "Failed to parse file: " +++ errorText (raised f) ]
       | Returns content =>
           match yaml_parse w content with
           | Throws f =>
               isValid r = false
               /\ errors r
                  = [ "Failed to parse file: " +++ errorText (raised f) ]
           | Returns data =>
               match Part002.safeParseAsync w filePath data with
               | Throws e =>
                   isValid r = false
                   /\ errors r = [ "Failed to parse file: " +++ errorText e ]
               | Returns Success => isValid r = true /\ errors r = []
               | Returns (Failure errs) =>
                   isValid r = false
                   /\ errs <> []
                   /\ (Forall2
                         (fun error line =>
                            Part002.formatValidationError w error filePath
                            = Returns line)
                         errs (errors r)
                       \/ exists before error after e,
                           errs = before ++ error :: after
                           /\ Forall
                                (returns
                                   (fun error =>
                                      Part002.formatValidationError w error
                                        filePath))
                                before
                           /\ Part002.formatValidationError w error filePath
                              = Throws e
                           /\ errors r
                              = [ "Failed to parse file: " +++ errorText e ])
               end
           end
       end.
Proof.
  unfold Part002.validateTeamFile. cbn [bind].
  destruct (readFileSync w filePath) as [content|f]; cbn [call bind try_catch].
  2: { rewrite raised_is_no_abort. eexists. repeat split. }
  destruct (yaml_parse w content) as [data|f]; cbn [call bind try_catch].
  2: { rewrite raised_is_no_abort. eexists. repeat split. }
  destruct (Part002.safeParseAsync w filePath data) as [[|errs]|e] eqn:Hsafe;
    cbn [bind try_catch].
  - eexists. repeat split.
  - pose proof (safeParseAsync_failure _ _ _ _ Hsafe) as Hne.
    destruct (map_throwing _ errs) as [formatted|e] eqn:Hmap;
      cbn [bind try_catch].
    + eexists. split; [reflexivity|]. repeat split; trivial.
      left. now apply map_throwing_returns.
    + rewrite (map_format_throws _ _ _ _ Hmap). eexists.
      split; [reflexivity|]. repeat split; trivial. right.
      destruct (map_throwing_throws _ _ _ _ _ _ Hmap)
        as (before & a & after & Herrs & Hbefore & Ha).
      exists before, a, after, e. repeat split; trivial.
  - rewrite (safeParseAsync_throws _ _ _ _ Hsafe). eexists. repeat split.
Qed.

(** C1.  A pass starts one check per enumerated file, whatever happens in
    the others.  Without cancellation the check of a file always returns
    the result of that file, and every failure is in it as text: a file
    that cannot be read, YAML that does not parse, and any exception of
    the validation leave the single error [Failed to parse file: ] and
    the message of the exception; a failed validation leaves one error per
    issue, in the order of the issues, unless the classifier throws for
    one of them, which leaves the single error [Failed to parse file: ]
    and the message of the first exception thrown; only a file without
    failure is valid, and it has no error.  The pass collects one result
    per file in the order of enumeration.  The abort raised by the
    checkpoint is the exception the handler lets through. *)
Theorem failures_stay_in_their_file (w : World) (rank : nat -> nat)
  (aborted : bool) (filePath : string) :
  snd (Part002.validateAllTeamFiles w aborted)
  = map (fun file => Part002.validateTeamFile w file aborted)
      (Part002.enumerated w)
  /\ (exists r,
         Part002.validateTeamFile w filePath false = Returns r
         /\ file r = filePath
         /\ match readFileSync w filePath with
            | Throws f =>
                isValid r = false
                /\ errors r
                   = [ "Failed to parse file: " +++ errorText (raised f) ]
            | Returns content =>
                match yaml_parse w content with
                | Throws f =>
                    isValid r = false
                    /\ errors r
                       = [ "Failed to parse file: " +++ errorText (raised f) ]
                | Returns data =>
                    match Part002.safeParseAsync w filePath data with
                    | Throws e =>
                        isValid r = false
                        /\ errors r
                           = [ "Failed to parse file: " +++ errorText e ]
                    | Returns Success => isValid r = true /\ errors r = []
                    | Returns (Failure errs) =>
                        isValid r = false
                        /\ errs <> []
                        /\ (Forall2
                              (fun error line =>
                                 Part002.formatValidationError w error filePath
                                 = Returns line)
                              errs (errors r)
                            \/ exists before error after e,
                                errs = before ++ error :: after
                                /\ Forall
                                     (returns
                                        (fun error =>
                                           Part002.formatValidationError w
                                             error filePath))
                                     before
                                /\ Part002.formatValidationError w error
                                     filePath
                                   = Throws e
                                /\ errors r
                                   = [ "Failed to parse file: "
                                         +++ errorText e ])
                    end
                end
            end)
  /\ (exists results,
         Part002.passResults w rank false = Returns results
         /\ map file results = Part002.enumerated w
         /\ Forall2
              (fun file r => Part002.validateTeamFile w file false = Returns r)
              (Part002.enumerated w) results)
  /\ Part002.validateTeamFile w filePath true = Throws AbortError.
Proof.
  split; [apply validateAllTeamFiles_promises|].
  split; [apply validateTeamFile_converts|].
  split; [|reflexivity].
  apply passResults_not_aborted.
Qed.

(** C1, as stated.  With the signal set, the exception raised while
    [alice.yaml] is processed is not turned into an error of that file: no
    result is returned for it, and the pass has no result at all. *)
Lemma abort_is_not_converted :
  Part002.validateTeamFile Demo.repo "/repo/team/alice.yaml" true
  = Throws AbortError
  /\ Part002.passResults Demo.repo Demo.inOrder true = Throws AbortError.
Proof. split; reflexivity. Qed.

(** ** The pass and the exit status *)

Lemma some_invalid (results : list ValidationResult) :
  existsb (fun r => negb (isValid r)) results = negb (forallb isValid results).
Proof.
  induction results as [|r results IH]; [reflexivity|].
  cbn [existsb forallb]. rewrite IH. now destruct (isValid r).
Qed.

Lemma validateAllTeamFiles000_results (w : World) (TeamContributor : Schema) :
  snd (Part000.validateAllTeamFiles w TeamContributor)
  = map (Part000.validateTeamFile w TeamContributor) (Part000.enumerated w).
Proof.
  unfold Part000.validateAllTeamFiles, Part000.enumerated.
  now destruct (readdirSync w (Part000.TEAM_DIR w)).
Qed.

(** C2.  Without the watch flag the script exits with status 0 when every
    result of the pass is valid and with status 1 otherwise, the results
    being those of the enumerated files; so does the synchronous script of
    [part_000], whose status comes from validating the directory a second
    time. *)
Theorem exit_status_reflects_validity (w : World) (rank : nat -> nat)
  (TeamContributor : Schema) (argv : list string) :
  isWatchMode argv = false ->
  (exists results,
      Part002.passResults w rank false = Returns results
      /\ Forall2
           (fun file r => Part002.validateTeamFile w file false = Returns r)
           (Part002.enumerated w) results
      /\ snd (Part002.main w rank argv)
         = Exit (if forallb isValid results then 0 else 1))
  /\ snd (Part000.main w TeamContributor argv)
     = Exit
         (if forallb isValid
               (map (Part000.validateTeamFile w TeamContributor)
                  (Part000.enumerated w))
          then 0 else 1).
Proof.
  intros Hflag. split.
  2: rewrite <- validateAllTeamFiles000_results.
  - destruct (passResults_not_aborted w rank) as (results & Hpass & _ & Heach).
    exists results. repeat split; trivial.
    unfold Part002.main, Part002.runValidation. rewrite Hflag, Hpass.
    cbn [snd]. rewrite some_invalid. now destruct (forallb isValid results).
  - unfold Part000.main. rewrite Hflag.
    destruct (Part000.validateAllTeamFiles w TeamContributor) as [logged results].
    cbn [snd]. rewrite some_invalid. now destruct (forallb isValid results).
Qed.

Lemma exit_status_reflects_validity_witness :
  (exists results,
      Part002.passResults Demo.repo Demo.inOrder false = Returns results
      /\ Forall2
           (fun file r =>
              Part002.validateTeamFile Demo.repo file false = Returns r)
           (Part002.enumerated Demo.repo) results
      /\ snd (Part002.main Demo.repo Demo.inOrder [ "node"; "validate.ts" ])
         = Exit (if forallb isValid results then 0 else 1))
  /\ snd (Part000.main Demo.repo
            (Schema004.TeamContributor (ZOpaque (SocialsSchema Demo.repo)))
            [ "node"; "validate.ts" ])
     = Exit
         (if forallb isValid
               (map
                  (Part000.validateTeamFile Demo.repo
                     (Schema004.TeamContributor
                        (ZOpaque (SocialsSchema Demo.repo))))
                  (Part000.enumerated Demo.repo))
          then 0 else 1).
Proof.
  apply (exit_status_reflects_validity Demo.repo Demo.inOrder
           (Schema004.TeamContributor (ZOpaque (SocialsSchema Demo.repo)))
           [ "node"; "validate.ts" ]).
  reflexivity.
Defined.

(** C8.  When the directory cannot be listed the pass logs the failure,
    has no result, prints the summary [0/0 files valid] and returns
    no-error, cancelled or not; without the watch flag the script exits
    with status 0. *)
Theorem unreadable_directory_is_reported (w : World) (rank : nat -> nat)
  (aborted isWatch : bool) (f : ExternalFailure) (argv : list string) :
  readdirSync w (Part002.TEAM_DIR w) = Throws f ->
  Part002.passResults w rank aborted = Returns []
  /\ Part002.runValidation w rank aborted isWatch
     = ([ Clear; Log "Running validation...";
          LogError ("Error reading team directory: " +++ errorText (raised f));
          Clear; Log "🎉 Great news:"; Log "0/0 files valid" ]
          ++ (if isWatch then [ Log "Waiting for more changes..." ] else []),
         Returns false)
  /\ (isWatchMode argv = false -> snd (Part002.main w rank argv) = Exit 0).
Proof.
  intros Hdir.
  assert (Hall : Part002.validateAllTeamFiles w aborted
                 = ([ LogError ("Error reading team directory: "
                                  +++ errorText (raised f)) ], [])).
  { unfold Part002.validateAllTeamFiles. now rewrite Hdir. }
  assert (Hall' : Part002.validateAllTeamFiles w false
                  = ([ LogError ("Error reading team directory: "
                                   +++ errorText (raised f)) ], [])).
  { unfold Part002.validateAllTeamFiles. now rewrite Hdir. }
  repeat split.
  - unfold Part002.passResults. now rewrite Hall.
  - unfold Part002.runValidation, Part002.passResults. rewrite Hall.
    reflexivity.
  - intros Hflag. unfold Part002.main, Part002.runValidation,
      Part002.passResults. rewrite Hflag, Hall'. reflexivity.
Qed.

Lemma unreadable_directory_is_reported_witness :
  Part002.passResults Demo.noTeamDir Demo.inOrder false = Returns []
  /\ Part002.runValidation Demo.noTeamDir Demo.inOrder false false
     = ([ Clear; Log "Running validation...";
          LogError
            ("Error reading team directory: "
               +++ errorText
                     (raised
                        (FailsWith
                           "ENOENT: no such file or directory, scandir /repo/team")));
          Clear; Log "🎉 Great news:"; Log "0/0 files valid" ]
          ++ [],
         Returns false)
  /\ (isWatchMode [] = false
      -> snd (Part002.main Demo.noTeamDir Demo.inOrder []) = Exit 0).
Proof.
  apply (unreadable_directory_is_reported Demo.noTeamDir Demo.inOrder false
           false
           (FailsWith "ENOENT: no such file or directory, scandir /repo/team")
           []).
  reflexivity.
Defined.

(** C9.  When the signal is set at the checkpoint of a file,
    [validateTeamFile] throws the abort and returns no result; a pass that
    enumerated at least one file then prints nothing after its opening
    line, no report and no summary, and returns no-error. *)
Theorem cancelled_pass_is_silent (w : World) (rank : nat -> nat)
  (isWatch : bool) (names : list string) (filePath : string) :
  readdirSync w (Part002.TEAM_DIR w) = Returns names ->
  Part002.recordFiles w names <> [] ->
  Part002.validateTeamFile w filePath true = Throws AbortError
  /\ Part002.passResults w rank true = Throws AbortError
  /\ Part002.runValidation w rank true isWatch
     = ([ Clear; Log "Running validation..." ], Returns false).
Proof.
  intros Hdir Hfiles.
  assert (Hall : Part002.validateAllTeamFiles w true
                 = ([], map (fun _ : string =>
                               @Throws Thrown ValidationResult AbortError)
                          (Part002.recordFiles w names))).
  { unfold Part002.validateAllTeamFiles. now rewrite Hdir. }
  assert (Hpass : Part002.passResults w rank true = Throws AbortError).
  { unfold Part002.passResults. rewrite Hall. cbn [snd].
    now apply Promise_all_all_reject. }
  repeat split; trivial.
  unfold Part002.runValidation. rewrite Hpass, Hall. reflexivity.
Qed.

Lemma cancelled_pass_is_silent_witness :
  Part002.validateTeamFile Demo.repo "/repo/team/alice.yaml" true
  = Throws AbortError
  /\ Part002.passResults Demo.repo Demo.inOrder true = Throws AbortError
  /\ Part002.runValidation Demo.repo Demo.inOrder true true
     = ([ Clear; Log "Running validation..." ], Returns false).
Proof.
  apply (cancelled_pass_is_silent Demo.repo Demo.inOrder true Demo.listing
           "/repo/team/alice.yaml").
  - reflexivity.
  - discriminate.
Defined.

(** ** Two runs over the same repository *)

Lemma map_throwing_ext (E A B : Type) (f g : A -> Completion E B) (l : list A) :
  (forall a, f a = g a) -> map_throwing f l = map_throwing g l.
Proof.
  intros H. induction l as [|a l IH]; [reflexivity|].
  cbn [map_throwing]. now rewrite H, IH.
Qed.

Section SameWorld.

Variables w1 w2 : World.
Hypothesis same : sameWorld w1 w2.

Lemma array_members_same (mode : ParseMode) (p : list PathSeg)
  (items : list Value) (i : nat) :
  array_members mode (ZOpaque (SocialsSchema w1)) p items i
  = array_members mode (ZOpaque (SocialsSchema w2)) p items i.
Proof.
  revert i. induction items as [|x items IH]; intros i; [reflexivity|].
  cbn [array_members parse]. now rewrite (same_SocialsSchema same), IH.
Qed.

Lemma TeamContributor_same (mode : ParseMode) (data : Value) :
  parse mode (Part002.TeamContributor w1) [] data
  = parse mode (Part002.TeamContributor w2) [] data.
Proof.
  destruct data as [| | | | | |fields]; try reflexivity.
  unfold Part002.TeamContributor. rewrite !parse_TeamContributor.
  do 4 f_equal. rewrite !parse_ZDefault.
  destruct (match get "contacts" fields with
            | VUndefined => VArr []
            | _ => get "contacts" fields
            end); try reflexivity.
  rewrite !parse_ZArray. now rewrite array_members_same.
Qed.

Lemma formatValidationError_same (error : ZodIssue) (filePath : string) :
  Part002.formatValidationError w1 error filePath
  = Part002.formatValidationError w2 error filePath.
Proof.
  unfold Part002.formatValidationError, Part002.unknownProject,
    Part002.invalidRole, Part002.InvalidProjectError,
    Part002.InvalidRoleError.
  now rewrite (same_cwd same), !(same_path_relative same).
Qed.

Lemma safeParseAsync_same (filePath : string) (data : Value) :
  Part002.safeParseAsync w1 filePath data
  = Part002.safeParseAsync w2 filePath data.
Proof.
  unfold Part002.safeParseAsync, transformSocial_check,
    Part002.superRefine, Part002.avatarCheck.
  rewrite (same_transformSocial_raises same), TeamContributor_same.
  rewrite (same_cwd same).
  destruct (transformSocial_raises w2 data); [reflexivity|].
  cbn [bind].
  destruct (status _); try reflexivity;
    destruct data as [| | | | | |fields]; try reflexivity;
    destruct (get "avatar" fields); try reflexivity;
    now rewrite (same_path_dirname same), (same_path_resolve same),
      (same_access same), (same_path_relative same).
Qed.

Lemma validateTeamFile_same (filePath : string) (aborted : bool) :
  Part002.validateTeamFile w1 filePath aborted
  = Part002.validateTeamFile w2 filePath aborted.
Proof.
  unfold Part002.validateTeamFile.
  rewrite (same_readFileSync same).
  destruct aborted; [reflexivity|]. cbn [bind].
  destruct (readFileSync w2 filePath) as [content|f]; [|reflexivity].
  cbn [call bind]. rewrite (same_yaml_parse same).
  destruct (yaml_parse w2 content) as [data|f]; [|reflexivity].
  cbn [call bind]. rewrite safeParseAsync_same.
  destruct (Part002.safeParseAsync w2 filePath data) as [[|errs]|e];
    try reflexivity.
  cbn [bind].
  now rewrite (map_throwing_ext _ _ _ _
                 (fun error => Part002.formatValidationError w2 error filePath)
                 errs (fun error => formatValidationError_same error filePath)).
Qed.

Lemma enumerated_same : Part002.enumerated w1 = Part002.enumerated w2.
Proof.
  unfold Part002.enumerated, Part002.recordFiles, Part002.TEAM_DIR.
  rewrite (same_cwd same), (same_path_resolve same),
    (same_readdirSync same).
  destruct (readdirSync w2 _) as [names|f]; [|reflexivity].
  apply map_ext. intros name. apply (same_path_join same).
Qed.

Lemma validateTeamFile000_same (TeamContributor : Schema) (filePath : string) :
  Part000.validateTeamFile w1 TeamContributor filePath
  = Part000.validateTeamFile w2 TeamContributor filePath.
Proof.
  unfold Part000.validateTeamFile, Part000.safeParse, transformSocial_check.
  rewrite (same_readFileSync same).
  destruct (readFileSync w2 filePath) as [content|f]; [|reflexivity].
  cbn [call bind]. rewrite (same_yaml_parse same).
  destruct (yaml_parse w2 content) as [data|f]; [|reflexivity].
  cbn [call bind]. now rewrite (same_transformSocial_raises same).
Qed.

Lemma enumerated000_same : Part000.enumerated w1 = Part000.enumerated w2.
Proof.
  unfold Part000.enumerated, Part000.recordFiles, Part000.TEAM_DIR.
  rewrite (same_cwd same), (same_path_resolve same),
    (same_readdirSync same).
  destruct (readdirSync w2 _) as [names|f]; [|reflexivity].
  apply map_ext. intros name. apply (same_path_join same).
Qed.

End SameWorld.

Lemma validateTeamFile000_file (w : World) (TeamContributor : Schema)
  (filePath : string) :
  file (Part000.validateTeamFile w TeamContributor filePath) = filePath.
Proof.
  unfold Part000.validateTeamFile.
  destruct (readFileSync w filePath) as [content|f]; [|reflexivity].
  cbn [call bind]. destruct (yaml_parse w content) as [data|f]; [|reflexivity].
  cbn [call bind]. destruct (Part000.safeParse w TeamContributor data)
    as [[|errs]|e]; try reflexivity.
  cbn [bind]. now destruct (map_throwing _ errs).
Qed.

Lemma Forall2_functional (A B : Type) (R1 R2 : A -> B -> Prop)
  (l : list A) (l1 l2 : list B) :
  (forall a b1 b2, R1 a b1 -> R2 a b2 -> b1 = b2) ->
  Forall2 R1 l l1 -> Forall2 R2 l l2 -> l1 = l2.
Proof.
  intros Hfun H1. revert l2.
  induction H1 as [|a b l l1 Hab _ IH]; intros l2 H2; inversion H2; subst;
    [reflexivity|].
  f_equal; eauto.
Qed.

(** C10.  Two single passes over the same repository, whatever the order
    in which their per-file checks settle, yield the same results: one per
    enumerated file, in the order of enumeration, with the same validity
    and the same errors.  The two validations of [part_000] agree in the
    same way. *)
Theorem pass_is_idempotent (w1 w2 : World) (rank1 rank2 : nat -> nat)
  (TeamContributor : Schema) :
  sameWorld w1 w2 ->
  (exists results,
      Part002.passResults w1 rank1 false = Returns results
      /\ Part002.passResults w2 rank2 false = Returns results
      /\ map file results = Part002.enumerated w1)
  /\ snd (Part000.validateAllTeamFiles w1 TeamContributor)
     = snd (Part000.validateAllTeamFiles w2 TeamContributor)
  /\ map file (snd (Part000.validateAllTeamFiles w1 TeamContributor))
     = Part000.enumerated w1.
Proof.
  intros same. split; [|split].
  - destruct (passResults_not_aborted w1 rank1) as (r1 & H1 & Hfiles & Heach1).
    destruct (passResults_not_aborted w2 rank2) as (r2 & H2 & _ & Heach2).
    exists r1. repeat split; trivial.
    rewrite H2. f_equal. symmetry.
    rewrite <- (enumerated_same w1 w2 same) in Heach2.
    assert (Heach2' :
             Forall2
               (fun filePath r =>
                  Part002.validateTeamFile w1 filePath false = Returns r)
               (Part002.enumerated w1) r2).
    { eapply Forall2_impl; [|exact Heach2]. intros a b H. cbv beta.
      now rewrite (validateTeamFile_same w1 w2 same). }
    eapply Forall2_functional; [|exact Heach1|exact Heach2'].
    cbv beta. intros a b1 b2 Ha Hb. congruence.
  - rewrite !validateAllTeamFiles000_results.
    rewrite (enumerated000_same w1 w2 same).
    apply map_ext. intros filePath. now apply validateTeamFile000_same.
  - rewrite validateAllTeamFiles000_results, map_map.
    rewrite <- (map_id (Part000.enumerated w1)) at 2.
    apply map_ext. intros filePath. apply validateTeamFile000_file.
Qed.

Lemma pass_is_idempotent_witness :
  (exists results,
      Part002.passResults Demo.repo Demo.inOrder false = Returns results
      /\ Part002.passResults Demo.repo (fun i => 7 - i) false = Returns results
      /\ map file results = Part002.enumerated Demo.repo)
  /\ snd (Part000.validateAllTeamFiles Demo.repo
            (SchemaFirst.TeamContributor [] (ZOpaque (SocialsSchema Demo.repo))))
     = snd (Part000.validateAllTeamFiles Demo.repo
              (SchemaFirst.TeamContributor [] (ZOpaque (SocialsSchema Demo.repo))))
  /\ map file
       (snd (Part000.validateAllTeamFiles Demo.repo
               (SchemaFirst.TeamContributor []
                  (ZOpaque (SocialsSchema Demo.repo)))))
     = Part000.enumerated Demo.repo.
Proof.
  apply (pass_is_idempotent Demo.repo Demo.repo Demo.inOrder (fun i => 7 - i)
           (SchemaFirst.TeamContributor [] (ZOpaque (SocialsSchema Demo.repo)))).
  constructor; reflexivity.
Defined.

(** ** What the schema of [part_004] accepts *)

Lemma merge_is_valid (self_dirty : bool) (own : list ZodIssue)
  (members : list Outcome) :
  is_valid (merge self_dirty own members)
  = negb self_dirty && forallb is_valid members.
Proof.
  unfold merge, merge_status. unfold is_valid, is_aborted, is_dirty.
  cbn [status].
  induction members as [|m members IH]; cbn [existsb forallb].
  - now destruct self_dirty.
  - destruct (status m); cbn [orb andb].
    + exact IH.
    + rewrite orb_true_r, andb_false_r.
      now destruct (existsb _ members).
    + now rewrite andb_false_r.
Qed.

Lemma Role_is_valid (mode : ParseMode) (project : string) (p : list PathSeg)
  (entry : Value) :
  is_valid (parse mode (Role (Schema004.roleTypeOf project)) p entry)
  = acceptedRole project entry.
Proof.
  unfold Schema004.roleTypeOf, acceptedRole, roleAllowed, Role.
  destruct (lookup project PROJECT_ROLES) as [roles|];
    destruct entry as [| |b|n|bare|items|fields]; try (now destruct mode).
  - cbn. now destruct (Js.mem bare roles), mode.
  - cbn. destruct (get "role" fields) as [| | | |role| |];
      destruct (get "details" fields); try (now destruct mode);
      now destruct (Js.mem role roles), mode.
  - cbn. destruct (get "role" fields) as [| | | |role| |];
      destruct (get "details" fields); now destruct mode.
Qed.

(** X1.  The role schema of a project accepts exactly the allowed entries,
    in either parse mode and at any path: a bare role, or an object whose
    role is allowed and whose details are a string.  Any other entry
    aborts with a single [invalid_union] issue at the path of the
    entry. *)
Theorem Role_accepts_exactly (mode : ParseMode) (project : string)
  (p : list PathSeg) (entry : Value) :
  let o := parse mode (Role (Schema004.roleTypeOf project)) p entry in
  if acceptedRole project entry then o = OK
  else
    status o = aborted
    /\ exists errs, issues o = [ invalid_union_issue p errs ].
Proof.
  unfold Schema004.roleTypeOf, acceptedRole, roleAllowed, Role.
  destruct (lookup project PROJECT_ROLES) as [roles|];
    destruct entry as [| |b|n|bare|items|fields];
    try (destruct mode; cbn; (split; [reflexivity|eexists; reflexivity])).
  - cbn. destruct (Js.mem bare roles); destruct mode; cbn; trivial;
      (split; [reflexivity|eexists; reflexivity]).
  - cbn. destruct (get "role" fields) as [| | | |role| |];
      destruct (get "details" fields);
      try (destruct mode; cbn; (split; [reflexivity|eexists; reflexivity]));
      destruct (Js.mem role roles); destruct mode; cbn; trivial;
      (split; [reflexivity|eexists; reflexivity]).
  - now destruct mode.
  - cbn. destruct (get "role" fields) as [| | | |role| |];
      destruct (get "details" fields);
      destruct mode; cbn; trivial;
      (split; [reflexivity|eexists; reflexivity]).
Qed.

Lemma array_members_Role_valid (mode : ParseMode) (project : string)
  (p : list PathSeg) (items : list Value) (i : nat) :
  forallb is_valid
    (array_members mode (Role (Schema004.roleTypeOf project)) p items i)
  = forallb (acceptedRole project) items.
Proof.
  revert i. induction items as [|x items IH]; intros i; [reflexivity|].
  cbn [array_members forallb]. now rewrite Role_is_valid, IH.
Qed.

Lemma project_roles_valid (mode : ParseMode) (project : string)
  (p : list PathSeg) (v : Value) :
  is_valid
    (parse mode
       (ZDefault (ZArray (Role (Schema004.roleTypeOf project))) (VArr [])) p v)
  = acceptedRoleList project v.
Proof.
  rewrite parse_ZDefault.
  destruct v as [| |b|n|s|items|fields]; try reflexivity.
  rewrite parse_ZArray, merge_is_valid. apply array_members_Role_valid.
Qed.

Lemma nonempty_extraKeys (shapeKeys : list string)
  (fields : list (string * Value)) :
  nonempty (extraKeys shapeKeys fields)
  = negb (forallb (fun key => Js.mem key shapeKeys) (map fst fields)).
Proof.
  unfold extraKeys.
  induction fields as [|[k v] fields IH]; [reflexivity|].
  cbn [map fst filter forallb]. now destruct (Js.mem k shapeKeys).
Qed.

Lemma roles_members_valid (mode : ParseMode) (p : list PathSeg)
  (roles : list (string * Value)) (projects : list string) :
  forallb is_valid
    (object_members mode p roles
       (map (fun project =>
               (project,
                 ZDefault (ZArray (Role (Schema004.roleTypeOf project)))
                   (VArr [])))
          projects))
  = forallb (fun project => acceptedRoleList project (get project roles))
      projects.
Proof.
  unfold object_members.
  induction projects as [|project projects IH]; [reflexivity|].
  cbn [map forallb fst snd]. now rewrite project_roles_valid, IH.
Qed.

Lemma Roles_is_valid (mode : ParseMode) (p : list PathSeg) (v : Value) :
  is_valid (parse mode Schema004.Roles p v) = acceptedRoles v.
Proof.
  destruct v as [| |b|n|s|items|roles]; try reflexivity.
  unfold Schema004.Roles, Schema004.RolesFor, acceptedRoles.
  rewrite parse_ZObject, RolesFor_keys. cbv zeta.
  rewrite merge_is_valid, roles_members_valid. f_equal.
  unfold unknown_keys_issues.
  pose proof (nonempty_extraKeys PROJECTS roles) as H.
  destruct (nonempty (extraKeys PROJECTS roles)); cbn [nonempty negb];
    now destruct (forallb _ (map fst roles)).
Qed.

Lemma ZString_is_valid (mode : ParseMode) (p : list PathSeg) (v : Value) :
  is_valid (parse mode ZString p v) = isString v.
Proof. now destruct v. Qed.

(** X2.  The schema of [part_004] accepts a record, in either parse mode,
    exactly when it is an object whose name and avatar are strings, whose
    roles are an object with project names as only keys and, for every
    project, no value or a list of allowed entries, and whose contacts the
    contact schema accepts (none counts as an empty list). *)
Theorem TeamContributor_accepts_exactly (mode : ParseMode) (S : Schema)
  (data : Value) :
  let o := parse mode (Schema004.TeamContributor S) [] data in
  let acceptedContacts contacts :=
    is_valid
      (parse mode (ZDefault (ZArray S) (VArr [])) [Key "contacts"] contacts) in
  is_valid o = acceptedRecord acceptedContacts data
  /\ (handleResult o = Returns Success
      <-> acceptedRecord acceptedContacts data = true).
Proof.
  intros o acceptedContacts.
  assert (H : is_valid o = acceptedRecord acceptedContacts data).
  { unfold o, acceptedRecord.
    destruct data as [| |b|n|s|items|fields]; try reflexivity.
    rewrite parse_TeamContributor, merge_is_valid. cbn [negb andb forallb].
    rewrite !ZString_is_valid, Roles_is_valid, andb_true_r.
    now rewrite !andb_assoc. }
  split; trivial. rewrite <- H. unfold handleResult, is_valid.
  destruct (status o); [tauto| |];
    (split; [|discriminate]); destruct (nonempty (issues o)); discriminate.
Qed.

(** ** What one file reports ([part_002]) *)

Section Reporting002.

Variable w : World.

Lemma not_escalated (error : ZodIssue) (filePath : string) :
  Part002.escalation w error filePath = None ->
  Part002.formatValidationError w error filePath
  = Returns (genericMessage error).
Proof.
  unfold Part002.escalation, Part002.formatValidationError, genericMessage.
  destruct (Part002.unknownProject w error filePath); [discriminate|].
  intros ->. now destruct (nonempty (path error)).
Qed.

Lemma map_not_escalated (filePath : string) (errs : list ZodIssue) :
  Forall (fun error => Part002.escalation w error filePath = None) errs ->
  map_throwing (fun error => Part002.formatValidationError w error filePath)
    errs
  = Returns (map genericMessage errs).
Proof.
  induction 1 as [|error errs He _ IH]; [reflexivity|].
  cbn [map_throwing map]. rewrite (not_escalated _ _ He). cbn [bind].
  now rewrite IH.
Qed.

End Reporting002.

(** X3.  When no issue of a failed validation is escalated, the result of
    the file holds one line per issue, in the order of the issues:
    [<dot-joined path>: <message>], or the bare message for an issue
    without a path. *)
Theorem every_issue_is_reported (w : World) (filePath content : string)
  (data : Value) (errs : list ZodIssue) :
  readFileSync w filePath = Returns content ->
  yaml_parse w content = Returns data ->
  Part002.safeParseAsync w filePath data = Returns (Failure errs) ->
  Forall (fun error => Part002.escalation w error filePath = None) errs ->
  Part002.validateTeamFile w filePath false
  = Returns (mkResult filePath false (map genericMessage errs) []).
Proof.
  intros Hread Hparse Hsafe Hnone.
  unfold Part002.validateTeamFile. cbn [bind].
  rewrite Hread. cbn [call bind]. rewrite Hparse. cbn [call bind].
  rewrite Hsafe. cbn [bind]. rewrite (map_not_escalated w _ _ Hnone).
  reflexivity.
Qed.

Lemma every_issue_is_reported_witness :
  Part002.validateTeamFile (oneFile (Returns gina)) "/repo/team/only.yaml" false
  = Returns
      (mkResult "/repo/team/only.yaml" false
         (map genericMessage
            [ invalid_type_issue [Key "name"] "string" VUndefined;
              invalid_type_issue [Key "avatar"] "string" (VNum 3) ])
         []).
Proof.
  apply (every_issue_is_reported (oneFile (Returns gina))
           "/repo/team/only.yaml" "/repo/team/only.yaml" gina).
  - reflexivity.
  - reflexivity.
  - reflexivity.
  - repeat constructor.
Defined.

(** X4.  A file whose YAML is not a mapping (an empty file parses to
    [null]) is invalid with exactly one error, the bare message of the
    type error with no path before it; the avatar is not looked for. *)
Theorem non_mapping_file_has_one_error (w : World) (filePath content : string)
  (data : Value) :
  readFileSync w filePath = Returns content ->
  yaml_parse w content = Returns data ->
  transformSocial_raises w data = None ->
  match data with VObj _ => False | _ => True end ->
  Part002.validateTeamFile w filePath false
  = Returns
      (mkResult filePath false
         [ match data with
           | VUndefined => "Required"
           | _ => "Expected object, received " +++ parsedType data
           end ]
         []).
Proof.
  intros Hread Hparse Hraise Hshape.
  unfold Part002.validateTeamFile. cbn [bind].
  rewrite Hread. cbn [call bind]. rewrite Hparse. cbn [call bind].
  unfold Part002.safeParseAsync, transformSocial_check. rewrite Hraise.
  now destruct data.
Qed.

Lemma non_mapping_file_has_one_error_witness :
  Part002.validateTeamFile (oneFile (Returns VNull)) "/repo/team/only.yaml"
    false
  = Returns
      (mkResult "/repo/team/only.yaml" false
         [ "Expected object, received null" ] []).
Proof.
  apply (non_mapping_file_has_one_error (oneFile (Returns VNull))
           "/repo/team/only.yaml" "/repo/team/only.yaml" VNull);
    [reflexivity|reflexivity|reflexivity|exact I].
Defined.

(** ** What a whole pass reports ([part_002]) *)

Section Pass002.

Variable w : World.

Lemma validateTeamFile_in_order (filePath : string) :
  inOrder002 w filePath ->
  Part002.validateTeamFile w filePath false
  = Returns (mkResult filePath true [] []).
Proof.
  intros (content & fields & avatar & Hread & Hparse & Hraise & Hvalid
          & Hav & Haccess).
  unfold shapeValid in Hvalid.
  unfold Part002.validateTeamFile. cbn [bind].
  rewrite Hread. cbn [call bind]. rewrite Hparse. cbn [call bind].
  unfold Part002.safeParseAsync, transformSocial_check. rewrite Hraise.
  cbn [bind]. rewrite Hvalid. unfold Part002.superRefine. cbn [status OK].
  rewrite Hav. unfold Part002.avatarCheck. rewrite Haccess. reflexivity.
Qed.

Lemma Forall2_returns_map (files : list string)
  (results : list ValidationResult) (g : string -> ValidationResult) :
  Forall2
    (fun file r => Part002.validateTeamFile w file false = Returns r)
    files results ->
  (forall file, In file files ->
                Part002.validateTeamFile w file false = Returns (g file)) ->
  results = map g files.
Proof.
  induction 1 as [|file r files results Hr _ IH]; intros Hg; [reflexivity|].
  cbn [map]. f_equal.
  - rewrite (Hg file (or_introl eq_refl)) in Hr. congruence.
  - apply IH. intros f Hf. apply Hg. now right.
Qed.

(** In a result of [validateTeamFile], invalid means some error. *)
Lemma pass_results_invariant (files : list string)
  (results : list ValidationResult) :
  Forall2
    (fun file r => Part002.validateTeamFile w file false = Returns r)
    files results ->
  Forall (fun r => negb (isValid r) = nonempty (errors r)) results.
Proof.
  induction 1 as [|file r files results Hr _ IH]; constructor; trivial.
  destruct (validateTeamFile_returns w file) as (r' & Hr' & _ & Hinv).
  assert (r' = r) by congruence. subst r'.
  destruct Hinv as [[-> ->]|[-> Hne]]; [reflexivity|].
  destruct (errors r); [congruence|reflexivity].
Qed.

End Pass002.

Lemma existsb_ext_Forall (A : Type) (f g : A -> bool) (l : list A) :
  Forall (fun a => f a = g a) l -> existsb f l = existsb g l.
Proof.
  induction 1 as [|a l Ha _ IH]; [reflexivity|].
  cbn [existsb]. now rewrite Ha, IH.
Qed.

Lemma all_valid_report (w : World) (shape : list (string * Schema))
  (PROJECTS_FILE : string) (files : list string) :
  printResults w shape PROJECTS_FILE
    (map (fun file => mkResult file true [] []) files)
  = [ Clear; Log "🎉 Great news:";
      Log (Js.of_nat (List.length files) +++ "/"
             +++ Js.of_nat (List.length files) +++ " files valid") ].
Proof.
  unfold printResults, summary.
  replace (existsb _ _) with false.
  - replace (filter isValid _)
      with (map (fun file => mkResult file true [] []) files).
    + now rewrite length_map.
    + induction files as [|f files IH]; [reflexivity|].
      cbn [map filter isValid]. now rewrite <- IH.
  - induction files as [|f files IH]; [reflexivity|].
    cbn [map existsb errors nonempty orb]. exact IH.
Qed.

Lemma all_valid_no_errors (files : list string) :
  existsb (fun r => negb (isValid r))
    (map (fun file => mkResult file true [] []) files)
  = false.
Proof. induction files as [|f files IH]; [reflexivity|exact IH]. Qed.

(** X5.  When every enumerated file is in order, the pass prints, after
    its opening line and whatever listing the directory logged, exactly
    the cleared screen, the good-news banner and [N/N files valid] for the
    [N] enumerated files, with no per-file section and no tips, and
    returns no-error; without the watch flag the script exits with
    status 0. *)
Theorem all_in_order_reports_N_of_N (w : World) (rank : nat -> nat)
  (isWatch : bool) (argv : list string) :
  (forall filePath, In filePath (Part002.enumerated w) -> inOrder002 w filePath) ->
  let N := Js.of_nat (List.length (Part002.enumerated w)) in
  Part002.runValidation w rank false isWatch
  = ([ Clear; Log "Running validation..." ]
       ++ fst (Part002.validateAllTeamFiles w false)
       ++ [ Clear; Log "🎉 Great news:";
            Log (N +++ "/" +++ N +++ " files valid") ]
       ++ (if isWatch then [ Log "Waiting for more changes..." ] else []),
      Returns false)
  /\ (isWatchMode argv = false -> snd (Part002.main w rank argv) = Exit 0).
Proof.
  intros Hall N.
  destruct (passResults_not_aborted w rank) as (results & Hpass & _ & Heach).
  assert (Hresults :
           results
           = map (fun file => mkResult file true [] []) (Part002.enumerated w)).
  { apply (Forall2_returns_map w _ _ _ Heach). intros file Hfile.
    now apply validateTeamFile_in_order, Hall. }
  assert (Hrun : forall watch,
             Part002.runValidation w rank false watch
             = ([ Clear; Log "Running validation..." ]
                  ++ fst (Part002.validateAllTeamFiles w false)
                  ++ [ Clear; Log "🎉 Great news:";
                       Log (N +++ "/" +++ N +++ " files valid") ]
                  ++ (if watch then [ Log "Waiting for more changes..." ]
                      else []),
                 Returns false)).
  { intros watch. unfold Part002.runValidation. rewrite Hpass, Hresults.
    rewrite all_valid_report. do 2 f_equal. apply all_valid_no_errors. }
  split; [apply Hrun|].
  intros Hflag. unfold Part002.main. rewrite Hflag, (Hrun false). reflexivity.
Qed.

Lemma all_in_order_reports_N_of_N_witness :
  let N := Js.of_nat (List.length (Part002.enumerated (oneFile (Returns Demo.alice)))) in
  Part002.runValidation (oneFile (Returns Demo.alice)) Demo.inOrder false false
  = ([ Clear; Log "Running validation..." ]
       ++ fst (Part002.validateAllTeamFiles (oneFile (Returns Demo.alice)) false)
       ++ [ Clear; Log "🎉 Great news:";
            Log (N +++ "/" +++ N +++ " files valid") ]
       ++ [],
      Returns false)
  /\ (isWatchMode [] = false
      -> snd (Part002.main (oneFile (Returns Demo.alice)) Demo.inOrder [])
         = Exit 0).
Proof.
  apply (all_in_order_reports_N_of_N (oneFile (Returns Demo.alice))
           Demo.inOrder false []).
  intros filePath [<-|[]].
  exists "/repo/team/only.yaml",
    [ ("name", VStr "Alice"); ("avatar", VStr "alice.png");
      ("roles",
        VObj [ ("Website", VArr [ VStr "Developer" ]);
               ("Volume 0 Issue 1",
                 VArr [ VStr "Artist";
                        VObj [ ("role", VStr "Proofreader");
                               ("details", VStr "chapter 2") ] ]) ]) ],
    "alice.png".
  repeat split.
Defined.

(** X6.  What an uncancelled pass returns is the condition on which its
    report turns to the error banner, the per-file errors and the tips:
    the pass returns [true] exactly when some result carries an error,
    because a result is invalid exactly when it has one. *)
Theorem pass_returns_what_the_report_shows (w : World) (rank : nat -> nat)
  (isWatch : bool) :
  exists results,
    Part002.passResults w rank false = Returns results
    /\ Forall (fun r => isValid r = negb (nonempty (errors r))) results
    /\ Part002.runValidation w rank false isWatch
       = ([ Clear; Log "Running validation..." ]
            ++ fst (Part002.validateAllTeamFiles w false)
            ++ printResults w (Part002.TeamContributor_shape w)
                 (Part002.PROJECTS_FILE w) results
            ++ (if isWatch then [ Log "Waiting for more changes..." ] else []),
           Returns (existsb (fun r => nonempty (errors r)) results)).
Proof.
  destruct (passResults_not_aborted w rank) as (results & Hpass & _ & Heach).
  pose proof (pass_results_invariant w _ _ Heach) as Hinv.
  exists results. split; trivial. split.
  - apply Forall_impl with (2 := Hinv). intros r Hr.
    rewrite <- Hr. now destruct (isValid r).
  - unfold Part002.runValidation. rewrite Hpass.
    now rewrite (existsb_ext_Forall _ _ _ _ Hinv).
Qed.

(** ** Strings: suffixes, dots *)

Lemma append_nil_r (s : string) : s +++ EmptyString = s.
Proof. induction s as [|c s IH]; [reflexivity|]. cbn. now rewrite IH. Qed.

Lemma append_assoc (a b c : string) : (a +++ b) +++ c = a +++ (b +++ c).
Proof. induction a as [|x a IH]; [reflexivity|]. cbn. now rewrite IH. Qed.

Lemma length_append (a b : string) :
  String.length (a +++ b) = String.length a + String.length b.
Proof. induction a as [|x a IH]; [reflexivity|]. cbn. now rewrite IH. Qed.

Lemma substring_all (s : string) : String.substring 0 (String.length s) s = s.
Proof. induction s as [|c s IH]; [reflexivity|]. cbn. now rewrite IH. Qed.

Lemma substring_skip (a b : string) (m : nat) :
  String.substring (String.length a) m (a +++ b) = String.substring 0 m b.
Proof. induction a as [|x a IH]; [reflexivity|]. cbn. exact IH. Qed.

Lemma substring_split (s : string) (k : nat) :
  k <= String.length s ->
  s = String.substring 0 k s
        +++ String.substring k (String.length s - k) s.
Proof.
  revert k. induction s as [|c s IH]; intros [|k] Hk; cbn in *; try lia.
  - reflexivity.
  - now rewrite substring_all.
  - f_equal. apply IH. lia.
Qed.

Lemma endsWith_spec (s suffix : string) :
  Js.endsWith s suffix = true <-> exists stem, s = stem +++ suffix.
Proof.
  unfold Js.endsWith. split.
  - intros H. apply andb_true_iff in H. destruct H as [Hle Heq].
    apply Nat.leb_le in Hle. apply String.eqb_eq in Heq.
    exists (String.substring 0 (String.length s - String.length suffix) s).
    pose proof (substring_split s (String.length s - String.length suffix))
      as H.
    replace (String.length s - (String.length s - String.length suffix))
      with (String.length suffix) in H by lia.
    rewrite Heq in H. apply H. lia.
  - intros [stem ->]. rewrite length_append. apply andb_true_iff. split.
    + apply Nat.leb_le. lia.
    + replace (String.length stem + String.length suffix - String.length suffix)
        with (String.length stem) by lia.
      rewrite substring_skip, substring_all. apply String.eqb_refl.
Qed.

Lemma includes_dot_cons (c : ascii) (s : string) :
  Js.includes (String c s) "." = Ascii.eqb c "."%char || Js.includes s ".".
Proof.
  cbn [Js.includes String.prefix].
  destruct (ascii_dec "." c) as [<-|Hne].
  - now destruct s.
  - destruct (Ascii.eqb_spec c "."%char) as [->|_]; [congruence|reflexivity].
Qed.

(** Up to the first dot: the piece in progress is closed there. *)
Lemma split_dot_from_first (piece name rest : string) :
  Js.includes name "." = false ->
  Js.split_dot_from piece (name +++ String "."%char rest)
  = (piece +++ name) :: Js.split_dot_from EmptyString rest.
Proof.
  revert piece. induction name as [|c name IH]; intros piece Hno.
  - cbn. now rewrite append_nil_r.
  - rewrite includes_dot_cons in Hno. apply orb_false_iff in Hno.
    destruct Hno as [Hc Hname]. cbn [String.append Js.split_dot_from].
    rewrite Hc, (IH _ Hname), append_assoc. reflexivity.
Qed.

(** X7.  The enumerated files of a pass are exactly the names of the
    listing that end in [.yaml] or [.yml], each as often as the listing
    has it and in the order of the listing, joined to the team directory;
    any other name is left out. *)
Theorem only_yaml_files_are_enumerated (w : World) (names : list string) :
  readdirSync w (Part002.TEAM_DIR w) = Returns names ->
  Part002.enumerated w
  = map (path_join w (Part002.TEAM_DIR w))
      (filter Part002.isRecordFile names)
  /\ (forall name,
         Part002.isRecordFile name = true
         <-> exists stem ext,
             (ext = ".yaml" \/ ext = ".yml") /\ name = stem +++ ext)
  /\ forall filePath,
      In filePath (Part002.enumerated w)
      <-> exists stem ext,
          (ext = ".yaml" \/ ext = ".yml")
          /\ In (stem +++ ext) names
          /\ filePath = path_join w (Part002.TEAM_DIR w) (stem +++ ext).
Proof.
  intros Hdir.
  assert (Hrec : forall name,
             Part002.isRecordFile name = true
             <-> exists stem ext,
                 (ext = ".yaml" \/ ext = ".yml") /\ name = stem +++ ext).
  { intros name. unfold Part002.isRecordFile. rewrite orb_true_iff.
    rewrite !endsWith_spec. split.
    - intros [[stem ->]|[stem ->]]; eauto.
    - intros (stem & ext & [->| ->] & ->); eauto. }
  unfold Part002.enumerated, Part002.recordFiles. rewrite Hdir.
  split; [reflexivity|]. split; [exact Hrec|].
  intros filePath. rewrite in_map_iff. split.
  - intros (name & <- & Hin). apply filter_In in Hin.
    destruct Hin as [Hin Hname]. apply Hrec in Hname.
    destruct Hname as (stem & ext & Hext & ->). eauto.
  - intros (stem & ext & Hext & Hin & ->). exists (stem +++ ext).
    split; trivial. apply filter_In. split; trivial.
    apply Hrec. eauto.
Qed.

Lemma only_yaml_files_are_enumerated_witness :
  Part002.enumerated Demo.repo
  = [ "/repo/team/alice.yaml"; "/repo/team/bob.yaml";
      "/repo/team/broken.yaml"; "/repo/team/carol.yml";
      "/repo/team/dave.yaml"; "/repo/team/erin.yaml";
      "/repo/team/frank.yaml" ]
  /\ (forall name,
         Part002.isRecordFile name = true
         <-> exists stem ext,
             (ext = ".yaml" \/ ext = ".yml") /\ name = stem +++ ext)
  /\ forall filePath,
      In filePath (Part002.enumerated Demo.repo)
      <-> exists stem ext,
          (ext = ".yaml" \/ ext = ".yml")
          /\ In (stem +++ ext) Demo.listing
          /\ filePath
             = path_join Demo.repo (Part002.TEAM_DIR Demo.repo) (stem +++ ext).
Proof.
  apply (only_yaml_files_are_enumerated Demo.repo Demo.listing).
  reflexivity.
Defined.

(** X8.  The invalid-role error names the project by the second
    dot-separated piece of the joined path: the project itself when its
    name holds no dot, and only what precedes the first dot when it holds
    one.  The classifiers of [part_002] and [part_001] agree on it. *)
Theorem project_name_is_cut_at_a_dot (w : World) (filePath name : string)
  (i : nat) (errs : list (list ZodIssue)) :
  Js.includes name "." = false ->
  let raw project := invalid_union_issue [Key "roles"; Key project; Idx i] errs in
  Part002.formatValidationError w (raw name) filePath
  = Throws (Part002.InvalidRoleError w name filePath)
  /\ forall tail,
      Part002.formatValidationError w (raw (name +++ "." +++ tail)) filePath
      = Throws (Part002.InvalidRoleError w name filePath)
      /\ Part001.formatValidationError w (raw (name +++ "." +++ tail)) filePath
         = Throws
             (Part001.InvalidRoleError w
                (Part001.receivedRole (raw (name +++ "." +++ tail)))
                name filePath).
Proof.
  intros Hno raw.
  assert (Hjoin : forall project,
             path_join_dot [Key "roles"; Key project; Idx i]
             = "roles" +++ String "."%char (project +++ "." +++ Js.of_nat i))
    by reflexivity.
  assert (Hname : forall rest,
             Js.at_index 1
               (Js.split_dot ("roles" +++ String "."%char (name +++ String "."%char rest)))
             = name).
  { intros rest. unfold Js.split_dot.
    rewrite (split_dot_from_first EmptyString "roles") by reflexivity.
    now rewrite (split_dot_from_first EmptyString name _ Hno). }
  assert (Hesc : forall project,
             code_role_escalation (raw project) = true).
  { intros project. unfold code_role_escalation, raw.
    cbn [code path invalid_union_issue]. rewrite Hjoin.
    cbn. now destruct (project +++ _). }
  split; [|intros tail; split].
  - rewrite role_escalation_002, Hesc. unfold raw. cbn [path invalid_union_issue].
    rewrite Hjoin. change (name +++ "." +++ Js.of_nat i)
      with (name +++ String "."%char (Js.of_nat i)).
    now rewrite Hname.
  - rewrite role_escalation_002, Hesc. unfold raw. cbn [path invalid_union_issue].
    rewrite Hjoin, !append_assoc.
    change ("." +++ tail +++ "." +++ Js.of_nat i)
      with (String "."%char (tail +++ "." +++ Js.of_nat i)).
    now rewrite Hname.
  - rewrite role_escalation_001, Hesc. unfold raw at 2.
    cbn [path invalid_union_issue].
    rewrite Hjoin, !append_assoc.
    change ("." +++ tail +++ "." +++ Js.of_nat i)
      with (String "."%char (tail +++ "." +++ Js.of_nat i)).
    now rewrite Hname.
Qed.

Lemma project_name_is_cut_at_a_dot_witness :
  let raw project := invalid_union_issue [Key "roles"; Key project; Idx 0] [] in
  Part002.formatValidationError Demo.repo (raw "Vol") "/repo/team/dave.yaml"
  = Throws (Part002.InvalidRoleError Demo.repo "Vol" "/repo/team/dave.yaml")
  /\ forall tail,
      Part002.formatValidationError Demo.repo (raw ("Vol" +++ "." +++ tail))
        "/repo/team/dave.yaml"
      = Throws (Part002.InvalidRoleError Demo.repo "Vol" "/repo/team/dave.yaml")
      /\ Part001.formatValidationError Demo.repo (raw ("Vol" +++ "." +++ tail))
           "/repo/team/dave.yaml"
         = Throws
             (Part001.InvalidRoleError Demo.repo
                (Part001.receivedRole (raw ("Vol" +++ "." +++ tail)))
                "Vol" "/repo/team/dave.yaml").
Proof.
  apply (project_name_is_cut_at_a_dot Demo.repo "/repo/team/dave.yaml" "Vol" 0
           []).
  reflexivity.
Defined.

(** ** Watch mode ([part_002]) *)

Lemma validateTeamFile_only_aborts (w : World) (filePath : string)
  (aborted : bool) (e : Thrown) :
  Part002.validateTeamFile w filePath aborted = Throws e -> e = AbortError.
Proof.
  destruct aborted.
  - now intros [= <-].
  - destruct (validateTeamFile_returns w filePath) as (r & -> & _).
    discriminate.
Qed.

Lemma rejections_In (A : Type) (ps : list (Completion Thrown A)) (k i : nat)
  (e : Thrown) :
  In (i, e) (rejections k ps) -> In (Throws e) ps.
Proof.
  revert k. induction ps as [|[a|e'] ps IH]; intros k; cbn [rejections].
  - tauto.
  - intros H. right. eauto.
  - intros [[= _ ->]|H]; [now left|]. right. eauto.
Qed.

Lemma earliest_In (rank : nat -> nat) (best : nat * Thrown)
  (l : list (nat * Thrown)) :
  exists i, In (i, earliest rank best l) (best :: l).
Proof.
  revert best. induction l as [|c l IH]; intros best; cbn [earliest].
  - exists (fst best). left. now destruct best.
  - destruct (IH (if Nat.ltb (rank (fst c)) (rank (fst best)) then c else best))
      as [i [H|H]].
    + exists i. destruct (Nat.ltb _ _); [right; now left|now left].
    + exists i. right. now right.
Qed.

Lemma Promise_all_only_aborts (A : Type) (rank : nat -> nat)
  (ps : list (Completion Thrown A)) (e : Thrown) :
  (forall c e', In c ps -> c = Throws e' -> e' = AbortError) ->
  Promise_all rank ps = Throws e -> e = AbortError.
Proof.
  intros Hps. unfold Promise_all.
  destruct (rejections 0 ps) as [|first others] eqn:Hrej; [discriminate|].
  intros [= <-].
  destruct (earliest_In rank first others) as [i Hin].
  rewrite <- Hrej in Hin. apply rejections_In in Hin. eauto.
Qed.

Section WatchFacts.

Import Watch002.

Variable w0 : World.

Lemma isAborted_false (st : State) (s : nat) :
  isAborted st s = false <-> ~ In s (abortedSignals st).
Proof.
  unfold isAborted. split.
  - intros H Hin.
    assert (existsb (Nat.eqb s) (abortedSignals st) = true); [|congruence].
    apply existsb_exists. exists s. split; trivial. apply Nat.eqb_refl.
  - intros H. destruct (existsb _ _) eqn:E; trivial.
    apply existsb_exists in E. destruct E as (x & Hx & Heq).
    apply Nat.eqb_eq in Heq. subst x. contradiction.
Qed.

Lemma In_without_pass (signal : nat) (st : State) (p : Pass) :
  In p (without_pass signal st)
  <-> In p (passes st) /\ pass_signal p <> signal.
Proof.
  unfold without_pass. rewrite filter_In, negb_true_iff, Nat.eqb_neq. tauto.
Qed.

Lemma signals_without_pass (signal : nat) (st : State) :
  map pass_signal (without_pass signal st)
  = filter (fun s => negb (Nat.eqb s signal)) (map pass_signal (passes st)).
Proof.
  unfold without_pass. induction (passes st) as [|p l IH]; [reflexivity|].
  cbn [filter map]. destruct (Nat.eqb (pass_signal p) signal); cbn [negb map];
    now rewrite IH.
Qed.

Lemma find_pass_In (signal : nat) (st : State) (p : Pass) :
  find_pass signal st = Some p -> In p (passes st) /\ pass_signal p = signal.
Proof.
  intros H. apply find_some in H. now rewrite Nat.eqb_eq in H.
Qed.

Lemma wellFormed_enter (st : State) : wellFormed st -> wellFormed (enter st).
Proof.
  intros [Hfresh Habo Hnodup Hcur Hlive Hchecks].
  assert (Hcurlt : forall s, currentValidationController st = Some s ->
                             s < created st).
  { intros s Hs. destruct (Hcur s Hs) as [_ Hin].
    apply in_map_iff in Hin. destruct Hin as (p & <- & Hp). auto. }
  assert (Habo' : forall s,
             In s (abortedSignals (enter st)) -> s < created st).
  { unfold enter. cbn [abortedSignals]. intros s Hs.
    destruct (currentValidationController st) as [c|] eqn:Hc; auto.
    destruct Hs as [<-|Hs]; auto. }
  constructor.
  - unfold enter. cbn [passes created]. intros p Hp.
    apply in_app_or in Hp. destruct Hp as [Hp|[<-|[]]]; cbn [pass_signal];
      [specialize (Hfresh p Hp)|]; lia.
  - intros s Hs. specialize (Habo' s Hs). unfold enter. cbn [created]. lia.
  - unfold enter. cbn [passes]. rewrite map_app. apply NoDup_app; trivial.
    + repeat constructor. cbn. tauto.
    + intros s Hs [<-|[]]. apply in_map_iff in Hs.
      destruct Hs as (p & Hsig & Hp). specialize (Hfresh p Hp). cbn in Hsig. lia.
  - intros s Hs. unfold enter in Hs. cbn [currentValidationController] in Hs.
    injection Hs as <-. split.
    + apply isAborted_false. intros Hin. specialize (Habo' _ Hin). lia.
    + unfold enter. cbn [passes]. rewrite map_app. apply in_or_app. right.
      now left.
  - intros p Hp Hlivep. unfold enter in Hp. cbn [passes] in Hp.
    apply in_app_or in Hp. destruct Hp as [Hp|[<-|[]]]; [|reflexivity].
    exfalso. apply isAborted_false in Hlivep.
    unfold enter in Hlivep. cbn [abortedSignals] in Hlivep.
    destruct (currentValidationController st) as [c|] eqn:Hc.
    + assert (Hold : isAborted st (pass_signal p) = false).
      { apply isAborted_false. intros Hin. apply Hlivep. now right. }
      specialize (Hlive p Hp Hold). rewrite Hc in Hlive.
      injection Hlive as ->. apply Hlivep. now left.
    + assert (Hold : isAborted st (pass_signal p) = false)
        by now apply isAborted_false.
      specialize (Hlive p Hp Hold). congruence.
  - intros p w ps c e Hp. unfold enter in Hp. cbn [passes] in Hp.
    apply in_app_or in Hp. destruct Hp as [Hp|[<-|[]]]; [eauto|].
    discriminate.
Qed.

Lemma wellFormed_console (st : State) (printed : Console)
  (status : option nat) :
  wellFormed st ->
  wellFormed
    (mkState (currentValidationController st) (created st)
       (abortedSignals st) (passes st) printed status).
Proof. intros [H1 H2 H3 H4 H5 H6]. now constructor. Qed.

Lemma wellFormed_sleepOver (signal : nat) (w : World) (st : State) :
  wellFormed st -> wellFormed (sleepOver signal w st).
Proof.
  intros Hwf. unfold sleepOver.
  destruct (find_pass signal st) as [[s [checks|]]|] eqn:Hfind; trivial.
  apply find_pass_In in Hfind. destruct Hfind as [Hin Hsig].
  cbn [pass_signal] in Hsig. subst s.
  destruct (Part002.validateAllTeamFiles w (isAborted st signal))
    as [logged promises] eqn:Hall.
  destruct Hwf as [Hfresh Habo Hnodup Hcur Hlive Hchecks].
  assert (Hin' : forall p,
             In p (without_pass signal st ++ [ mkPass signal (Some (w, promises)) ])
             -> pass_signal p = signal
                \/ (In p (passes st) /\ pass_signal p <> signal)).
  { intros p Hp. apply in_app_or in Hp. destruct Hp as [Hp|[<-|[]]].
    - right. now apply In_without_pass.
    - now left. }
  constructor; cbn [passes created abortedSignals currentValidationController].
  - intros p Hp. destruct (Hin' p Hp) as [->|[Hp' _]]; auto.
    apply (Hfresh _ Hin).
  - exact Habo.
  - rewrite map_app, signals_without_pass. apply NoDup_app.
    + now apply NoDup_filter.
    + repeat constructor. cbn. tauto.
    + intros s Hs [<-|[]]. apply filter_In in Hs.
      rewrite negb_true_iff, Nat.eqb_neq in Hs. tauto.
  - intros s Hs. destruct (Hcur s Hs) as [Hlive' Hins]. split; trivial.
    rewrite map_app, signals_without_pass.
    destruct (Nat.eq_dec s signal) as [->|Hne].
    + apply in_or_app. right. now left.
    + apply in_or_app. left. apply filter_In. split; trivial.
      now rewrite negb_true_iff, Nat.eqb_neq.
  - intros p Hp Hlivep.
    cbn [passes currentValidationController] in *.
    unfold isAborted in *. cbn [abortedSignals] in *.
    destruct (Hin' p Hp) as [Hsig|[Hp' _]].
    + rewrite Hsig in *. apply (Hlive _ Hin Hlivep).
    + apply (Hlive _ Hp' Hlivep).
  - intros p w' ps c e Hp Hck Hc ->.
    apply in_app_or in Hp. destruct Hp as [Hp|[<-|[]]].
    + apply In_without_pass in Hp. destruct Hp as [Hp _].
      eapply Hchecks; eauto.
    + cbn [pass_checks] in Hck. injection Hck as <- <-.
      assert (promises = snd (Part002.validateAllTeamFiles w (isAborted st signal)))
        by now rewrite Hall.
      subst promises. rewrite validateAllTeamFiles_promises in Hc.
      apply in_map_iff in Hc. destruct Hc as (file & Hfile & _).
      now apply validateTeamFile_only_aborts in Hfile.
Qed.

Lemma wellFormed_leave (signal : nat) (st : State) (printed : Console)
  (status : option nat) :
  wellFormed st ->
  wellFormed
    (mkState (released signal st) (created st) (abortedSignals st)
       (without_pass signal st) printed status).
Proof.
  intros [Hfresh Habo Hnodup Hcur Hlive Hchecks].
  assert (Hrel : forall s, released signal st = Some s ->
                           currentValidationController st = Some s
                           /\ s <> signal).
  { unfold released. intros s.
    destruct (currentValidationController st) as [c|]; [|discriminate].
    destruct (Nat.eqb_spec c signal); [discriminate|]. intros [= <-]. auto. }
  constructor; cbn [passes created abortedSignals currentValidationController].
  - intros p Hp. apply In_without_pass in Hp. apply Hfresh, Hp.
  - exact Habo.
  - rewrite signals_without_pass. now apply NoDup_filter.
  - intros s Hs. destruct (Hrel s Hs) as [Hc Hne].
    destruct (Hcur s Hc) as [Hl Hin]. split; trivial.
    rewrite signals_without_pass. apply filter_In. split; trivial.
    now rewrite negb_true_iff, Nat.eqb_neq.
  - intros p Hp Hlivep. cbn [passes currentValidationController] in *.
    apply In_without_pass in Hp. destruct Hp as [Hp Hne].
    assert (Hc : currentValidationController st = Some (pass_signal p))
      by (apply Hlive; trivial).
    unfold released. rewrite Hc.
    destruct (Nat.eqb_spec (pass_signal p) signal); [contradiction|reflexivity].
  - intros p w ps c e Hp. apply In_without_pass in Hp. destruct Hp as [Hp _].
    eauto.
Qed.

Lemma wellFormed_settled (signal : nat) (rank : nat -> nat) (st : State) :
  wellFormed st -> wellFormed (settled signal rank st).
Proof.
  intros Hwf. unfold settled.
  destruct (find_pass signal st) as [[s [[w promises]|]]|]; trivial.
  destruct (Promise_all rank promises) as [results|error];
    [|destruct (isAbortError error)]; now apply wellFormed_leave.
Qed.

Lemma wellFormed_step (st : State) (m : Move) :
  wellFormed st -> wellFormed (step w0 st m).
Proof.
  intros Hwf. unfold step. destruct (exitStatus st); trivial.
  destruct m as [c|signal w|signal rank|].
  - unfold changed, log.
    destruct c as [eventType [f|]|eventType|eventType];
      try destruct (Part002.isRecordFile f);
      try apply wellFormed_enter; now apply wellFormed_console.
  - now apply wellFormed_sleepOver.
  - now apply wellFormed_settled.
  - now apply wellFormed_console.
Qed.

Lemma wellFormed_start (watch : string -> Completion ExternalFailure unit) :
  wellFormed (startWatchMode w0 watch).
Proof.
  assert (H : wellFormed
                (enter (mkState None 0 [] [] [ Log "Time to watch 👀" ] None))).
  { apply wellFormed_enter. constructor; cbn; try tauto; try discriminate.
    - constructor.
    - intros p []. }
  unfold startWatchMode. destruct (setWatchers w0 watch); trivial.
  unfold uncaught. now apply wellFormed_console.
Qed.

Lemma wellFormed_runFrom (watch : string -> Completion ExternalFailure unit)
  (moves : list Move) :
  wellFormed (runFrom w0 watch moves).
Proof.
  unfold runFrom. generalize (wellFormed_start watch).
  generalize (startWatchMode w0 watch).
  induction moves as [|m moves IH]; intros st Hwf; [exact Hwf|].
  cbn [fold_left]. apply IH. now apply wellFormed_step.
Qed.

Lemma wellFormed_run (moves : list Move) : wellFormed (run w0 moves).
Proof. apply wellFormed_runFrom. Qed.

End WatchFacts.

Section WatchProperties.

Import Watch002.

Variable w0 : World.

Lemma changed_triggers (c : Change) (st : State) :
  changed w0 c st
  = if triggers c then enter (log (callbackLine w0 c) st)
    else log (callbackLine w0 c) st.
Proof.
  destruct c as [eventType [f|]|eventType|eventType]; reflexivity.
Qed.

Lemma find_app_l (A : Type) (f : A -> bool) (l l' : list A) (a : A) :
  find f l = Some a -> find f (l ++ l') = Some a.
Proof.
  induction l as [|x l IH]; [discriminate|]. cbn [find app].
  now destruct (f x).
Qed.

Lemma find_app_r (A : Type) (f : A -> bool) (l l' : list A) :
  find f l = None -> find f (l ++ l') = find f l'.
Proof.
  induction l as [|x l IH]; [reflexivity|]. cbn [find app].
  now destruct (f x).
Qed.

Lemma find_without_pass (signal : nat) (st : State) :
  find (fun p => Nat.eqb (pass_signal p) signal) (without_pass signal st)
  = None.
Proof.
  unfold without_pass. induction (passes st) as [|p l IH]; [reflexivity|].
  cbn [filter]. destruct (Nat.eqb (pass_signal p) signal) eqn:E; cbn [negb];
    trivial. cbn [find]. now rewrite E.
Qed.

Lemma settled_exit (signal : nat) (rank : nat -> nat) (st : State) :
  wellFormed st -> exitStatus (settled signal rank st) = exitStatus st.
Proof.
  intros Hwf. unfold settled.
  destruct (find_pass signal st) as [[s [[w promises]|]]|] eqn:Hfind; trivial.
  apply find_pass_In in Hfind. destruct Hfind as [Hin _].
  destruct (Promise_all rank promises) as [results|error] eqn:Hall; trivial.
  assert (error = AbortError) as ->; [|reflexivity].
  apply (Promise_all_only_aborts _ rank promises); trivial.
  intros c e Hc He. eapply (wf_checks Hwf); eauto. reflexivity.
Qed.

Lemma step_exit (st : State) (m : Move) :
  wellFormed st -> exitStatus st = None ->
  exitStatus (step w0 st m) = if isSigint m then Some 0 else None.
Proof.
  intros Hwf Hexit. unfold step. rewrite Hexit.
  destruct m as [c|signal w|signal rank|]; cbn [isSigint].
  - rewrite changed_triggers. now destruct (triggers c).
  - unfold sleepOver.
    destruct (find_pass signal st) as [[s [checks|]]|]; trivial.
    now destruct (Part002.validateAllTeamFiles w _).
  - now rewrite settled_exit.
  - reflexivity.
Qed.

Lemma fold_exit (moves : list Move) (st : State) :
  wellFormed st ->
  exitStatus (fold_left (step w0) moves st)
  = match exitStatus st with
    | Some k => Some k
    | None => if existsb isSigint moves then Some 0 else None
    end.
Proof.
  revert st. induction moves as [|m moves IH]; intros st Hwf.
  - cbn. now destruct (exitStatus st).
  - cbn [fold_left existsb]. rewrite IH by now apply wellFormed_step.
    destruct (exitStatus st) as [k|] eqn:Hexit.
    + unfold step. now rewrite Hexit, Hexit.
    + rewrite (step_exit _ _ Hwf Hexit). now destruct (isSigint m).
Qed.

End WatchProperties.

(** X9.  In watch mode, whatever the watchers report and however the
    passes interleave, at most one pass in flight holds a signal that is
    not aborted; it is the pass of the current controller, and the current
    controller always belongs to a pass in flight. *)
Theorem at_most_one_live_pass (w0 : World) (moves : list Watch002.Move) :
  let st := Watch002.run w0 moves in
  (forall p q,
      In p (Watch002.passes st) -> In q (Watch002.passes st) ->
      Watch002.isAborted st (Watch002.pass_signal p) = false ->
      Watch002.isAborted st (Watch002.pass_signal q) = false ->
      Watch002.pass_signal p = Watch002.pass_signal q
      /\ Watch002.currentValidationController st
         = Some (Watch002.pass_signal p))
  /\ (forall s,
         Watch002.currentValidationController st = Some s ->
         Watch002.isAborted st s = false
         /\ In s (map Watch002.pass_signal (Watch002.passes st))).
Proof.
  intros st. pose proof (wellFormed_run w0 moves) as Hwf. fold st in Hwf.
  split.
  - intros p q Hp Hq Hlp Hlq.
    pose proof (Watch002.wf_live Hwf p Hp Hlp) as Hcp.
    pose proof (Watch002.wf_live Hwf q Hq Hlq) as Hcq.
    split; trivial. congruence.
  - apply (Watch002.wf_current Hwf).
Qed.

(** X10.  Watch mode ends in two ways only.  When one of the three
    watchers cannot be set, the exception leaves [startWatchMode] and the
    process ends with status 1, after the greeting and the opening line of
    the first pass and whatever comes next.  When the watchers are set,
    the process has exited after any moves, with status 0, exactly when
    [SIGINT] was among them; no invalid file, unreadable directory or
    cancelled pass ends it. *)
Theorem watch_mode_ends_at_start_or_interrupt (w0 : World)
  (watch : string -> Completion ExternalFailure unit)
  (moves : list Watch002.Move) :
  match Watch002.setWatchers w0 watch with
  | Throws _ =>
      Watch002.runFrom w0 watch moves
      = Watch002.mkState (Some 0) 1 [] [ Watch002.mkPass 0 None ]
          [ Log "Time to watch 👀"; Clear; Log "Running validation..." ]
          (Some 1)
  | Returns _ =>
      Watch002.exitStatus (Watch002.runFrom w0 watch moves)
      = if existsb Watch002.isSigint moves then Some 0 else None
  end.
Proof.
  pose proof (wellFormed_start w0 watch) as Hwf.
  unfold Watch002.runFrom. unfold Watch002.startWatchMode in *.
  destruct (Watch002.setWatchers w0 watch) as [[]|e].
  - now rewrite fold_exit.
  - clear Hwf. induction moves as [|m moves IH]; [reflexivity|].
    cbn [fold_left]. exact IH.
Qed.

Section WatchPasses.

Import Watch002.

Variable w0 : World.

Lemma find_pass_enter (signal : nat) (st : State) (p : Pass) :
  find_pass signal st = Some p -> find_pass signal (enter st) = Some p.
Proof. unfold find_pass, enter. cbn [passes]. apply find_app_l. Qed.

Lemma find_pass_new (st : State) :
  wellFormed st ->
  find_pass (created st) (enter st) = Some (mkPass (created st) None).
Proof.
  intros Hwf. unfold find_pass, enter. cbn [passes]. rewrite find_app_r.
  - cbn. now rewrite Nat.eqb_refl.
  - destruct (find _ (passes st)) as [p|] eqn:E; trivial.
    apply find_some in E. destruct E as [Hin Heq]. apply Nat.eqb_eq in Heq.
    pose proof (wf_fresh Hwf p Hin). lia.
Qed.

Lemma isAborted_log (line : string) (st : State) (s : nat) :
  isAborted (log line st) s = isAborted st s.
Proof. reflexivity. Qed.

(** Entering aborts whatever pass was live. *)
Lemma enter_aborts (st : State) (p : Pass) :
  wellFormed st -> In p (passes st) ->
  isAborted (enter st) (pass_signal p) = true.
Proof.
  intros Hwf Hp.
  destruct (isAborted (enter st) (pass_signal p)) eqn:E; trivial.
  apply isAborted_false in E. unfold enter in E. cbn [abortedSignals] in E.
  destruct (currentValidationController st) as [c|] eqn:Hc.
  - assert (Hold : isAborted st (pass_signal p) = false).
    { apply isAborted_false. intros Hin. apply E. now right. }
    pose proof (wf_live Hwf p Hp Hold) as Hlive. rewrite Hc in Hlive.
    injection Hlive as ->. exfalso. apply E. now left.
  - assert (Hold : isAborted st (pass_signal p) = false)
      by now apply isAborted_false.
    pose proof (wf_live Hwf p Hp Hold). congruence.
Qed.

End WatchPasses.

(** X11.  A pass that nothing interrupts prints what [runValidation]
    prints: the first pass of watch mode after the greeting, and any pass
    a change starts while none is in flight after the line of the
    callback; the controller is released and no pass is left in flight. *)
Theorem undisturbed_pass_is_runValidation (w0 : World)
  (moves : list Watch002.Move) (c : Watch002.Change) (w : World)
  (rank : nat -> nat) :
  let st := Watch002.run w0 moves in
  Watch002.exitStatus st = None ->
  Watch002.passes st = [] ->
  Watch002.triggers c = true ->
  Watch002.run w0 [ Watch002.SleepOver 0 w; Watch002.Settled 0 rank ]
  = Watch002.mkState None 1 [] []
      (Log "Time to watch 👀" :: fst (Part002.runValidation w rank false false))
      None
  /\ fold_left (Watch002.step w0)
       [ Watch002.Changed c;
         Watch002.SleepOver (Watch002.created st) w;
         Watch002.Settled (Watch002.created st) rank ]
       st
     = Watch002.mkState None (S (Watch002.created st))
         (Watch002.abortedSignals st) []
         (Watch002.console st
            ++ Log (Watch002.callbackLine w0 c)
                 :: fst (Part002.runValidation w rank false false))
         None.
Proof.
  intros st Hexit Hpasses Htrig.
  destruct (passResults_not_aborted w rank) as (results & Hpass & _ & _).
  assert (Hrun : fst (Part002.runValidation w rank false false)
                 = [ Clear; Log "Running validation..." ]
                     ++ fst (Part002.validateAllTeamFiles w false)
                     ++ printResults w (Part002.TeamContributor_shape w)
                          (Part002.PROJECTS_FILE w) results).
  { unfold Part002.runValidation. rewrite Hpass. cbn [fst].
    now rewrite app_nil_r. }
  unfold Part002.passResults in Hpass.
  destruct (Part002.validateAllTeamFiles w false) as [logged promises] eqn:Hall.
  cbn [fst snd] in Hrun, Hpass.
  split.
  - unfold Watch002.run, Watch002.runFrom. cbn [fold_left].
    change (Watch002.startWatchMode w0 Watch002.watchersSet)
      with (Watch002.enter
              (Watch002.mkState None 0 [] [] [ Log "Time to watch 👀" ] None)).
    unfold Watch002.step at 2. cbn [Watch002.exitStatus Watch002.enter].
    unfold Watch002.sleepOver, Watch002.find_pass, Watch002.isAborted.
    cbn. rewrite Hall.
    unfold Watch002.step, Watch002.settled, Watch002.find_pass.
    cbn. rewrite Hpass. unfold Watch002.released. cbn.
    rewrite Hrun. reflexivity.
  - pose proof (wellFormed_run w0 moves) as Hwf. fold st in Hwf.
    assert (Hcur : Watch002.currentValidationController st = None).
    { destruct (Watch002.currentValidationController st) as [s|] eqn:E;
        trivial.
      destruct (@Watch002.wf_current st Hwf s E) as [_ Hin].
      rewrite Hpasses in Hin. destruct Hin. }
    assert (Hfresh : Watch002.isAborted st (Watch002.created st) = false).
    { apply isAborted_false. intros Hin.
      pose proof (@Watch002.wf_aborted st Hwf _ Hin). lia. }
    unfold Watch002.isAborted in Hfresh. clear Hwf. clearbody st.
    destruct st as [cur cr ab ps con ex].
    cbn [Watch002.currentValidationController Watch002.created
           Watch002.abortedSignals Watch002.passes Watch002.console
           Watch002.exitStatus] in *.
    subst cur ps ex. cbn [fold_left].
    unfold Watch002.step at 3. cbn [Watch002.exitStatus].
    rewrite changed_triggers, Htrig. unfold Watch002.enter, Watch002.log.
    cbn [Watch002.currentValidationController Watch002.created
           Watch002.abortedSignals Watch002.passes Watch002.console
           Watch002.exitStatus app].
    unfold Watch002.step at 2. cbn [Watch002.exitStatus].
    unfold Watch002.sleepOver, Watch002.find_pass, Watch002.without_pass,
      Watch002.isAborted.
    cbn [Watch002.passes find Watch002.pass_signal filter
           Watch002.abortedSignals].
    rewrite Nat.eqb_refl, Hfresh, Hall. cbn [negb app].
    unfold Watch002.step. cbn [Watch002.exitStatus].
    unfold Watch002.settled, Watch002.find_pass, Watch002.without_pass,
      Watch002.released.
    cbn [Watch002.passes find Watch002.pass_signal filter
           Watch002.currentValidationController].
    rewrite Nat.eqb_refl, Hpass. cbn [negb].
    cbn [Watch002.created Watch002.abortedSignals Watch002.console
           Watch002.exitStatus].
    rewrite Hrun. f_equal. rewrite <- !app_assoc. reflexivity.
Qed.

Lemma undisturbed_pass_is_runValidation_witness :
  let st :=
    Watch002.run Demo.repo
      [ Watch002.SleepOver 0 Demo.repo; Watch002.Settled 0 Demo.inOrder ] in
  let c := Watch002.TeamChange "change" (Some "alice.yaml") in
  Watch002.run Demo.repo
    [ Watch002.SleepOver 0 Demo.noTeamDir; Watch002.Settled 0 Demo.inOrder ]
  = Watch002.mkState None 1 [] []
      (Log "Time to watch 👀"
         :: fst (Part002.runValidation Demo.noTeamDir Demo.inOrder false false))
      None
  /\ fold_left (Watch002.step Demo.repo)
       [ Watch002.Changed c;
         Watch002.SleepOver (Watch002.created st) Demo.noTeamDir;
         Watch002.Settled (Watch002.created st) Demo.inOrder ]
       st
     = Watch002.mkState None (S (Watch002.created st))
         (Watch002.abortedSignals st) []
         (Watch002.console st
            ++ Log (Watch002.callbackLine Demo.repo c)
                 :: fst (Part002.runValidation Demo.noTeamDir Demo.inOrder
                           false false))
         None.
Proof.
  apply (undisturbed_pass_is_runValidation Demo.repo
           [ Watch002.SleepOver 0 Demo.repo; Watch002.Settled 0 Demo.inOrder ]
           (Watch002.TeamChange "change" (Some "alice.yaml")) Demo.noTeamDir
           Demo.inOrder);
    reflexivity.
Defined.

Section WatchMoves.

Import Watch002.

Lemma sleepOver_asleep (signal : nat) (w : World) (st : State) :
  find_pass signal st = Some (mkPass signal None) ->
  sleepOver signal w st
  = mkState (currentValidationController st) (created st)
      (abortedSignals st)
      (without_pass signal st
         ++ [ mkPass signal
                (Some (w, snd (Part002.validateAllTeamFiles w
                                 (isAborted st signal)))) ])
      (console st
         ++ fst (Part002.validateAllTeamFiles w (isAborted st signal)))
      (exitStatus st).
Proof.
  intros H. unfold sleepOver. rewrite H.
  now destruct (Part002.validateAllTeamFiles w (isAborted st signal)).
Qed.

Lemma find_pass_moved (signal : nat) (st : State) (cur : option nat)
  (cr : nat) (ab : list nat) (con : Console) (ex : option nat) (p : Pass) :
  pass_signal p = signal ->
  find_pass signal (mkState cur cr ab (without_pass signal st ++ [ p ]) con ex)
  = Some p.
Proof.
  intros Hp. unfold find_pass. cbn [passes].
  rewrite find_app_r by apply find_without_pass.
  cbn [find]. now rewrite Hp, Nat.eqb_refl.
Qed.

Lemma find_pass_left (signal : nat) (st : State) (cur : option nat)
  (cr : nat) (ab : list nat) (con : Console) (ex : option nat) :
  find_pass signal (mkState cur cr ab (without_pass signal st) con ex) = None.
Proof. apply find_without_pass. Qed.

End WatchMoves.

(** X12.  A pass that a change supersedes while it sleeps prints no
    report: once it wakes on a repository with at least one record file,
    all its checks are aborted, and when they settle the console holds
    nothing but the line of the callback and the opening line of the new
    pass; the new controller stays in place and the process goes on. *)
Theorem superseded_sleeping_pass_is_silent (w0 : World)
  (moves : list Watch002.Move) (s : nat) (c : Watch002.Change) (w : World)
  (rank : nat -> nat) :
  let st := Watch002.run w0 moves in
  Watch002.exitStatus st = None ->
  Watch002.find_pass s st = Some (Watch002.mkPass s None) ->
  Watch002.triggers c = true ->
  Part002.enumerated w <> [] ->
  let st' :=
    fold_left (Watch002.step w0)
      [ Watch002.Changed c; Watch002.SleepOver s w; Watch002.Settled s rank ]
      st in
  Watch002.console st'
  = Watch002.console st
      ++ [ Log (Watch002.callbackLine w0 c); Clear;
           Log "Running validation..." ]
  /\ Watch002.find_pass s st' = None
  /\ Watch002.currentValidationController st' = Some (Watch002.created st)
  /\ Watch002.exitStatus st' = None.
Proof.
  intros st Hexit Hfind Htrig Hfiles st'.
  pose proof (wellFormed_run w0 moves) as Hwf. fold st in Hwf.
  destruct (find_pass_In _ _ _ Hfind) as [Hin _].
  pose proof (@Watch002.wf_fresh st Hwf _ Hin) as Hlt.
  cbn [Watch002.pass_signal] in Hlt.
  set (st0 := Watch002.log (Watch002.callbackLine w0 c) st).
  assert (Hwf0 : Watch002.wellFormed st0)
    by (apply wellFormed_console; exact Hwf).
  set (st1 := Watch002.enter st0).
  assert (H1 : Watch002.step w0 st (Watch002.Changed c) = st1).
  { unfold Watch002.step. rewrite Hexit, changed_triggers, Htrig.
    reflexivity. }
  assert (Hfind1 : Watch002.find_pass s st1 = Some (Watch002.mkPass s None))
    by (apply find_pass_enter; exact Hfind).
  assert (Hab1 : Watch002.isAborted st1 s = true)
    by (apply (enter_aborts st0 (Watch002.mkPass s None) Hwf0); exact Hin).
  assert (Hall : Part002.validateAllTeamFiles w true
                 = ([], map (fun _ : string =>
                               @Throws Thrown ValidationResult AbortError)
                          (Part002.enumerated w))).
  { unfold Part002.validateAllTeamFiles, Part002.enumerated in *.
    destruct (readdirSync w (Part002.TEAM_DIR w)); [reflexivity|congruence]. }
  set (st2 := Watch002.sleepOver s w st1).
  assert (H2 : Watch002.step w0 st1 (Watch002.SleepOver s w) = st2)
    by (unfold Watch002.step; cbn [Watch002.exitStatus Watch002.enter st1 st0
                                     Watch002.log]; now rewrite Hexit).
  assert (Hst2 : st2
                 = Watch002.mkState (Some (Watch002.created st))
                     (S (Watch002.created st)) (Watch002.abortedSignals st1)
                     (Watch002.without_pass s st1
                        ++ [ Watch002.mkPass s
                               (Some (w, map (fun _ : string =>
                                                @Throws Thrown ValidationResult
                                                  AbortError)
                                           (Part002.enumerated w))) ])
                     (Watch002.console st1) None).
  { unfold st2. rewrite (sleepOver_asleep _ _ _ Hfind1), Hab1, Hall.
    cbn [fst snd]. rewrite app_nil_r.
    cbn [Watch002.exitStatus Watch002.enter st1 st0 Watch002.log
           Watch002.currentValidationController Watch002.created].
    now rewrite Hexit. }
  assert (H3 : st' = Watch002.settled s rank st2).
  { unfold st'. cbn [fold_left]. rewrite H1, H2. unfold Watch002.step.
    now rewrite Hst2. }
  assert (Hst3 : Watch002.settled s rank st2
                 = Watch002.mkState (Some (Watch002.created st))
                     (S (Watch002.created st)) (Watch002.abortedSignals st1)
                     (Watch002.without_pass s st2)
                     (Watch002.console st1 ++ []) None).
  { unfold Watch002.settled. rewrite Hst2 at 1.
    rewrite find_pass_moved by reflexivity.
    rewrite Promise_all_all_reject by exact Hfiles.
    cbn [isAbortError]. rewrite Hst2 at 1 2 3 5 6.
    unfold Watch002.released.
    cbn [Watch002.currentValidationController Watch002.created
           Watch002.abortedSignals Watch002.console Watch002.exitStatus].
    destruct (Nat.eqb_spec (Watch002.created st) s); [lia|reflexivity]. }
  rewrite H3, Hst3.
  cbn [Watch002.console Watch002.currentValidationController
         Watch002.exitStatus].
  repeat split.
  - rewrite app_nil_r. unfold st1, st0, Watch002.enter, Watch002.log.
    cbn [Watch002.console]. now rewrite <- app_assoc.
  - apply find_pass_left.
Qed.

Lemma superseded_sleeping_pass_is_silent_witness :
  let st := Watch002.run Demo.repo [] in
  let st' :=
    fold_left (Watch002.step Demo.repo)
      [ Watch002.Changed (Watch002.ProjectsChange "change");
        Watch002.SleepOver 0 Demo.repo; Watch002.Settled 0 Demo.inOrder ]
      st in
  Watch002.console st'
  = Watch002.console st
      ++ [ Log (Watch002.callbackLine Demo.repo
                  (Watch002.ProjectsChange "change"));
           Clear; Log "Running validation..." ]
  /\ Watch002.find_pass 0 st' = None
  /\ Watch002.currentValidationController st' = Some (Watch002.created st)
  /\ Watch002.exitStatus st' = None.
Proof.
  apply (superseded_sleeping_pass_is_silent Demo.repo [] 0
           (Watch002.ProjectsChange "change") Demo.repo Demo.inOrder).
  - reflexivity.
  - reflexivity.
  - reflexivity.
  - discriminate.
Defined.

(** X13.  Cancellation is read at the checkpoint only.  A pass whose
    checks were already started when a change supersedes it still prints
    its report when they settle, after the opening line of the new pass
    and although its signal is aborted by then; its [finally] leaves the
    new controller in place. *)
Theorem superseded_running_pass_still_reports (w0 : World)
  (moves : list Watch002.Move) (s : nat) (c : Watch002.Change) (w : World)
  (promises : list (Completion Thrown ValidationResult))
  (results : list ValidationResult) (rank : nat -> nat) :
  let st := Watch002.run w0 moves in
  Watch002.exitStatus st = None ->
  Watch002.find_pass s st
  = Some (Watch002.mkPass s (Some (w, promises))) ->
  Promise_all rank promises = Returns results ->
  Watch002.triggers c = true ->
  let st' :=
    fold_left (Watch002.step w0)
      [ Watch002.Changed c; Watch002.Settled s rank ] st in
  Watch002.console st'
  = Watch002.console st
      ++ [ Log (Watch002.callbackLine w0 c); Clear;
           Log "Running validation..." ]
      ++ printResults w (Part002.TeamContributor_shape w)
           (Part002.PROJECTS_FILE w) results
  /\ Watch002.isAborted st' s = true
  /\ Watch002.currentValidationController st' = Some (Watch002.created st).
Proof.
  intros st Hexit Hfind Hall Htrig st'.
  pose proof (wellFormed_run w0 moves) as Hwf. fold st in Hwf.
  destruct (find_pass_In _ _ _ Hfind) as [Hin _].
  pose proof (@Watch002.wf_fresh st Hwf _ Hin) as Hlt.
  cbn [Watch002.pass_signal] in Hlt.
  set (st0 := Watch002.log (Watch002.callbackLine w0 c) st).
  assert (Hwf0 : Watch002.wellFormed st0)
    by (apply wellFormed_console; exact Hwf).
  set (st1 := Watch002.enter st0).
  assert (H1 : Watch002.step w0 st (Watch002.Changed c) = st1).
  { unfold Watch002.step. rewrite Hexit, changed_triggers, Htrig.
    reflexivity. }
  assert (Hfind1 : Watch002.find_pass s st1
                   = Some (Watch002.mkPass s (Some (w, promises))))
    by (apply find_pass_enter; exact Hfind).
  assert (Hab1 : Watch002.isAborted st1 s = true)
    by (apply (enter_aborts st0 _ Hwf0 Hin)).
  assert (H2 : st' = Watch002.settled s rank st1).
  { unfold st'. cbn [fold_left]. rewrite H1. unfold Watch002.step.
    cbn [Watch002.exitStatus Watch002.enter st1 st0 Watch002.log].
    now rewrite Hexit. }
  rewrite H2. unfold Watch002.settled. rewrite Hfind1, Hall.
  cbn [Watch002.console Watch002.currentValidationController].
  repeat split.
  - unfold st1, st0, Watch002.enter, Watch002.log. cbn [Watch002.console].
    now rewrite <- !app_assoc.
  - exact Hab1.
  - unfold Watch002.released, st1, Watch002.enter.
    cbn [Watch002.currentValidationController Watch002.created st0
           Watch002.log].
    destruct (Nat.eqb_spec (Watch002.created st) s); [lia|reflexivity].
Qed.

Lemma superseded_running_pass_still_reports_witness :
  let st := Watch002.run Demo.repo [ Watch002.SleepOver 0 Demo.repo ] in
  let results :=
    match Part002.passResults Demo.repo Demo.inOrder false with
    | Returns results => results
    | Throws _ => []
    end in
  let st' :=
    fold_left (Watch002.step Demo.repo)
      [ Watch002.Changed (Watch002.SchemaChange "change");
        Watch002.Settled 0 Demo.inOrder ]
      st in
  Watch002.console st'
  = Watch002.console st
      ++ [ Log (Watch002.callbackLine Demo.repo
                  (Watch002.SchemaChange "change"));
           Clear; Log "Running validation..." ]
      ++ printResults Demo.repo (Part002.TeamContributor_shape Demo.repo)
           (Part002.PROJECTS_FILE Demo.repo) results
  /\ Watch002.isAborted st' 0 = true
  /\ Watch002.currentValidationController st' = Some (Watch002.created st).
Proof.
  apply (superseded_running_pass_still_reports Demo.repo
           [ Watch002.SleepOver 0 Demo.repo ] 0
           (Watch002.SchemaChange "change") Demo.repo
           (snd (Part002.validateAllTeamFiles Demo.repo false))
           (match Part002.passResults Demo.repo Demo.inOrder false with
            | Returns results => results
            | Throws _ => []
            end)
           Demo.inOrder);
    reflexivity.
Defined.

(** ** What the report holds *)

Lemma requiredFields_TeamContributor (w : World) :
  requiredFields (Part002.TeamContributor_shape w) = "name, avatar, roles".
Proof. reflexivity. Qed.

(** X14.  No error is lost in the report: for every result that carries
    an error, the report of [part_002] holds the header of its file and,
    for each of its errors, the line [  - <error>]; it then also holds
    the tip that names the required fields, which are name, avatar and
    roles whatever the contact schema (contacts have a default). *)
Theorem report_lists_every_error (w : World) (results : list ValidationResult)
  (r : ValidationResult) (error : string) :
  In r results ->
  In error (errors r) ->
  let report :=
    printResults w (Part002.TeamContributor_shape w) (Part002.PROJECTS_FILE w)
      results in
  In (Log ("./team/" +++ path_relative w (cwd w) (file r) +++ ":")) report
  /\ In (Log ("  - " +++ error)) report
  /\ In (Log "   • Ensure all required fields (name, avatar, roles) are present")
       report.
Proof.
  intros Hr Herror report.
  assert (Hne : nonempty (errors r) = true) by now apply nonempty_In with (x := error).
  assert (Hsome : existsb (fun r => nonempty (errors r)) results = true).
  { apply existsb_exists. now exists r. }
  assert (Hfile : forall line, In line (fileErrors w r) ->
                               In line (flat_map (fileErrors w) results)).
  { intros line Hline. apply in_flat_map. now exists r. }
  assert (H1 : In (Log ("./team/" +++ path_relative w (cwd w) (file r) +++ ":"))
                 (flat_map (fileErrors w) results)).
  { apply Hfile. unfold fileErrors. rewrite Hne. now left. }
  assert (H2 : In (Log ("  - " +++ error)) (flat_map (fileErrors w) results)).
  { apply Hfile. unfold fileErrors. rewrite Hne. right.
    apply in_map_iff. now exists error. }
  unfold report, printResults. rewrite Hsome.
  rewrite requiredFields_TeamContributor.
  rewrite !in_app_iff. cbn [In]. tauto.
Qed.

Lemma report_lists_every_error_witness :
  let r :=
    mkResult "/repo/team/erin.yaml" false
      [ "avatar: No avatar file found at ./team/erin.png" ] [] in
  let report :=
    printResults Demo.repo (Part002.TeamContributor_shape Demo.repo)
      (Part002.PROJECTS_FILE Demo.repo) [ r ] in
  In (Log ("./team/"
             +++ path_relative Demo.repo (cwd Demo.repo) (file r) +++ ":"))
    report
  /\ In (Log ("  - " +++ "avatar: No avatar file found at ./team/erin.png"))
       report
  /\ In (Log "   • Ensure all required fields (name, avatar, roles) are present")
       report.
Proof.
  apply (report_lists_every_error Demo.repo
           [ mkResult "/repo/team/erin.yaml" false
               [ "avatar: No avatar file found at ./team/erin.png" ] [] ]
           (mkResult "/repo/team/erin.yaml" false
              [ "avatar: No avatar file found at ./team/erin.png" ] [])
           "avatar: No avatar file found at ./team/erin.png").
  - now left.
  - now left.
Defined.

(** ** The synchronous script ([part_000]) *)

Section Script000.

Variable w : World.
Variable TeamContributor : Schema.

Lemma handleResult_failure (o : Outcome) (errs : list ZodIssue) :
  handleResult o = Returns (Failure errs) -> errs <> [].
Proof.
  unfold handleResult.
  destruct (status o); try discriminate;
    destruct (issues o); cbn [nonempty]; try discriminate;
    intros [= <-]; discriminate.
Qed.

Lemma safeParse000_failure (data : Value) (errs : list ZodIssue) :
  Part000.safeParse w TeamContributor data = Returns (Failure errs) ->
  errs <> [].
Proof.
  unfold Part000.safeParse, transformSocial_check.
  destruct (transformSocial_raises w data); cbn [bind]; [discriminate|].
  apply handleResult_failure.
Qed.

(** A result of [part_000] is invalid exactly when it has an error, and
    it is the result of its file. *)
Lemma validateTeamFile000_invariant (filePath : string) :
  isValid (Part000.validateTeamFile w TeamContributor filePath)
  = negb (nonempty (errors (Part000.validateTeamFile w TeamContributor filePath))).
Proof.
  unfold Part000.validateTeamFile.
  destruct (readFileSync w filePath) as [content|f]; [|reflexivity].
  cbn [call bind]. destruct (yaml_parse w content) as [data|f]; [|reflexivity].
  cbn [call bind].
  destruct (Part000.safeParse w TeamContributor data) as [[|errs]|e] eqn:Hsafe;
    try reflexivity.
  cbn [bind].
  destruct (map_throwing_cases _ _ _
              (fun error => Part000.formatValidationError error filePath) errs)
    as [(bs & -> & Hlen)|(a & e & _ & _ & ->)]; cbn [bind]; [|reflexivity].
  cbn [isValid errors]. apply safeParse000_failure in Hsafe.
  destruct bs; [|reflexivity]. destruct errs; [congruence|discriminate].
Qed.

End Script000.

(** X15.  Without the watch flag the script of [part_000] prints its
    report between the two listings of the directory it makes (a listing
    failure is logged twice) and exits with status 1 exactly when the
    report shows the error banner: a result is invalid exactly when it
    carries an error. *)
Theorem part_000_exit_matches_report (w : World) (TeamContributor : Schema)
  (argv : list string) :
  isWatchMode argv = false ->
  let logged := fst (Part000.validateAllTeamFiles w TeamContributor) in
  let results :=
    map (Part000.validateTeamFile w TeamContributor) (Part000.enumerated w) in
  Part000.main w TeamContributor argv
  = (logged
       ++ printResults w (Part000.TeamContributor_shape TeamContributor)
            (Part000.PROJECTS_FILE w) results
       ++ logged,
      Exit (if existsb (fun r => nonempty (errors r)) results then 1 else 0)).
Proof.
  intros Hflag logged results. unfold Part000.main, Part000.runValidation.
  rewrite Hflag. subst logged results.
  rewrite <- validateAllTeamFiles000_results.
  destruct (Part000.validateAllTeamFiles w TeamContributor)
    as [logged results] eqn:Hall.
  cbn [fst snd]. rewrite app_nil_r, <- app_assoc.
  assert (Hres : results
                 = map (Part000.validateTeamFile w TeamContributor)
                     (Part000.enumerated w)).
  { rewrite <- validateAllTeamFiles000_results. now rewrite Hall. }
  assert (Hsome : existsb (fun r => negb (isValid r)) results
                  = existsb (fun r => nonempty (errors r)) results).
  { apply existsb_ext_Forall. apply Forall_forall. intros r Hr.
    rewrite Hres in Hr. apply in_map_iff in Hr. destruct Hr as (f & <- & _).
    rewrite validateTeamFile000_invariant. now destruct (nonempty _). }
  now rewrite Hsome.
Qed.

Lemma part_000_exit_matches_report_witness :
  let TC := Schema004.TeamContributor (ZOpaque (SocialsSchema Demo.noTeamDir)) in
  let logged := fst (Part000.validateAllTeamFiles Demo.noTeamDir TC) in
  let results :=
    map (Part000.validateTeamFile Demo.noTeamDir TC)
      (Part000.enumerated Demo.noTeamDir) in
  Part000.main Demo.noTeamDir TC []
  = (logged
       ++ printResults Demo.noTeamDir (Part000.TeamContributor_shape TC)
            (Part000.PROJECTS_FILE Demo.noTeamDir) results
       ++ logged,
      Exit (if existsb (fun r => nonempty (errors r)) results then 1 else 0)).
Proof.
  apply (part_000_exit_matches_report Demo.noTeamDir
           (Schema004.TeamContributor (ZOpaque (SocialsSchema Demo.noTeamDir)))
           []).
  reflexivity.
Defined.

(** X16.  With the roles object of [code/schema.ts], keys that are no
    project play no part: two roles objects that agree on every project
    parse alike, issue for issue, in either mode. *)
Theorem first_schema_ignores_other_keys (mode : ParseMode)
  (projectRoles : list (string * Schema)) (p : list PathSeg)
  (roles roles' : list (string * Value)) :
  (forall project, In project PROJECTS -> get project roles = get project roles') ->
  parse mode (SchemaFirst.Roles projectRoles) p (VObj roles)
  = parse mode (SchemaFirst.Roles projectRoles) p (VObj roles').
Proof.
  intros Hsame. unfold SchemaFirst.Roles. rewrite !parse_ZObject.
  cbn [unknown_keys_issues nonempty]. f_equal. unfold object_members.
  rewrite !map_map. apply map_ext_in. intros project Hproject.
  cbn [fst snd]. now rewrite (Hsame project Hproject).
Qed.

Lemma first_schema_ignores_other_keys_witness :
  parse SyncMode (SchemaFirst.Roles []) [Key "roles"]
    (VObj [ ("Website", VArr [ VStr "Developer" ]) ])
  = parse SyncMode (SchemaFirst.Roles []) [Key "roles"]
      (VObj [ ("Fanzine", VArr [ VNum 1 ]);
              ("Website", VArr [ VStr "Developer" ]) ]).
Proof.
  apply (first_schema_ignores_other_keys SyncMode [] [Key "roles"]
           [ ("Website", VArr [ VStr "Developer" ]) ]
           [ ("Fanzine", VArr [ VNum 1 ]);
             ("Website", VArr [ VStr "Developer" ]) ]).
  intros project Hproject. cbn in Hproject.
  repeat (destruct Hproject as [<-|Hproject]; [reflexivity|]).
  destruct Hproject.
Defined.

(** X17.  The classifier of [part_001] applied to the issue with which the
    role union of a restricted project rejects an entry under [roles.]:
    the error names the role the entry states, whether bare or in an
    object, and names [undefined] when the entry states no string role or
    states an allowed one (an object whose details are missing). *)
Theorem rejected_role_is_named (w : World) (mode : ParseMode)
  (allowed : list string) (p : list PathSeg) (entry : Value)
  (filePath : string) (error : ZodIssue) :
  Js.includes (path_join_dot p) "roles." = true ->
  issues (parse mode (Role (ZEnum allowed)) p entry) = [ error ] ->
  Part001.formatValidationError w error filePath
  = Throws
      (Part001.InvalidRoleError w (rejectedRoleName allowed entry)
         (Js.at_index 1 (Js.split_dot (path_join_dot p))) filePath).
Proof.
  intros Hroles Hissue.
  assert (Hgoal : forall errs,
             error = invalid_union_issue p errs ->
             Part001.receivedRole error = rejectedRoleName allowed entry ->
             Part001.formatValidationError w error filePath
             = Throws
                 (Part001.InvalidRoleError w (rejectedRoleName allowed entry)
                    (Js.at_index 1 (Js.split_dot (path_join_dot p)))
                    filePath)).
  { intros errs -> <-.
    unfold Part001.formatValidationError, Part001.unknownProject,
      Part001.invalidRole.
    cbn [code path invalid_union_issue String.eqb Ascii.eqb Bool.eqb].
    now rewrite Hroles. }
  unfold Role, rejectedRoleName in *.
  destruct entry as [| |b|n|bare|items|fields];
    try (destruct mode; cbn in Hissue; injection Hissue as <-;
         eapply Hgoal; reflexivity).
  - cbn in Hissue. destruct (Js.mem bare allowed);
      destruct mode; cbn in Hissue; try discriminate;
      injection Hissue as <-; eapply Hgoal; reflexivity.
  - cbn in Hissue.
    destruct (get "role" fields) as [| | | |role| |];
      destruct (get "details" fields);
      try destruct (Js.mem role allowed);
      destruct mode; cbn in Hissue; try discriminate;
      injection Hissue as <-; eapply Hgoal; reflexivity.
Qed.

Lemma rejected_role_is_named_witness :
  Part001.formatValidationError Demo.repo
    (invalid_union_issue [Key "roles"; Key "Website"; Idx 0]
       [ [ invalid_enum_issue [Key "roles"; Key "Website"; Idx 0]
             ["Developer"; "Designer"] "Wizard" ];
         [ invalid_type_issue [Key "roles"; Key "Website"; Idx 0]
             "object" (VStr "Wizard") ] ])
    "team/zoe.yaml"
  = Throws
      (Part001.InvalidRoleError Demo.repo (Some "Wizard") "Website"
         "team/zoe.yaml").
Proof.
  exact (rejected_role_is_named Demo.repo AsyncMode ["Developer"; "Designer"]
           [Key "roles"; Key "Website"; Idx 0] (VStr "Wizard")
           "team/zoe.yaml" _ eq_refl eq_refl).
Defined.

(** ** The invalid role in the report of a file ([part_002]) *)

Lemma map_throwing_same (E A B : Type) (f : A -> Completion E B) (l : list A)
  (e : E) :
  Forall (fun a => returns f a \/ f a = Throws e) l ->
  (exists a, In a l /\ f a = Throws e) ->
  map_throwing f l = Throws e.
Proof.
  induction 1 as [|a l Ha _ IH]; intros (x & Hin & Hx); [destruct Hin|].
  cbn [map_throwing bind].
  destruct Ha as [[b Hb]| ->]; [|reflexivity].
  rewrite Hb. cbn [bind].
  destruct Hin as [<-|Hin]; [congruence|].
  rewrite IH by eauto. reflexivity.
Qed.

(** The asynchronous parse of one role entry: nothing on the spot, and
    from the continuation the union failure of a rejected entry. *)
Lemma Role_async (project : string) (p : list PathSeg) (entry : Value) :
  let o := parse AsyncMode (Role (Schema004.roleTypeOf project)) p entry in
  if acceptedRole project entry then later o = []
  else exists errs, later o = [ invalid_union_issue p errs ].
Proof.
  unfold Schema004.roleTypeOf, acceptedRole, roleAllowed, Role.
  destruct (lookup project PROJECT_ROLES) as [roles|];
    destruct entry as [| |b|n|bare|items|fields];
    try (cbn; first [reflexivity|eexists; reflexivity]).
  - cbn. destruct (Js.mem bare roles); cbn;
      first [reflexivity|eexists; reflexivity].
  - cbn. destruct (get "role" fields) as [| | | |role| |];
      destruct (get "details" fields);
      try destruct (Js.mem role roles);
      cbn; first [reflexivity|eexists; reflexivity].
  - cbn. destruct (get "role" fields) as [| | | |role| |];
      destruct (get "details" fields);
      cbn; first [reflexivity|eexists; reflexivity].
Qed.

Lemma array_members_Role_later (project : string) (p : list PathSeg)
  (items : list Value) (i : nat) :
  let l :=
    List.concat
      (map later
         (array_members AsyncMode (Role (Schema004.roleTypeOf project)) p
            items i)) in
  Forall
    (fun issue => exists j errs, issue = invalid_union_issue (p ++ [Idx j]) errs)
    l
  /\ (nonempty l
      = nonempty (filter (fun entry => negb (acceptedRole project entry)) items)).
Proof.
  revert i. induction items as [|x items IH]; intros i.
  - split; [constructor|reflexivity].
  - cbn [array_members map List.concat filter].
    destruct (IH (S i)) as [Hall Hne].
    pose proof (Role_async project (p ++ [Idx i]) x) as Hx. cbv zeta in Hx.
    destruct (acceptedRole project x); cbn [negb].
    + rewrite Hx. cbn [app]. now split.
    + destruct Hx as [errs ->]. cbn [app nonempty]. split; trivial.
      constructor; trivial. now exists i, errs.
Qed.

Lemma project_roles_later (project : string) (p : list PathSeg) (v : Value) :
  let l :=
    later
      (parse AsyncMode
         (ZDefault (ZArray (Role (Schema004.roleTypeOf project))) (VArr []))
         p v) in
  Forall
    (fun issue => exists j errs, issue = invalid_union_issue (p ++ [Idx j]) errs)
    l
  /\ nonempty l = nonempty (rejectedEntries project v).
Proof.
  rewrite parse_ZDefault.
  destruct v as [| |b|n|s|items|fields];
    try (split; [constructor|reflexivity]).
  rewrite parse_ZArray. unfold merge. cbn [later rejectedEntries].
  apply array_members_Role_later.
Qed.

Lemma roles_members_later (project : string) (roles : list (string * Value))
  (projects : list string) :
  (forall other,
      other <> project -> rejectedEntries other (get other roles) = []) ->
  let l :=
    List.concat
      (map later
         (object_members AsyncMode [Key "roles"] roles
            (map (fun project =>
                    (project,
                      ZDefault (ZArray (Role (Schema004.roleTypeOf project)))
                        (VArr [])))
               projects))) in
  Forall
    (fun issue =>
       exists j errs,
         issue = invalid_union_issue [Key "roles"; Key project; Idx j] errs)
    l
  /\ (In project projects ->
      rejectedEntries project (get project roles) <> [] ->
      l <> []).
Proof.
  intros Hothers. unfold object_members.
  induction projects as [|k projects [IHall IHne]].
  - split; [constructor|]. intros [].
  - cbn [map List.concat fst snd].
    destruct (project_roles_later k ([Key "roles"] ++ [Key k]) (get k roles))
      as [Hall Hne].
    cbv zeta in Hall, Hne.
    set (lk := later _) in *.
    destruct (String.eqb_spec k project) as [->|Hk].
    + split.
      * apply Forall_app. split; trivial.
      * intros _ Hrej Hnil. apply app_eq_nil in Hnil. destruct Hnil as [Hlk _].
        rewrite Hlk in Hne. cbn [nonempty] in Hne.
        destruct (rejectedEntries project (get project roles)); [|discriminate].
        now apply Hrej.
    + rewrite (Hothers k Hk) in Hne. cbn [nonempty] in Hne.
      destruct lk; [|discriminate]. cbn [app]. split; trivial.
      intros [Heq|Hin]; [congruence|]. now apply IHne.
Qed.


Lemma parse_ZString_later (mode : ParseMode) (p : list PathSeg) (v : Value) :
  later (parse mode ZString p v) = [].
Proof. now destruct v. Qed.

Lemma rejected_not_accepted (project : string) (v : Value) :
  rejectedEntries project v <> [] -> acceptedRoleList project v = false.
Proof.
  destruct v as [| |b|n|s|items|fields]; cbn; try congruence.
  induction items as [|x items IH]; cbn; [congruence|].
  destruct (acceptedRole project x); cbn; auto.
Qed.

Lemma avatarCheck_is_formatted (w : World) (filePath avatar : string) :
  Forall (returns (fun error => Part002.formatValidationError w error filePath))
    (Part002.avatarCheck w filePath avatar).
Proof.
  unfold Part002.avatarCheck. destruct (access w _); repeat constructor.
  eexists. reflexivity.
Qed.

(** A record whose only rejected role entries are those of one project,
    with no key under [roles] that is no project and contacts that raise
    nothing the classifier escalates: every exception of the classifier is
    the invalid role of that project, and there is one. *)
Lemma rejected_entry_is_reported (w : World) (filePath content : string)
  (fields roles : list (string * Value)) (project : string) :
  readFileSync w filePath = Returns content ->
  yaml_parse w content = Returns (VObj fields) ->
  transformSocial_raises w (VObj fields) = None ->
  get "roles" fields = VObj roles ->
  extraKeys PROJECTS roles = [] ->
  In project PROJECTS ->
  rejectedEntries project (get project roles) <> [] ->
  (forall other,
      other <> project -> rejectedEntries other (get other roles) = []) ->
  Forall (fun issue => Part002.escalation w issue filePath = None)
    (issues
       (parse AsyncMode
          (ZDefault (ZArray (ZOpaque (SocialsSchema w))) (VArr []))
          [Key "contacts"] (get "contacts" fields))) ->
  (forall j errs,
      Part002.formatValidationError w
        (invalid_union_issue [Key "roles"; Key project; Idx j] errs) filePath
      = Throws (Part002.InvalidRoleError w project filePath)) ->
  Part002.validateTeamFile w filePath false
  = Returns
      (mkResult filePath false
         [ "Failed to parse file: "
             +++ errorText (Part002.InvalidRoleError w project filePath) ]
         []).
Proof.
  intros Hread Hparse Hraise Hroles Hextra Hproject Hrejected Hothers
    Hcontacts Hnames.
  set (f := fun error => Part002.formatValidationError w error filePath).
  set (e := Part002.InvalidRoleError w project filePath).
  destruct (superRefine_spec w filePath fields)
    as (r & added & Hrefine & Hnow & Hlater & Hstatus).
  set (o := parse AsyncMode (Part002.TeamContributor w) [] (VObj fields)) in *.
  set (N := parse AsyncMode ZString [Key "name"] (get "name" fields)).
  set (A := parse AsyncMode ZString [Key "avatar"] (get "avatar" fields)).
  set (R := parse AsyncMode Schema004.Roles [Key "roles"] (VObj roles)).
  set (C := parse AsyncMode
              (ZDefault (ZArray (ZOpaque (SocialsSchema w))) (VArr []))
              [Key "contacts"] (get "contacts" fields)) in *.
  assert (Ho : o = merge false [] [N; A; R; C]).
  { unfold o, Part002.TeamContributor. rewrite parse_TeamContributor.
    now rewrite Hroles. }
  set (members :=
         object_members AsyncMode [Key "roles"] roles
           (map (fun project =>
                   (project,
                     ZDefault (ZArray (Role (Schema004.roleTypeOf project)))
                       (VArr [])))
              PROJECTS)).
  assert (HR : R = merge false [] members).
  { unfold R, Schema004.Roles, Schema004.RolesFor.
    rewrite parse_ZObject, RolesFor_keys. cbv zeta.
    unfold unknown_keys_issues. now rewrite Hextra. }
  destruct (roles_members_later project roles PROJECTS Hothers)
    as [Hroleissues Hsome].
  cbv zeta in Hroleissues, Hsome. fold members in Hroleissues, Hsome.
  specialize (Hsome Hproject Hrejected).
  pose proof (roles_members_async_now PROJECTS [Key "roles"] roles) as Hnowroles.
  fold members in Hnowroles. clearbody members.
  assert (Hformatted : forall l,
             Forall isInvalidType l ->
             Forall (fun a => returns f a \/ f a = Throws e) l).
  { intros l Hl. eapply Forall_impl; [|exact Hl].
    intros a Ha. left. now apply invalid_type_is_formatted. }
  assert (Hquiet : forall l,
             Forall (fun issue => Part002.escalation w issue filePath = None) l ->
             Forall (fun a => returns f a \/ f a = Throws e) l).
  { intros l Hl. eapply Forall_impl; [|exact Hl].
    intros a Ha. left.
    pose proof (formatValidationError_escalation w a filePath) as H.
    now rewrite Ha in H. }
  unfold issues in Hcontacts. apply Forall_app in Hcontacts.
  destruct Hcontacts as [HnowC HlaterC].
  assert (Hissues :
           issues r
           = (now N ++ now A ++ List.concat (map now members) ++ now C)
               ++ (List.concat (map later members) ++ later C) ++ added).
  { unfold issues. rewrite Hnow, Hlater, Ho. unfold merge.
    cbn [now later map List.concat]. rewrite HR. unfold merge.
    cbn [now later]. unfold N, A. rewrite !parse_ZString_later.
    rewrite !app_nil_r. cbn [app]. now rewrite <- !app_assoc. }
  assert (Hadded :
           Forall (fun a => returns f a \/ f a = Throws e) added
           /\ status r <> valid).
  { assert (Hov : is_valid o = false).
    { rewrite Ho, merge_is_valid. cbn [negb andb forallb].
      unfold R. rewrite Roles_is_valid. unfold acceptedRoles.
      replace (forallb
                 (fun project => acceptedRoleList project (get project roles))
                 PROJECTS) with false.
      - now rewrite !andb_false_r.
      - symmetry. apply not_true_is_false. intros Hall.
        rewrite forallb_forall in Hall. specialize (Hall _ Hproject).
        now rewrite (rejected_not_accepted _ _ Hrejected) in Hall. }
    unfold is_valid in Hov.
    destruct Hstatus as [(_ & -> & ->)|(avatar & _ & -> & ->)].
    - split; [constructor|discriminate].
    - split.
      + eapply Forall_impl; [|apply avatarCheck_is_formatted].
        intros a Ha. now left.
      + destruct (nonempty _); [discriminate|].
        destruct (status o); congruence. }
  destruct Hadded as [Hadded Hrst].
  assert (Hall : Forall (fun a => returns f a \/ f a = Throws e) (issues r)).
  { rewrite Hissues, !Forall_app. repeat split; auto.
    - apply Hformatted, parse_ZString_now.
    - apply Hformatted, parse_ZString_now.
    - eapply Forall_impl; [|exact Hroleissues].
      intros a (j & errs & ->). right. apply Hnames. }
  assert (Hone : exists a, In a (issues r) /\ f a = Throws e).
  { destruct (List.concat (map later members)) as [|a l] eqn:Hl;
      [congruence|].
    exists a. split.
    - rewrite Hissues. apply in_or_app. right. now left.
    - apply Forall_inv in Hroleissues. destruct Hroleissues as (j & errs & ->).
      apply Hnames. }
  assert (Hsafe : Part002.safeParseAsync w filePath (VObj fields)
                  = Returns (Failure (issues r))).
  { unfold Part002.safeParseAsync, transformSocial_check. rewrite Hraise.
    cbn [bind]. fold o. rewrite Hrefine. cbn [bind].
    destruct Hone as (a & Hin & _).
    unfold handleResult. rewrite (nonempty_In _ _ _ Hin).
    destruct (status r) eqn:Hr; congruence. }
  eapply validateTeamFile_failed_format; eauto.
  now apply map_throwing_same.
Qed.

Lemma filter_nonempty (A : Type) (f : A -> bool) (l : list A) (x : A) :
  In x l -> f x = true -> filter f l <> [].
Proof.
  intros Hin Hx Hnil.
  assert (H : In x (filter f l)) by now apply filter_In.
  rewrite Hnil in H. destruct H.
Qed.

(** C4.  Both classifiers escalate to the invalid-role error exactly when
    the code of the issue is [invalid_union] and its dot-joined path
    contains [roles.]; the nested failures play no part in the decision
    ([part_001] only reads the role name from them).  For a restricted
    project, a role outside its list, bare or with details, fails the
    union at [roles.<project>.<i>], and that issue is classified as an
    invalid role of that project, never formatted as a union mismatch.
    In the report of [part_002], a file with such an entry has the
    invalid role of that project as its only error when no key under
    [roles] is unknown, no other project has a rejected entry and the
    contacts raise nothing that the classifier escalates. *)
Theorem invalid_role_escalation (w : World) (error : ZodIssue)
  (filePath project : string) (roles : list string) (role details : string)
  (i : nat) (mode : ParseMode) :
  lookup project PROJECT_ROLES = Some roles ->
  Js.mem role roles = false ->
  ((exists msg,
       Part002.formatValidationError w error filePath
       = Throws (ErrorOf InvalidRoleErrorClass msg))
   <-> code_role_escalation error = true)
  /\ ((exists msg,
          Part001.formatValidationError w error filePath
          = Throws (ErrorOf InvalidRoleErrorClass msg))
      <-> code_role_escalation error = true)
  /\ (forall v,
         v = VStr role
         \/ v = VObj [ ("role", VStr role); ("details", VStr details) ] ->
         exists raw,
           issues
             (parse mode (Role (Schema004.roleTypeOf project))
                [Key "roles"; Key project; Idx i] v)
           = [ raw ]
           /\ code raw = "invalid_union"
           /\ Part002.formatValidationError w raw filePath
              = Throws (Part002.InvalidRoleError w project filePath)
           /\ Part001.formatValidationError w raw filePath
              = Throws
                  (Part001.InvalidRoleError w (Some role) project filePath))
  /\ forall (content : string) (fields record : list (string * Value))
        (entries : list Value) (entry : Value),
      readFileSync w filePath = Returns content ->
      yaml_parse w content = Returns (VObj fields) ->
      transformSocial_raises w (VObj fields) = None ->
      get "roles" fields = VObj record ->
      extraKeys PROJECTS record = [] ->
      get project record = VArr entries ->
      In entry entries ->
      entry = VStr role
      \/ entry = VObj [ ("role", VStr role); ("details", VStr details) ] ->
      (forall other,
          other <> project -> rejectedEntries other (get other record) = []) ->
      Forall (fun issue => Part002.escalation w issue filePath = None)
        (issues
           (parse AsyncMode
              (ZDefault (ZArray (ZOpaque (SocialsSchema w))) (VArr []))
              [Key "contacts"] (get "contacts" fields))) ->
      Part002.validateTeamFile w filePath false
      = Returns
          (mkResult filePath false
             [ "Failed to parse file: "
                 +++ errorText (Part002.InvalidRoleError w project filePath) ]
             []).
Proof.
  intros Hlookup Hmem. split; [|split; [|split]].
  - rewrite role_escalation_002.
    destruct (code_role_escalation error).
    + split; trivial. intros _. eexists. reflexivity.
    + split; [|discriminate]. intros [msg H].
      destruct (Part002.unknownProject w error filePath) as [e|] eqn:He;
        [|discriminate].
      injection H as ->. now apply unknownProject_class_002 in He.
  - rewrite role_escalation_001.
    destruct (code_role_escalation error).
    + split; trivial. intros _. eexists. reflexivity.
    + split; [|discriminate]. intros [msg H].
      destruct (Part001.unknownProject w error filePath) as [e|] eqn:He;
        [|discriminate].
      injection H as ->. now apply unknownProject_class_001 in He.
  - destruct (restricted_project _ _ Hlookup) as [-> ->].
    change (Schema004.roleTypeOf "Volume 0 Issue 1")
      with (ZEnum VOLUME_0_ISSUE_1_ROLES).
    intros v [->| ->]; eexists;
      (split;
       [ first [ apply role_outside_enum | apply detailed_role_outside_enum ];
         exact Hmem
       | repeat split ]).
  - intros content fields record entries entry Hread Hparse Hraise Hroles
      Hextra Hentries Hin Hentry Hothers Hcontacts.
    destruct (restricted_project _ _ Hlookup) as [-> ->].
    assert (Hrejected :
             rejectedEntries "Volume 0 Issue 1"
               (get "Volume 0 Issue 1" record) <> []).
    { rewrite Hentries. cbn [rejectedEntries].
      apply (filter_nonempty _ _ _ entry Hin).
      apply negb_true_iff.
      destruct Hentry as [->| ->]; cbn; exact Hmem. }
    assert (Hproject : In "Volume 0 Issue 1" PROJECTS) by (cbn; auto).
    apply (rejected_entry_is_reported w filePath content fields record
             "Volume 0 Issue 1" Hread Hparse Hraise Hroles Hextra Hproject
             Hrejected Hothers Hcontacts).
    intros j errs. reflexivity.
Qed.

Lemma invalid_role_escalation_witness :
  let p := [Key "roles"; Key "Volume 0 Issue 1"; Idx 0] in
  let error :=
    invalid_union_issue p
      [ [ invalid_enum_issue p VOLUME_0_ISSUE_1_ROLES "Wizard" ];
        [ invalid_type_issue p "object" (VStr "Wizard") ] ] in
  ((exists msg,
       Part002.formatValidationError Demo.repo error "/repo/team/dave.yaml"
       = Throws (ErrorOf InvalidRoleErrorClass msg))
   <-> code_role_escalation error = true)
  /\ ((exists msg,
          Part001.formatValidationError Demo.repo error "/repo/team/dave.yaml"
          = Throws (ErrorOf InvalidRoleErrorClass msg))
      <-> code_role_escalation error = true)
  /\ (forall v,
         v = VStr "Wizard"
         \/ v = VObj [ ("role", VStr "Wizard"); ("details", VStr "spells") ] ->
         exists raw,
           issues
             (parse AsyncMode (Role (Schema004.roleTypeOf "Volume 0 Issue 1"))
                p v)
           = [ raw ]
           /\ code raw = "invalid_union"
           /\ Part002.formatValidationError Demo.repo raw
                "/repo/team/dave.yaml"
              = Throws
                  (Part002.InvalidRoleError Demo.repo "Volume 0 Issue 1"
                     "/repo/team/dave.yaml")
           /\ Part001.formatValidationError Demo.repo raw
                "/repo/team/dave.yaml"
              = Throws
                  (Part001.InvalidRoleError Demo.repo (Some "Wizard")
                     "Volume 0 Issue 1" "/repo/team/dave.yaml"))
  /\ Part002.validateTeamFile Demo.repo "/repo/team/dave.yaml" false
     = Returns
         (mkResult "/repo/team/dave.yaml" false
            [ "Failed to parse file: "
                +++ errorText
                      (Part002.InvalidRoleError Demo.repo "Volume 0 Issue 1"
                         "/repo/team/dave.yaml") ]
            []).
Proof.
  intros p error.
  destruct (invalid_role_escalation Demo.repo error "/repo/team/dave.yaml"
              "Volume 0 Issue 1" VOLUME_0_ISSUE_1_ROLES "Wizard" "spells" 0
              AsyncMode eq_refl eq_refl)
    as (H002 & H001 & Hentry & Hfile).
  split; [exact H002|]. split; [exact H001|]. split; [exact Hentry|].
  apply (Hfile "/repo/team/dave.yaml"
           [ ("name", VStr "Dave"); ("avatar", VStr "alice.png");
             ("roles", VObj [ ("Volume 0 Issue 1", VArr [ VStr "Wizard" ]) ]) ]
           [ ("Volume 0 Issue 1", VArr [ VStr "Wizard" ]) ]
           [ VStr "Wizard" ] (VStr "Wizard")).
  - reflexivity.
  - reflexivity.
  - reflexivity.
  - reflexivity.
  - reflexivity.
  - reflexivity.
  - left. reflexivity.
  - left. reflexivity.
  - intros other Hother. cbn [get].
    destruct (String.eqb_spec "Volume 0 Issue 1" other) as [Heq|_];
      [congruence|reflexivity].
  - constructor.
Defined.

(** C4, as stated.  The number in [carol.yml] fails the union of an
    unrestricted project with two type errors and no enum mismatch: the
    condition of the specification does not hold, and both classifiers
    escalate all the same.  And a role outside the list of the restricted
    project is not always what the file reports: with a rejected entry of
    [Website] beside it the only error names [Website], and with a key
    under [roles] that is no project the only error is the invalid
    project. *)
Lemma escalation_without_enum_mismatch :
  (issues (parse AsyncMode (Part002.TeamContributor Demo.repo) [] Demo.carol)
   = [ carol_issue ]
   /\ spec_role_escalation carol_issue = false
   /\ Part002.formatValidationError Demo.repo carol_issue
        "/repo/team/carol.yml"
      = Throws
          (Part002.InvalidRoleError Demo.repo "Website" "/repo/team/carol.yml")
   /\ Part001.formatValidationError Demo.repo carol_issue
        "/repo/team/carol.yml"
      = Throws
          (Part001.InvalidRoleError Demo.repo None "Website"
             "/repo/team/carol.yml"))
  /\ (lookup "Volume 0 Issue 1" PROJECT_ROLES = Some VOLUME_0_ISSUE_1_ROLES
      /\ Js.mem "Wizard" VOLUME_0_ISSUE_1_ROLES = false)
  /\ Part002.validateTeamFile (oneFile (Returns ivan)) "/repo/team/only.yaml"
       false
     = Returns
         (mkResult "/repo/team/only.yaml" false
            [ "Failed to parse file: "
                +++ errorText
                      (Part002.InvalidRoleError (oneFile (Returns ivan))
                         "Website" "/repo/team/only.yaml") ]
            [])
  /\ Part002.validateTeamFile (oneFile (Returns hana)) "/repo/team/only.yaml"
       false
     = Returns
         (mkResult "/repo/team/only.yaml" false
            [ "Failed to parse file: "
                +++ errorText
                      (Part002.InvalidProjectError (oneFile (Returns hana))
                         "Fanzine" "/repo/team/only.yaml") ]
            []).
Proof. repeat split. Qed.
